(** * mdict-sqlite-utils: the parallel paginated transformation pipeline

    A shallow embedding of [src/types.ts], [src/database.ts] and
    [src/workflows.ts], and the properties of the pipeline proved on it.

    - A table of the SQLite store is a list of rows; [ORDER BY rowid] is
      an insertion sort, [LIMIT] keeps a prefix (a negative limit keeps
      everything, as SQLite does).
    - JavaScript numbers that count or index are integers ([Z]); a number
      read from the store is the 64-bit integer of the column rounded to
      the nearest JavaScript number ([js_number]).
    - A worker context is its two [globalThis] slots plus a log of the
      [import()] calls it made.
    - Effects of the main thread are threaded through a [World]: the two
      stores, the pools created so far and a trace of external calls.
    - A generator is a function of its consumer: [yield v] runs the body of
      the consuming [for ... of] loop on [v]; the completion of that body
      ([Normal], [Throw] or [Break]) is what the generator resumes with.
    - Loops that the source does not bound take fuel; running out of fuel
      is a completion of its own and never runs a [finally] block.
    - Console output and the progress bar are left out; of the progress
      bar only the record count it reads from the source is kept. *)

From stdpp Require Import base list strings gmap sorting pretty.
From Stdlib Require Import ZArith Lia Ascii.

Local Open Scope Z_scope.

(** ** types.ts *)

(** [enum ContentType { HTML, LINK }]: a numeric enum, stored in an
    INTEGER column. *)
Module ContentType.
Definition HTML : Z := 0.
Definition LINK : Z := 1.
End ContentType.

(** [interface MdxRecord].  [content_type] is [None] when the property is
    null or undefined (the case [insertRecords] fills in); [rowid] is
    optional in the interface. *)
Record MdxRecord := mkMdxRecord {
  entry : string;
  paraphrase : string;
  content_type : option Z;
  rowid : option Z
}.

(** [interface TransformOptions]. *)
Record TransformOptions := mkTransformOptions {
  htmlBeforeLink : option bool
}.

(** [{ ...record, paraphrase: p }] *)
Definition with_paraphrase (record : MdxRecord) (p : string) : MdxRecord :=
  {| entry := entry record; paraphrase := p;
     content_type := content_type record; rowid := rowid record |}.

(** [record.content_type = c] *)
Definition with_content_type (record : MdxRecord) (c : option Z) : MdxRecord :=
  {| entry := entry record; paraphrase := paraphrase record;
     content_type := c; rowid := rowid record |}.

(** [record.content_type === ContentType.X] *)
Definition has_type (c : Z) (record : MdxRecord) : bool :=
  match content_type record with
  | Some c' => c' =? c
  | None => false
  end.

(** ** The store: table [mdx] *)

(** One row of [mdx].  The rowid is the store's integer key; the column
    [content_type] may hold NULL when it was added by [optimize]. *)
Record Row := mkRow {
  row_id : Z;
  row_entry : string;
  row_paraphrase : string;
  row_content_type : option Z
}.

Definition Table := list Row.

(** An integer of the store as the JavaScript number the driver hands out:
    a double holds 53 significant bits, so an integer of up to 53 bits is
    held as it is and a longer one is rounded to the nearest integer of 53
    significant bits, to the one with an even last bit when two are
    equally near.  [e] is the number of bits cut off, [q] the bits kept,
    [r] the value of what is cut off. *)
Definition js_number (z : Z) : Z :=
  let a := Z.abs z in
  let e := Z.log2 a - 52 in
  if e <=? 0 then z
  else
    let q := Z.shiftr a e in
    let r := a - Z.shiftl q e in
    let half := Z.shiftl 1 (e - 1) in
    let q' := if (half <? r) || ((r =? half) && Z.odd q) then q + 1 else q in
    Z.sgn z * Z.shiftl q' e.

(** [SELECT entry, paraphrase, content_type, rowid]: the row as the record
    object the driver makes of it; [content_type] and [rowid] are numbers. *)
Definition to_record (r : Row) : MdxRecord :=
  {| entry := row_entry r; paraphrase := row_paraphrase r;
     content_type := js_number <$> row_content_type r;
     rowid := Some (js_number (row_id r)) |}.

(** [ORDER BY rowid] *)
Fixpoint insert_row (r : Row) (l : list Row) : list Row :=
  match l with
  | [] => [r]
  | r' :: l' => if row_id r <=? row_id r' then r :: l else r' :: insert_row r l'
  end.

Fixpoint order_by_rowid (l : list Row) : list Row :=
  match l with
  | [] => []
  | r :: l' => insert_row r (order_by_rowid l')
  end.

(** [LIMIT n]: a negative limit is no limit. *)
Definition limit {A} (n : Z) (l : list A) : list A :=
  if n <? 0 then l else take (Z.to_nat n) l.

(** [content_type = ?], when the statement has that condition.  A NULL
    column equals nothing. *)
Definition where_content_type (contentType : option Z) (r : Row) : bool :=
  match contentType with
  | None => true
  | Some c => match row_content_type r with
              | Some c' => c' =? c
              | None => false
              end
  end.

(** [SELECT ... FROM mdx WHERE [content_type = ? AND] rowid > ?
     ORDER BY rowid LIMIT ?] *)
Definition select_page (t : Table) (contentType : option Z)
    (lastRowId pageSize : Z) : list MdxRecord :=
  to_record <$>
    limit pageSize
      (order_by_rowid
         (filter (fun r => where_content_type contentType r
                           && (lastRowId <? row_id r)) t)).

(** [SELECT ... FROM mdx [WHERE content_type = ?] ORDER BY rowid] *)
Definition select_all (t : Table) (contentType : option Z) : list MdxRecord :=
  to_record <$> order_by_rowid (filter (fun r => where_content_type contentType r) t).

(** [SELECT COUNT( * ) AS count FROM mdx [WHERE content_type = ?]] *)
Definition select_count (t : Table) (contentType : option Z) : Z :=
  Z.of_nat (length (filter (fun r => where_content_type contentType r) t)).

(** The rowid SQLite gives to a new row: one more than the largest in the
    table, 1 in an empty table.  (This is so as long as the largest is
    below 2^63 - 1, the largest there is; SQLite then tries rowids at
    random.) *)
Definition next_rowid (t : Table) : Z :=
  match row_id <$> t with
  | [] => 1
  | id :: ids => foldr Z.max id ids + 1
  end.

(** [INSERT INTO mdx (entry, paraphrase, content_type) VALUES (?, ?, ?)].
    The column is NOT NULL in a table made by [initialize]; the value bound
    here is never null (see [insertRecords]). *)
Definition insert_row_values (t : Table) (e p : string) (c : Z) : Table :=
  t ++ [ {| row_id := next_rowid t; row_entry := e; row_paraphrase := p;
            row_content_type := Some c |} ].

(** ** database.ts: the content partitioner *)

(** The loop of [splitRecordsByContentType]: [result] is the pair of
    arrays, grown with [push]. *)
Fixpoint splitRecordsByContentType_loop (records : list MdxRecord)
    (result : list MdxRecord * list MdxRecord)
  : list MdxRecord * list MdxRecord :=
  match records with
  | [] => result
  | record :: rest =>
      splitRecordsByContentType_loop rest
        (if has_type ContentType.HTML record
         then (result.1 ++ [record], result.2)
         else if has_type ContentType.LINK record
         then (result.1, result.2 ++ [record])
         else result)
  end.

(** [MdxDatabase.splitRecordsByContentType]: ([htmlRecords], [linkRecords]). *)
Definition splitRecordsByContentType (records : list MdxRecord)
  : list MdxRecord * list MdxRecord :=
  splitRecordsByContentType_loop records ([], []).

(** ** Completions and the monad of effectful code *)

Inductive JsError :=
  | ModuleNotFound (modulePath : string)  (* thrown by validateModuleExists *)
  | ImportError (modulePath : string)     (* import() rejected *)
  | ExportShapeError                      (* 'Module must export a function ...' *)
  | TransformError                        (* the transform function threw *)
  | TypeError                             (* a property of undefined was read *)
  | SqliteError                           (* the store refused a statement *)
  | FsError (path : string).              (* the file system refused a call *)

(** How a piece of code ends: normally with a value, by a throw, by the
    consumer of a generator leaving its loop ([Break]: the generator is
    resumed with a return completion), or not at all within the fuel. *)
Inductive Completion (A : Type) :=
  | Normal (a : A)
  | Throw (e : JsError)
  | Break
  | OutOfFuel.
Arguments Normal {A} a.
Arguments Throw {A} e.
Arguments Break {A}.
Arguments OutOfFuel {A}.

Definition M (S A : Type) : Type := S -> Completion A * S.

Definition ret {S A} (a : A) : M S A := fun s => (Normal a, s).

Definition bind {S A B} (m : M S A) (k : A -> M S B) : M S B :=
  fun s =>
    match m s with
    | (Normal a, s') => k a s'
    | (Throw e, s') => (Throw e, s')
    | (Break, s') => (Break, s')
    | (OutOfFuel, s') => (OutOfFuel, s')
    end.

Notation "'let*' x ':=' c 'in' k" := (bind c (fun x => k))
  (at level 10, x name, c at level 100, k at level 200).

Definition throw {S A} (e : JsError) : M S A := fun s => (Throw e, s).
Definition out_of_fuel {S A} : M S A := fun s => (OutOfFuel, s).
Definition get {S} : M S S := fun s => (Normal s, s).
Definition modify {S} (f : S -> S) : M S unit := fun s => (Normal tt, f s).

(** [try { body } finally { fin }]: [fin] runs however [body] ends; a [fin]
    that ends abruptly replaces the completion of [body]. *)
Definition try_finally {S A} (body : M S A) (fin : M S unit) : M S A :=
  fun s =>
    match body s with
    | (OutOfFuel, s') => (OutOfFuel, s')
    | (c, s') =>
        match fin s' with
        | (Normal _, s'') => (c, s'')
        | (Throw e, s'') => (Throw e, s'')
        | (Break, s'') => (Break, s'')
        | (OutOfFuel, s'') => (OutOfFuel, s'')
        end
    end.

(** [array.map(f)] with a callback that may throw: left to right, stopping
    at the first abrupt completion. *)
Fixpoint map_M {S A B} (f : A -> M S B) (l : list A) : M S (list B) :=
  match l with
  | [] => ret []
  | a :: l' =>
      let* b := f a in
      let* bs := map_M f l' in
      ret (b :: bs)
  end.

(** ** The worker context *)

(** The transform function of a module: [None] is a throw. *)
Definition TransformFn := string -> option string.

(** What [import(modulePath)] finds as the named export [transformHtml]. *)
Inductive Export :=
  | ExportFunction (f : TransformFn)
  | ExportOther.                 (* absent, or not a function *)

Inductive ModuleFile :=
  | Unimportable                 (* the file exists, import() rejects *)
  | Importable (transformHtml : Export).

(** The two [globalThis] slots of a context, and the [import()] calls the
    context has made, oldest first. *)
Record WorkerContext := mkWorkerContext {
  transformHtml : option TransformFn;
  transformModulePath : option string;
  imports : list string
}.

Definition fresh_context : WorkerContext :=
  {| transformHtml := None; transformModulePath := None; imports := [] |}.

(** ** The main thread: stores, pools, trace *)

(** The two instances the [transform] command opens. *)
Inductive MdxDatabase := SourceDb | TargetDb.

(** A [workerpool] pool: its contexts by worker number (a context exists
    once it has run a task) and the number of tasks handed out. *)
Record Pool := mkPool {
  workers : gmap nat WorkerContext;
  dispatched : nat
}.

Definition fresh_pool : Pool := {| workers := ∅; dispatched := 0 |}.

Inductive Event :=
  | EvPoolCreate (pool : nat)
  | EvPoolTerminate (pool : nat)
  | EvDispatch (pool : nat) (chunk : list MdxRecord) (modulePath : string)
  | EvCount (db : MdxDatabase) (contentType : option Z)
  | EvQueryAll (db : MdxDatabase) (contentType : option Z)
  | EvQueryPage (db : MdxDatabase) (contentType : option Z) (lastRowId pageSize : Z)
  | EvQueryEntries (db : MdxDatabase) (entries : list string)
  | EvInsert (db : MdxDatabase) (records : list MdxRecord).

Record World := mkWorld {
  source : Table;
  target : Table;
  pools : list Pool;
  trace : list Event            (* oldest first *)
}.

(** What the run does not control: the module files by resolved path,
    [path.resolve], which worker takes the n-th task of a pool, and which
    store statements fail (given the trace up to and including the call). *)
Record Env := mkEnv {
  modules : string -> option ModuleFile;
  resolve : string -> string;
  sched : nat -> nat -> nat;
  store_fails : list Event -> bool
}.

Definition table (this : MdxDatabase) (w : World) : Table :=
  match this with SourceDb => source w | TargetDb => target w end.

Definition set_table (this : MdxDatabase) (t : Table) (w : World) : World :=
  match this with
  | SourceDb => {| source := t; target := target w; pools := pools w; trace := trace w |}
  | TargetDb => {| source := source w; target := t; pools := pools w; trace := trace w |}
  end.

Definition set_pools (ps : list Pool) (w : World) : World :=
  {| source := source w; target := target w; pools := ps; trace := trace w |}.

Definition log (ev : Event) : M World unit :=
  modify (fun w => {| source := source w; target := target w; pools := pools w;
                      trace := trace w ++ [ev] |}).

Section Program.
Context (env : Env).

(** *** database.ts: [transformHtmlRecords], the function a worker runs *)

(** [await import(modulePath)], destructured to the export
    [transformHtml]. *)
Definition import_ (modulePath : string) : M WorkerContext Export :=
  let* _ := modify (fun g => {| transformHtml := transformHtml g;
                                transformModulePath := transformModulePath g;
                                imports := imports g ++ [modulePath] |}) in
  match modules env modulePath with
  | Some (Importable e) => ret e
  | _ => throw (ImportError modulePath)
  end.

(** [typeof globalThis.transformHtml === 'undefined' ||
     globalThis.transformModulePath !== modulePath] *)
Definition must_load (g : WorkerContext) (modulePath : string) : bool :=
  match transformHtml g with
  | None => true
  | Some _ => negb (bool_decide (transformModulePath g = Some modulePath))
  end.

(** [({ ...record, paraphrase: globalThis.transformHtml(record.paraphrase) })] *)
Definition transform_record (record : MdxRecord) : M WorkerContext MdxRecord :=
  let* g := get in
  match transformHtml g with
  | None => throw TypeError
  | Some f =>
      match f (paraphrase record) with
      | Some p => ret (with_paraphrase record p)
      | None => throw TransformError
      end
  end.

Definition transformHtmlRecords (records : list MdxRecord) (modulePath : string)
  : M WorkerContext (list MdxRecord) :=
  let* g := get in
  let* _ :=
    if must_load g modulePath then
      let* e := import_ modulePath in
      match e with
      | ExportOther => throw ExportShapeError
      | ExportFunction f =>
          modify (fun g => {| transformHtml := Some f;
                              transformModulePath := Some modulePath;
                              imports := imports g |})
      end
    else ret tt in
  map_M transform_record records.

(** *** The pool *)

(** [workerpool.pool()] *)
Definition workerpool_pool : M World nat :=
  let* w := get in
  let pool := length (pools w) in
  let* _ := modify (set_pools (pools w ++ [fresh_pool])) in
  let* _ := log (EvPoolCreate pool) in
  ret pool.

(** [pool.terminate()] *)
Definition pool_terminate (pool : nat) : M World unit :=
  log (EvPoolTerminate pool).

(** [pool.exec(transformHtmlRecords, [chunk, modulePath])]: the task is
    handed to the pool; what comes back is the pending task. *)
Definition pool_exec (pool : nat) (chunk : list MdxRecord) (modulePath : string)
  : M World (list MdxRecord * string) :=
  let* _ := log (EvDispatch pool chunk modulePath) in
  ret (chunk, modulePath).

(** A worker of the pool runs one pending task on its own context; the
    records go in and come back as copies. *)
Definition run_task (pool : nat) (task : list MdxRecord * string)
  : M World (list MdxRecord) :=
  fun w =>
    match pools w !! pool with
    | None => (Throw TypeError, w)
    | Some p =>
        let k := sched env pool (dispatched p) in
        let ctx := default fresh_context (workers p !! k) in
        let '(c, ctx') := transformHtmlRecords task.1 task.2 ctx in
        (c, set_pools (<[pool := {| workers := <[k := ctx']> (workers p);
                                   dispatched := S (dispatched p) |}]> (pools w)) w)
    end.

(** [await Promise.all(tasks)]: the results in the order of the tasks;
    the first task that fails fails the whole.  The tasks of a pool share
    nothing but the context of the worker that runs them, so they are run
    here one after the other, each on the worker the environment picks.
    What the tasks after a failed one do to their contexts is left out:
    the caller terminates the pool. *)
Definition Promise_all (pool : nat) (tasks : list (list MdxRecord * string))
  : M World (list (list MdxRecord)) :=
  map_M (run_task pool) tasks.

(** *** The chunk scheduler *)

(** [array.slice(start, end)] *)
Definition slice {A} (l : list A) (start end_ : Z) : list A :=
  let len := Z.of_nat (length l) in
  let k := if start <? 0 then Z.max (len + start) 0 else Z.min start len in
  let final := if end_ <? 0 then Z.max (len + end_) 0 else Z.min end_ len in
  take (Z.to_nat (final - k)) (drop (Z.to_nat k) l).

(** [for (let i = 0; i < htmlRecords.length; i += chunkSize)
       chunks.push(htmlRecords.slice(i, i + chunkSize))] *)
Fixpoint chunk_loop (fuel : nat) (htmlRecords : list MdxRecord) (chunkSize i : Z)
    (chunks : list (list MdxRecord)) : option (list (list MdxRecord)) :=
  if i <? Z.of_nat (length htmlRecords) then
    match fuel with
    | O => None
    | S fuel' =>
        chunk_loop fuel' htmlRecords chunkSize (i + chunkSize)
          (chunks ++ [slice htmlRecords i (i + chunkSize)])
    end
  else Some chunks.

(** The static [MdxDatabase.transformHtmlRecordsInParallel]. *)
Definition static_transformHtmlRecordsInParallel (fuel : nat)
    (htmlRecords : list MdxRecord) (pool : nat) (transformModulePath : string)
    (chunkSize : option Z) : M World (list MdxRecord) :=
  let chunkSize := default 1000 chunkSize in
  match chunk_loop fuel htmlRecords chunkSize 0 [] with
  | None => out_of_fuel
  | Some chunks =>
      let* tasks :=
        map_M (fun chunk => pool_exec pool chunk (resolve env transformModulePath))
              chunks in
      let* transformedChunks := Promise_all pool tasks in
      ret (concat transformedChunks)
  end.

(** *** Store access *)

(** A statement is run on the store: the call is recorded, and fails when
    the environment says so. *)
Definition store_call (ev : Event) : M World unit :=
  let* _ := log ev in
  let* w := get in
  if store_fails env (trace w) then throw SqliteError else ret tt.

Definition getTotalRecordCount (this : MdxDatabase) (contentType : option Z)
  : M World Z :=
  let* _ := store_call (EvCount this contentType) in
  let* w := get in
  ret (select_count (table this w) contentType).

Definition fetchRecords (this : MdxDatabase) (contentType : option Z)
  : M World (list MdxRecord) :=
  let* _ := store_call (EvQueryAll this contentType) in
  let* w := get in
  ret (select_all (table this w) contentType).

Definition fetchLinkRecords (this : MdxDatabase) : M World (list MdxRecord) :=
  fetchRecords this (Some ContentType.LINK).

Definition fetchHtmlRecords (this : MdxDatabase) : M World (list MdxRecord) :=
  fetchRecords this (Some ContentType.HTML).

(** *** The page cursor *)

(** The [do { ... } while (true)] of [fetchRecordsPaginated].  [yield_] is
    the consumer; it gives back the page array as the consumer left it
    (the array and its records are shared with the consumer). *)
Fixpoint fetchRecordsPaginated_loop (fuel : nat) (this : MdxDatabase)
    (contentType : option Z) (pageSize lastRowId : Z)
    (yield_ : list MdxRecord -> M World (list MdxRecord)) : M World unit :=
  match fuel with
  | O => out_of_fuel
  | S fuel' =>
      let* _ := store_call (EvQueryPage this contentType lastRowId pageSize) in
      let* w := get in
      let records := select_page (table this w) contentType lastRowId pageSize in
      if (length records =? 0)%nat then ret tt
      else
        let* records := yield_ records in
        match last records with
        | None => throw TypeError
        | Some record =>
            match rowid record with
            | None => throw TypeError
            | Some lastRowId =>
                fetchRecordsPaginated_loop fuel' this contentType pageSize lastRowId yield_
            end
        end
  end.

Definition fetchRecordsPaginated (fuel : nat) (this : MdxDatabase)
    (contentType : option Z) (pageSize : option Z)
    (yield_ : list MdxRecord -> M World (list MdxRecord)) : M World unit :=
  fetchRecordsPaginated_loop fuel this contentType (default 10000 pageSize) 0 yield_.

Definition fetchLinkRecordsPaginated (fuel : nat) (this : MdxDatabase)
    (pageSize : option Z) :=
  fetchRecordsPaginated fuel this (Some ContentType.LINK)
    (Some (default 10000 pageSize)).

Definition fetchHtmlRecordsPaginated (fuel : nat) (this : MdxDatabase)
    (pageSize : option Z) :=
  fetchRecordsPaginated fuel this (Some ContentType.HTML)
    (Some (default 10000 pageSize)).

(** *** The two pipeline generators *)

(** [records.filter(record => record.content_type === ContentType.HTML)]
    makes a new array of the same record objects: the positions, in
    [records], of the records it keeps. *)
Fixpoint html_positions (i : nat) (records : list MdxRecord) : list nat :=
  match records with
  | [] => []
  | record :: rest =>
      if has_type ContentType.HTML record
      then i :: html_positions (S i) rest
      else html_positions (S i) rest
  end.

(** The records behind an array of positions. *)
Definition deref (records : list MdxRecord) (refs : list nat) : list MdxRecord :=
  omap (fun i => records !! i) refs.

(** [for (let i = 0; i < htmlRecords.length; i++)
       htmlRecords[i].paraphrase = transformedRecords[i].paraphrase]
    where [htmlRecords] is what is left of the positions from index [i]. *)
Fixpoint assign_paraphrases (htmlRecords : list nat) (i : nat)
    (transformedRecords : list MdxRecord) (records : list MdxRecord)
  : M World (list MdxRecord) :=
  match htmlRecords with
  | [] => ret records
  | ref :: rest =>
      match transformedRecords !! i with
      | None => throw TypeError
      | Some t =>
          assign_paraphrases rest (S i) transformedRecords
            (alter (fun record => with_paraphrase record (paraphrase t)) ref records)
      end
  end.

Definition processRecordsInParallel (fuel : nat) (this : MdxDatabase)
    (transformModulePath : string) (pageSize chunkSize : option Z)
    (yield_ : list MdxRecord -> M World (list MdxRecord)) : M World unit :=
  let pageSize := default 10000 pageSize in
  let chunkSize := default 1000 chunkSize in
  let* pool := workerpool_pool in
  try_finally
    (fetchRecordsPaginated fuel this None (Some pageSize) (fun records =>
       let htmlRecords := html_positions 0 records in
       let* transformedRecords :=
         static_transformHtmlRecordsInParallel fuel (deref records htmlRecords)
           pool transformModulePath (Some chunkSize) in
       let* records := assign_paraphrases htmlRecords 0 transformedRecords records in
       yield_ records))
    (pool_terminate pool).

Definition transformHtmlRecordsInParallel (fuel : nat) (this : MdxDatabase)
    (transformModulePath : string) (pageSize chunkSize : option Z)
    (yield_ : list MdxRecord -> M World (list MdxRecord)) : M World unit :=
  let pageSize := default 10000 pageSize in
  let chunkSize := default 1000 chunkSize in
  let* pool := workerpool_pool in
  try_finally
    (fetchHtmlRecordsPaginated fuel this (Some pageSize) (fun htmlRecords =>
       let* transformedRecords :=
         static_transformHtmlRecordsInParallel fuel htmlRecords
           pool transformModulePath (Some chunkSize) in
       let* _ := yield_ transformedRecords in
       ret htmlRecords))
    (pool_terminate pool).

(** [for await (const x of generator) body(x)]: leaving the loop by
    [break] closes the generator (its [finally] blocks run) and the
    statement completes normally. *)
Definition for_await
    (generator : (list MdxRecord -> M World (list MdxRecord)) -> M World unit)
    (body : list MdxRecord -> M World (list MdxRecord)) : M World unit :=
  fun w =>
    match generator body w with
    | (Break, w') => (Normal tt, w')
    | r => r
    end.

(** *** The destination writer *)

(** The transaction of [insertRecords]: each record gets its kind when it
    has none ([??=], written into the record itself), then is inserted. *)
Fixpoint insert_transaction (records : list MdxRecord) (t : Table)
  : list MdxRecord * Table :=
  match records with
  | [] => ([], t)
  | record :: rest =>
      let c :=
        match content_type record with
        | Some c => c
        | None => if String.prefix "@@@LINK=" (paraphrase record)
                  then ContentType.LINK else ContentType.HTML
        end in
      let '(rest', t') :=
        insert_transaction rest
          (insert_row_values t (entry record) (paraphrase record) c) in
      (with_content_type record (Some c) :: rest', t')
  end.

(** [insertRecords]: all rows or none.  The result is the array as the
    call leaves it. *)
Definition insertRecords (this : MdxDatabase) (records : list MdxRecord)
  : M World (list MdxRecord) :=
  let* _ := store_call (EvInsert this records) in
  let* w := get in
  let '(records', t') := insert_transaction records (table this w) in
  let* _ := modify (set_table this t') in
  ret records'.

(** *** workflows.ts *)

(** [fs.existsSync(modulePath)] *)
Definition existsSync (modulePath : string) : bool :=
  bool_decide (is_Some (modules env (resolve env modulePath))).

Definition validateModuleExists (modulePath : string) : M World unit :=
  if existsSync modulePath then ret tt else throw (ModuleNotFound modulePath).

(** [options?.htmlBeforeLink], as a condition *)
Definition truthy_htmlBeforeLink (options : option TransformOptions) : bool :=
  match options with
  | Some o => default false (htmlBeforeLink o)
  | None => false
  end.

(** The body of [runTransformWorkflow] with the two sizes the generators
    take left open; the progress bar only reads the record count. *)
Definition runTransformWorkflow_sized (fuel : nat)
    (sourceDatabase targetDatabase : MdxDatabase) (transformModulePath : string)
    (options : option TransformOptions) (pageSize chunkSize : option Z)
  : M World unit :=
  let* _ := validateModuleExists transformModulePath in
  if truthy_htmlBeforeLink options then
    let* _ := getTotalRecordCount sourceDatabase (Some ContentType.HTML) in
    let* _ :=
      try_finally
        (for_await
           (transformHtmlRecordsInParallel fuel sourceDatabase transformModulePath
              pageSize chunkSize)
           (fun transformedRecords => insertRecords targetDatabase transformedRecords))
        (ret tt) in
    let* linkRecords := fetchLinkRecords sourceDatabase in
    let* _ := insertRecords targetDatabase linkRecords in
    ret tt
  else
    let* _ := getTotalRecordCount sourceDatabase None in
    try_finally
      (for_await
         (processRecordsInParallel fuel sourceDatabase transformModulePath
            pageSize chunkSize)
         (fun processedRecords => insertRecords targetDatabase processedRecords))
      (ret tt).

(** [runTransformWorkflow]: the generators are called with the module
    path only, so both sizes take their defaults. *)
Definition runTransformWorkflow (fuel : nat)
    (sourceDatabase targetDatabase : MdxDatabase) (transformModulePath : string)
    (options : option TransformOptions) : M World unit :=
  runTransformWorkflow_sized fuel sourceDatabase targetDatabase
    transformModulePath options None None.

End Program.

(** ** Vocabulary of the statements *)

(** The function a dispatch with [modulePath] calls in context [g]: the
    cached one when the context need not load, else the export of the
    module. *)
Definition dispatch_calls (env : Env) (g : WorkerContext) (modulePath : string)
    (f : TransformFn) : Prop :=
  (must_load g modulePath = false /\ transformHtml g = Some f) \/
  (must_load g modulePath = true /\
   modules env modulePath = Some (Importable (ExportFunction f))).

(** Same key, kind and sequence; the content is the image under [f]. *)
Definition transformed_by (f : TransformFn) (r r' : MdxRecord) : Prop :=
  entry r' = entry r /\ content_type r' = content_type r /\ rowid r' = rowid r /\
  f (paraphrase r) = Some (paraphrase r').

(** A context takes a sequence of dispatches, one after the other; what
    is left is the context after the last. *)
Fixpoint run_dispatches (env : Env) (tasks : list (list MdxRecord * string))
    (g : WorkerContext) : WorkerContext :=
  match tasks with
  | [] => g
  | task :: rest =>
      run_dispatches env rest (transformHtmlRecords env task.1 task.2 g).2
  end.

(** [{ ...r, paraphrase: f(r.paraphrase) }] for a function that returns. *)
Definition apply_transform (f : string -> string) (r : MdxRecord) : MdxRecord :=
  with_paraphrase r (f (paraphrase r)).

(** A function held by a context is the export of the module whose path the
    context holds. *)
Definition cache_ok (env : Env) (g : WorkerContext) : Prop :=
  forall f p, transformHtml g = Some f -> transformModulePath g = Some p ->
              modules env p = Some (Importable (ExportFunction f)).

Definition pool_ok (env : Env) (p : Pool) : Prop :=
  forall k g, workers p !! k = Some g -> cache_ok env g.

(** Events added to the trace. *)
Definition add_trace (evs : list Event) (w : World) : World :=
  {| source := source w; target := target w; pools := pools w;
     trace := trace w ++ evs |}.

(** Ascending rowid. *)
Definition rowid_le (a b : Row) : Prop := row_id a <= row_id b.

(** The rows of a table that have the kind asked for, in ascending rowid. *)
Definition matching_rows (t : Table) (contentType : option Z) : list Row :=
  order_by_rowid (filter (fun r => where_content_type contentType r) t).

(** What the interleaved pipeline does to one record: an HTML record gets
    its content transformed, any other record is passed on as it is. *)
Definition process_record (f : string -> string) (r : MdxRecord) : MdxRecord :=
  if has_type ContentType.HTML r then apply_transform f r else r.

(** The kind a record is stored with by [insertRecords]. *)
Definition stored_kind (r : MdxRecord) : Z :=
  match content_type r with
  | Some c => c
  | None => if String.prefix "@@@LINK=" (paraphrase r)
            then ContentType.LINK else ContentType.HTML
  end.

(** Row [row] stores record [r]. *)
Definition stores (r : MdxRecord) (row : Row) : Prop :=
  row_entry row = entry r /\ row_paraphrase row = paraphrase r /\
  row_content_type row = Some (stored_kind r).

(** The store never refuses a statement. *)
Definition store_reliable (env : Env) : Prop :=
  forall tr, store_fails env tr = false.

(** Strictly ascending rowid. *)
Definition rowid_lt (a b : Row) : Prop := row_id a < row_id b.

(** The rows the cursor has not reached at watermark [lastRowId]. *)
Definition rows_after (t : Table) (contentType : option Z) (lastRowId : Z) : list Row :=
  filter (fun r => lastRowId < row_id r) (matching_rows t contentType).

(** [tf] returns [f] of the content on every HTML row of the table. *)
Definition transforms_html (tf : TransformFn) (f : string -> string) (t : Table) : Prop :=
  Forall (fun r => row_content_type r = Some ContentType.HTML ->
                   tf (row_paraphrase r) = Some (f (row_paraphrase r))) t.

(** Rowids are unique and, as the store assigns them, above zero. *)
Definition well_keyed (t : Table) : Prop :=
  NoDup (row_id <$> t) /\ Forall (fun r => 0 < row_id r) t.

(** Every rowid is within the integers a JavaScript number holds without
    rounding, those from -2^53 to 2^53: the record of a row then carries
    the rowid of the row, and a template string prints it digit by digit. *)
Definition exact_rowids (t : Table) : Prop :=
  Forall (fun r => Z.abs (row_id r) <= 2 ^ 53) t.

(** The sequence number of a record is above the watermark. *)
Definition sequence_above (lastRowId : Z) (record : MdxRecord) : Prop :=
  exists id, rowid record = Some id /\ lastRowId < id.

(** Two records in ascending sequence. *)
Definition sequence_le (a b : MdxRecord) : Prop :=
  exists x y, rowid a = Some x /\ rowid b = Some y /\ x <= y.

(** The table has room for [n] more rows: the rowids they get, counted on
    from the largest of the table, stay within the 64-bit integers (past
    the largest of these, 2^63 - 1, the store draws rowids at random). *)
Definition has_room (t : Table) (n : nat) : Prop :=
  next_rowid t + Z.of_nat n <= 2 ^ 63.

(** What holds between two pages of a pass over the rows [X] that started
    in world [w]: the rows before [R] are in the destination, as [g] made
    them, and the pool of the pass is sound. *)
Definition pages_invariant (env : Env) (w : World) (X : list Row)
    (g : MdxRecord -> MdxRecord) (R : list Row) (w' : World) : Prop :=
  (exists done, X = done ++ R /\
     target w' = (insert_transaction (g <$> (to_record <$> done)) (target w)).2) /\
  (exists p, pools w' !! length (pools w) = Some p /\ pool_ok env p).

(** Row [row] of the destination is source row [src] passed through [g]. *)
Definition written_as (g : MdxRecord -> MdxRecord) (src row : Row) : Prop :=
  stores (g (to_record src)) row.

(** Every row is an HTML or a LINK record. *)
Definition known_kinds (t : Table) : Prop :=
  Forall (fun r => row_content_type r = Some ContentType.HTML \/
                   row_content_type r = Some ContentType.LINK) t.

(** The pool events of a trace. *)
Definition is_pool_event (ev : Event) : bool :=
  match ev with
  | EvPoolCreate _ | EvPoolTerminate _ => true
  | _ => false
  end.

Definition pool_events (tr : list Event) : list Event :=
  filter (fun ev => is_pool_event ev) tr.

(** Code that neither creates nor terminates a pool, however it ends. *)
Definition pool_quiet {A} (m : M World A) : Prop :=
  forall w, pool_events (trace (m w).2) = pool_events (trace w).

(** The dispatches of a trace. *)
Definition is_dispatch (ev : Event) : bool :=
  match ev with
  | EvDispatch _ _ _ => true
  | _ => false
  end.

Definition dispatches (tr : list Event) : list Event :=
  filter (fun ev => is_dispatch ev) tr.

(** The insert calls of a trace. *)
Definition is_insert (ev : Event) : bool :=
  match ev with
  | EvInsert _ _ => true
  | _ => false
  end.

Definition inserts (tr : list Event) : list Event :=
  filter (fun ev => is_insert ev) tr.

(** Code that leaves the list of pools as it is. *)
Definition pools_kept {A} (m : M World A) : Prop :=
  forall w, pools (m w).2 = pools w.

(** Code that, when it exits, has either touched no pool or created one
    pool and then terminated it. *)
Definition pool_once_or_never {A} (m : M World A) : Prop :=
  forall w,
    (m w).1 <> OutOfFuel ->
    pool_events (trace (m w).2) = pool_events (trace w) \/
    pool_events (trace (m w).2) =
      pool_events (trace w) ++
      [EvPoolCreate (length (pools w)); EvPoolTerminate (length (pools w))].

(** A module file that cannot give a transform function: the import
    fails, or the export [transformHtml] is not a function. *)
Definition malformed (file : ModuleFile) : Prop :=
  forall f, file <> Importable (ExportFunction f).




(** ** Concrete inputs *)

Module Examples.
Local Open Scope string_scope.

Definition upper_ascii (c : Ascii.ascii) : Ascii.ascii :=
  let n := Ascii.nat_of_ascii c in
  if ((97 <=? n) && (n <=? 122))%nat then Ascii.ascii_of_nat (n - 32) else c.

Fixpoint uppercase (s : string) : string :=
  match s with
  | EmptyString => EmptyString
  | String c s' => String (upper_ascii c) (uppercase s')
  end.

(** Three module files: one that exports the identity, one that exports
    [uppercase], and one whose export [transformHtml] is not a function. *)
Definition identity_js : ModuleFile := Importable (ExportFunction (fun s => Some s)).
Definition upper_js : ModuleFile :=
  Importable (ExportFunction (fun s => Some (uppercase s))).
Definition malformed_js : ModuleFile := Importable ExportOther.

(** Paths are absolute already, worker [n mod 2] takes the n-th task, and
    the store never fails. *)
Definition env : Env :=
  {| modules := fun p =>
       if String.eqb p "/identity.js" then Some identity_js
       else if String.eqb p "/upper.js" then Some upper_js
       else if String.eqb p "/malformed.js" then Some malformed_js
       else None;
     resolve := fun p => p;
     sched := fun _ n => (n mod 2)%nat;
     store_fails := fun _ => false |}.

(** The same, with a store that fails its first insert. *)
Definition env_insert_fails : Env :=
  {| modules := modules env; resolve := resolve env; sched := sched env;
     store_fails := fun tr =>
       match last tr with
       | Some (EvInsert _ _) => true
       | _ => false
       end |}.

Definition html (id : Z) (e p : string) : Row :=
  {| row_id := id; row_entry := e; row_paraphrase := p;
     row_content_type := Some ContentType.HTML |}.
Definition link (id : Z) (e p : string) : Row :=
  {| row_id := id; row_entry := e; row_paraphrase := p;
     row_content_type := Some ContentType.LINK |}.

(** a, x, b, y, c: three HTML records with two LINK records between. *)
Definition axbyc : Table :=
  [ html 1 "a" "<p>a</p>"; link 2 "x" "@@@LINK=a"; html 3 "b" "<p>b</p>";
    link 4 "y" "@@@LINK=b"; html 5 "c" "<p>c</p>" ].

Definition world (src : Table) : World :=
  {| source := src; target := []; pools := []; trace := [] |}.

Definition chunk (l : list string) : list MdxRecord :=
  (fun s => {| entry := s; paraphrase := s;
               content_type := Some ContentType.HTML; rowid := None |}) <$> l.
End Examples.

(** Tables with rowids at 0 and above 2^53, where JavaScript numbers no
    longer hold every integer. *)
Module RoundingExamples.
Local Open Scope string_scope.

(** Two HTML rows whose rowids JavaScript reads as 2^54, below both. *)
Definition ab : Table :=
  [ Examples.html (2 ^ 54 + 1) "a" "<p>a</p>";
    Examples.html (2 ^ 54 + 2) "b" "<p>b</p>" ].

(** The same, with a LINK row. *)
Definition abx : Table := (ab ++ [ Examples.link 1 "x" "@@@LINK=a" ])%list.

(** Four HTML rows; JavaScript reads the rowid of the third as 2^54,
    below the second. *)
Definition abcd : Table :=
  [ Examples.html 1 "a" "<p>a</p>";
    Examples.html (2 ^ 54 + 1) "b" "<p>b</p>";
    Examples.html (2 ^ 54 + 2) "c" "<p>c</p>";
    Examples.html (2 ^ 54 + 8) "d" "<p>d</p>" ].

(** A row with rowid 0 before a row with rowid 1. *)
Definition za : Table :=
  [ Examples.html 0 "z" "<p>z</p>"; Examples.html 1 "a" "<p>a</p>" ].

(** The watermarks the cursor takes on [ab] and [abx]. *)
Definition stuck (lastRowId : Z) : Prop := lastRowId = 0 \/ lastRowId = 2 ^ 54.
End RoundingExamples.

(** * The rest of the class and the other commands

    What the transform pipeline does not use: the statements by headword,
    the schema statements of the constructor, the registry of open
    instances, and the [debug] and [stats] commands.  Of the console the
    warnings of [fetchRecordsByEntries] are kept.  The file system refuses
    a call at the paths the session says; the look-up by headword fails
    when the environment says so, as the statements of the pipeline do, and
    when it has more parameters than the store takes.  A schema statement
    fails only when the table, the column or the connection it needs is
    not there, or when the connection is read-only. *)

(** ** Statements by headword *)

(** A JavaScript [Set] of strings: its values in insertion order.
    [set.add(value)] changes nothing when the value is in the set. *)
Definition Set_add (set : list string) (value : string) : list string :=
  if bool_decide (value ∈ set) then set else set ++ [value].

(** [new Set(values)], read back by spreading or by [has]. *)
Definition new_Set (values : list string) : list string :=
  foldl Set_add [] values.

(** [SELECT entry, paraphrase, content_type, rowid FROM mdx
     WHERE entry IN (?, ..., ?)].  The statement has no ORDER BY: the rows
    come in the order the store scans the table, which for a table without
    an index on [entry] (no statement of the program makes one) is
    ascending rowid. *)
Definition select_by_entries (t : Table) (entries : list string) : list MdxRecord :=
  to_record <$> order_by_rowid (filter (fun r => row_entry r ∈ entries) t).

(** [DELETE FROM mdx WHERE entry IN (?, ..., ?)] *)
Definition delete_by_entries (t : Table) (entries : list string) : Table :=
  filter (fun r => row_entry r ∉ entries) t.

(** The largest number of parameters the store takes in one statement
    (SQLITE_MAX_VARIABLE_NUMBER). *)
Definition max_variable_number : Z := 32766.

(** ** The main thread of a command *)

(** The world of the stores, and what the [debug] command adds to it: the
    [globalThis] of the main thread, the lines of [console.warn], the
    directories made and the files written, oldest first, and the paths at
    which the file system refuses to make a directory or to write a file
    (the directory of the file is not there, as for a file name that holds
    a slash; the path is taken by something else; the user may not write
    there). *)
Record Session := mkSession {
  world : World;
  globals : WorkerContext;
  warnings : list string;
  directories : list string;
  files : list (string * string);
  refuses : string -> bool
}.

(** Code of the transform pipeline, run in a session. *)
Definition in_world {A} (m : M World A) : M Session A :=
  fun s =>
    let '(c, w') := m (world s) in
    (c, {| world := w'; globals := globals s; warnings := warnings s;
           directories := directories s; files := files s;
           refuses := refuses s |}).

(** Code of a worker, run on the main thread. *)
Definition on_main_thread {A} (m : M WorkerContext A) : M Session A :=
  fun s =>
    let '(c, g') := m (globals s) in
    (c, {| world := world s; globals := g'; warnings := warnings s;
           directories := directories s; files := files s;
           refuses := refuses s |}).

Definition console_warn (line : string) : M Session unit :=
  modify (fun s => {| world := world s; globals := globals s;
                      warnings := warnings s ++ [line];
                      directories := directories s; files := files s;
           refuses := refuses s |}).

(** [fs.mkdirSync(dir, { recursive: true })] *)
Definition mkdirSync (dir : string) : M Session unit :=
  let* s := get in
  if refuses s dir then throw (FsError dir)
  else
    modify (fun s => {| world := world s; globals := globals s;
                        warnings := warnings s;
                        directories := directories s ++ [dir]; files := files s;
                        refuses := refuses s |}).

(** [fs.writeFileSync(filePath, content)] *)
Definition writeFileSync (filePath content : string) : M Session unit :=
  let* s := get in
  if refuses s filePath then throw (FsError filePath)
  else
    modify (fun s => {| world := world s; globals := globals s;
                        warnings := warnings s; directories := directories s;
                        files := files s ++ [(filePath, content)];
                        refuses := refuses s |}).

(** [array.forEach(f)] *)
Fixpoint forEach {S A} (f : A -> M S unit) (l : list A) : M S unit :=
  match l with
  | [] => ret tt
  | a :: l' => let* _ := f a in forEach f l'
  end.

(** An optional string as a condition: undefined and the empty string are
    falsy. *)
Definition truthy_string (s : option string) : bool :=
  match s with
  | Some (String _ _) => true
  | _ => false
  end.

(** [`${record.rowid}`]: the rowid in decimal, as JavaScript prints a
    number within 2^53 (of a larger one it prints the leading digits that
    tell it from its neighbours, then zeros), or the word for a missing
    property. *)
Definition rowid_text (record : MdxRecord) : string :=
  match rowid record with
  | Some id => pretty id
  | None => "undefined"
  end.

(** [`${record.entry}_${record.rowid}.html`] and the same with [.txt]. *)
Definition file_name (record : MdxRecord) (extension : string) : string :=
  (entry record +:+ "_" +:+ rowid_text record +:+ extension)%string.

Section Commands.
Context (env : Env) (path_join : string -> string -> string).

(** *** database.ts: [fetchRecordsByEntries] and [deleteRecords] *)

(** [prepare] refuses a statement with too many parameters; [all] runs
  it, with one parameter for each distinct entry. *)
Definition fetchRecordsByEntries (this : MdxDatabase) (entries : list string)
: M Session (list MdxRecord) :=
let uniqueEntries := new_Set entries in
let* _ := if max_variable_number <? Z.of_nat (length uniqueEntries)
          then throw SqliteError else ret tt in
let* _ := in_world (store_call env (EvQueryEntries this uniqueEntries)) in
let* s := get in
let records := select_by_entries (table this (world s)) uniqueEntries in
let foundEntries := new_Set (entry <$> records) in
let notFoundEntries := filter (fun entry => entry ∉ foundEntries) uniqueEntries in
let* _ :=
  forEach (fun entry =>
             console_warn ("warning: no record found for entry: " +:+ entry))
          notFoundEntries in
ret records.

(** [deleteRecords], for a statement the store takes (at most
  [max_variable_number] entries, no failure of the store). *)
Definition deleteRecords (this : MdxDatabase) (entries : list string)
: M World unit :=
modify (fun w => set_table this (delete_by_entries (table this w) entries) w).

(** *** database.ts: [writeRecordsToFiles] *)

Definition writeRecordsToFiles (records : list MdxRecord) (outputDir : string)
  (transformModulePath : option string) : M Session unit :=
let* _ := mkdirSync outputDir in
let '(htmlRecords, linkRecords) := splitRecordsByContentType records in
let* processedHtmlRecords :=
  if truthy_string transformModulePath
  then on_main_thread
         (transformHtmlRecords env htmlRecords
            (resolve env (default ""%string transformModulePath)))
  else ret htmlRecords in
let* _ :=
  forEach (fun record =>
             writeFileSync (path_join outputDir (file_name record ".html"))
                           (paraphrase record))
          processedHtmlRecords in
forEach (fun record =>
           writeFileSync (path_join outputDir (file_name record ".txt"))
                         (paraphrase record))
        linkRecords.

(** *** workflows.ts: the [debug] and [stats] commands *)

Definition runDebugWorkflow (database : MdxDatabase) (entries : list string)
  (outputDir : string) (transformModulePath : option string) : M Session unit :=
let* _ :=
  if truthy_string transformModulePath
  then in_world (validateModuleExists env (default ""%string transformModulePath))
  else ret tt in
let* records := fetchRecordsByEntries database entries in
if (length records =? 0)%nat then ret tt
else writeRecordsToFiles records outputDir transformModulePath.

Definition runStatsWorkflow (database : MdxDatabase) (statsModulePath : string)
: M Session unit :=
in_world (validateModuleExists env statsModulePath).

End Commands.

(** ** Database files, connections and the registry of instances *)

(** What a database file holds of table [mdx]: no such table, or its rows,
    with or without the column [content_type] (without it, the kind of a
    row is not read). *)
Inductive DbFile :=
  | NoTable
  | MdxTable (hasContentTypeColumn : bool) (rows : Table).

(** A connection of [better-sqlite3]: the file it is on ([db.name]), how
    it was opened, and whether it is open still. *)
Record Connection := mkConnection {
  conn_name : string;
  conn_readonly : bool;
  conn_open : bool
}.

(** The files by name, every connection made so far, and the static
    [MdxDatabase.instances]: a [Set], so the instances in insertion order.
    An instance of [MdxDatabase] is known by the number of its connection
    [this.db]. *)
Record Process := mkProcess {
  disk : gmap string DbFile;
  connections : list Connection;
  instances : list nat
}.

(** [Database.Options], the two that decide how a file is opened. *)
Record DatabaseOptions := mkDatabaseOptions {
  readonly : option bool;
  fileMustExist : option bool
}.

(** [interface MdxDatabaseOptions] *)
Module MdxDatabaseOptions.
Record t := mk {
  initialize : option bool;
  optimize : option bool;
  options : option DatabaseOptions
}.
End MdxDatabaseOptions.

(** An optional boolean as a condition. *)
Definition truthy (b : option bool) : bool := default false b.

Definition set_disk (d : gmap string DbFile) (s : Process) : Process :=
  {| disk := d; connections := connections s; instances := instances s |}.

Definition set_connections (cs : list Connection) (s : Process) : Process :=
  {| disk := disk s; connections := cs; instances := instances s |}.

Definition set_instances (ids : list nat) (s : Process) : Process :=
  {| disk := disk s; connections := connections s; instances := ids |}.

(** [new Database(filename, options)]: a file that is not there is made,
    empty, unless the connection is read-only or the file must exist. *)
Definition new_Database (filename : string) (options : option DatabaseOptions)
  : M Process nat :=
  let ro := truthy (options ≫= readonly) in
  let* s := get in
  let* _ :=
    match disk s !! filename with
    | Some _ => ret tt
    | None =>
        if ro || truthy (options ≫= fileMustExist) then throw SqliteError
        else modify (set_disk (<[filename := NoTable]> (disk s)))
    end in
  let* _ :=
    modify (fun s => set_connections
                       (connections s ++
                        [{| conn_name := filename; conn_readonly := ro;
                            conn_open := true |}]) s) in
  ret (length (connections s)).

(** [db.close()] *)
Definition Database_close (db : nat) : M Process unit :=
  modify (fun s => set_connections
                     (alter (fun c => {| conn_name := conn_name c;
                                         conn_readonly := conn_readonly c;
                                         conn_open := false |}) db (connections s)) s).

(** The connection behind [db.prepare(...)]: a closed one throws. *)
Definition prepare (db : nat) : M Process Connection :=
  let* s := get in
  match connections s !! db with
  | Some c => if conn_open c then ret c else throw TypeError
  | None => throw TypeError
  end.

(** A statement that writes, on connection [c]; [f] is what it does to the
    table [mdx], [None] when it cannot run on that table. *)
Definition run_write (c : Connection) (f : DbFile -> option DbFile) : M Process unit :=
  if conn_readonly c then throw SqliteError
  else
    let* s := get in
    match disk s !! conn_name c ≫= f with
    | Some file => modify (set_disk (<[conn_name c := file]> (disk s)))
    | None => throw SqliteError
    end.

(** [DROP TABLE IF EXISTS mdx] *)
Definition drop_table_if_exists (file : DbFile) : option DbFile := Some NoTable.

(** [CREATE TABLE mdx (entry TEXT NOT NULL, paraphrase TEXT NOT NULL,
     content_type INTEGER NOT NULL)] *)
Definition create_table (file : DbFile) : option DbFile :=
  match file with
  | NoTable => Some (MdxTable true [])
  | MdxTable _ _ => None
  end.

(** [PRAGMA table_info(mdx)], then
    [columns.some(column => column.name === 'content_type')]: a table that
    is not there has no columns. *)
Definition has_content_type_column (file : option DbFile) : bool :=
  match file with
  | Some (MdxTable true _) => true
  | _ => false
  end.

(** [ALTER TABLE mdx ADD COLUMN content_type INTEGER]: the new column
    holds NULL in every row. *)
Definition add_content_type_column (file : DbFile) : option DbFile :=
  match file with
  | MdxTable false rows =>
      Some (MdxTable true
              ((fun r => {| row_id := row_id r; row_entry := row_entry r;
                            row_paraphrase := row_paraphrase r;
                            row_content_type := None |}) <$> rows))
  | _ => None
  end.

(** An ASCII letter in upper case; [LIKE] does not tell the two cases of
    an ASCII letter apart. *)
Definition like_fold (c : Ascii.ascii) : Ascii.ascii :=
  let n := Ascii.nat_of_ascii c in
  if ((97 <=? n) && (n <=? 122))%nat then Ascii.ascii_of_nat (n - 32) else c.

(** [text LIKE 'pattern%'] for a pattern without wildcards. *)
Fixpoint like_prefix (pattern text : string) : bool :=
  match pattern, text with
  | EmptyString, _ => true
  | String _ _, EmptyString => false
  | String p pattern', String c text' =>
      bool_decide (like_fold p = like_fold c) && like_prefix pattern' text'
  end.

(** [UPDATE mdx SET content_type =
       CASE WHEN paraphrase LIKE '@@@LINK=%' THEN ? ELSE ? END]
    run with [ContentType.LINK] and [ContentType.HTML]. *)
Definition update_content_type (file : DbFile) : option DbFile :=
  match file with
  | MdxTable true rows =>
      Some (MdxTable true
              ((fun r => {| row_id := row_id r; row_entry := row_entry r;
                            row_paraphrase := row_paraphrase r;
                            row_content_type :=
                              Some (if like_prefix "@@@LINK=" (row_paraphrase r)
                                    then ContentType.LINK else ContentType.HTML) |})
                 <$> rows))
  | _ => None
  end.

(** [CREATE INDEX mdx_content_type_index ON mdx (content_type)]: the rows
    stay as they are. *)
Definition create_index (file : DbFile) : option DbFile :=
  match file with
  | MdxTable true rows => Some file
  | _ => None
  end.

(** *** database.ts: [initialize], [optimize], the constructor, [close],
    [closeAll] *)

Definition initialize (this : nat) : M Process unit :=
  let* c := prepare this in
  let* _ := run_write c drop_table_if_exists in
  let* c := prepare this in
  run_write c create_table.

Definition optimize (this : nat) : M Process unit :=
  let* c := prepare this in
  let* s := get in
  let hasContentTypeColumn := has_content_type_column (disk s !! conn_name c) in
  if negb hasContentTypeColumn then
    let* db := new_Database (conn_name c) None in
    let* c := prepare db in
    let* _ := run_write c add_content_type_column in
    let* c := prepare db in
    let* _ := run_write c update_content_type in
    let* c := prepare db in
    let* _ := run_write c create_index in
    Database_close db
  else ret tt.

Definition new_MdxDatabase (filename : string)
    (options : option MdxDatabaseOptions.t) : M Process nat :=
  let* this := new_Database filename (options ≫= MdxDatabaseOptions.options) in
  let* _ := modify (fun s => set_instances
                               (if bool_decide (this ∈ instances s) then instances s
                                else instances s ++ [this]) s) in
  let* _ := if truthy (options ≫= MdxDatabaseOptions.initialize)
            then initialize this else ret tt in
  let* _ := if truthy (options ≫= MdxDatabaseOptions.optimize)
            then optimize this else ret tt in
  ret this.

Definition close (this : nat) : M Process unit :=
  let* _ := Database_close this in
  modify (fun s => set_instances (filter (fun i => i <> this) (instances s)) s).

(** [for (const instance of MdxDatabase.instances) instance.close()]:
    the iterator of a [Set] walks the values that were in the set when the
    loop began and are in it still when their turn comes. *)
Fixpoint closeAll_loop (pending : list nat) : M Process unit :=
  match pending with
  | [] => ret tt
  | instance :: rest =>
      let* s := get in
      let* _ := if bool_decide (instance ∈ instances s) then close instance
                else ret tt in
      closeAll_loop rest
  end.

Definition closeAll : M Process unit :=
  let* s := get in
  closeAll_loop (instances s).

(** *** cli.ts: the databases of the [transform] command *)

Section Cli.
Context (path_join : string -> string -> string) (path_dirname : string -> string).


(** The one constructor call of the [debug] and [stats] actions. *)
Definition inspect_database (db : string) : M Process nat :=
new_MdxDatabase db
  (Some (MdxDatabaseOptions.mk None (Some true)
           (Some {| readonly := Some true; fileMustExist := None |}))).

End Cli.

(** ** Vocabulary of the further statements *)

(** Record [r] as the store gives it back when it was the [i]-th record of
    a batch whose first row got the rowid [first]: the kind and the rowid
    are read as JavaScript numbers. *)
Definition as_stored (first : Z) (i : nat) (r : MdxRecord) : MdxRecord :=
  {| entry := entry r; paraphrase := paraphrase r;
     content_type := Some (js_number (stored_kind r));
     rowid := Some (js_number (first + Z.of_nat i)) |}.

(** The records a complete run of the transform workflow hands to
    [insertRecords], in the order it does: in the HTML-first mode the HTML
    records, transformed, then the LINK records; in the default mode every
    record, the HTML ones transformed. *)
Definition copied_records (options : option TransformOptions) (f : string -> string)
    (t : Table) : list MdxRecord :=
  if truthy_htmlBeforeLink options
  then (apply_transform f <$> select_all t (Some ContentType.HTML))
       ++ select_all t (Some ContentType.LINK)
  else process_record f <$> select_all t None.

(** Every row has a kind. *)
Definition kinds_set (t : Table) : Prop :=
  Forall (fun r => is_Some (row_content_type r)) t.

(** What a row holds apart from its rowid. *)
Definition row_content (r : Row) : string * string * option Z :=
  (row_entry r, row_paraphrase r, row_content_type r).

(** The line [fetchRecordsByEntries] prints for an entry without a row. *)
Definition not_found_warning (entry : string) : string :=
  ("warning: no record found for entry: " +:+ entry)%string.

(** Lines added to the warnings of a session. *)
Definition add_warnings (lines : list string) (s : Session) : Session :=
  {| world := world s; globals := globals s; warnings := warnings s ++ lines;
     directories := directories s; files := files s;
     refuses := refuses s |}.

(** A session with another world. *)
Definition set_world (w : World) (s : Session) : Session :=
  {| world := w; globals := globals s; warnings := warnings s;
     directories := directories s; files := files s;
     refuses := refuses s |}.

(** The session after the look-up of these entries went to the store. *)
Definition queried (this : MdxDatabase) (entries : list string) (s : Session)
  : Session :=
  set_world (add_trace [EvQueryEntries this (new_Set entries)] (world s)) s.

(** The store takes the look-up of these entries: the statement has no
    more parameters than the store allows, and the store does not fail. *)
Definition lookup_answered (env : Env) (this : MdxDatabase) (entries : list string)
    (s : Session) : Prop :=
  Z.of_nat (length (new_Set entries)) <= max_variable_number /\
  store_fails env (trace (world s) ++ [EvQueryEntries this (new_Set entries)]) = false.

(** The kind [optimize] gives to a row with this content. *)
Definition optimize_kind (paraphrase : string) : Z :=
  if like_prefix "@@@LINK=" paraphrase then ContentType.LINK else ContentType.HTML.

(** A row with another kind. *)
Definition with_kind (c : option Z) (r : Row) : Row :=
  {| row_id := row_id r; row_entry := row_entry r;
     row_paraphrase := row_paraphrase r; row_content_type := c |}.

(** The rows of a table without the column, after [optimize]. *)
Definition optimized (rows : Table) : Table :=
  (fun r => with_kind (Some (optimize_kind (row_paraphrase r))) r) <$> rows.

(** A connection as [new Database] makes it. *)
Definition opened (filename : string) (ro : bool) : Connection :=
  {| conn_name := filename; conn_readonly := ro; conn_open := true |}.

(** The same connection, closed. *)
Definition closed (c : Connection) : Connection :=
  {| conn_name := conn_name c; conn_readonly := conn_readonly c; conn_open := false |}.

(** The options the commands open their input with. *)
Definition input_options : option MdxDatabaseOptions.t :=
  Some (MdxDatabaseOptions.mk None (Some true)
          (Some {| readonly := Some true; fileMustExist := None |})).

(** Code that keeps a property of the world, however it ends. *)
Definition preserves (I : World -> Prop) {A} (m : M World A) : Prop :=
  forall w, I w -> I (m w).2.

(** Every worker context of every pool has imported the module at
    [modulePath] once, has imported nothing else, and holds its function. *)
Definition loaded_once (modulePath : string) (tf : TransformFn) (w : World) : Prop :=
  forall pool p k g,
    pools w !! pool = Some p -> workers p !! k = Some g ->
    imports g = [modulePath] /\ transformHtml g = Some tf /\
    transformModulePath g = Some modulePath.

(** The file [writeRecordsToFiles] writes for a record: its path and its
    content. *)
Definition record_file (path_join : string -> string -> string)
    (outputDir extension : string) (record : MdxRecord) : string * string :=
  (path_join outputDir (file_name record extension), paraphrase record).

(** A directory made and files written, added to a session. *)
Definition add_output (dir : string) (written : list (string * string))
    (s : Session) : Session :=
  {| world := world s; globals := globals s; warnings := warnings s;
     directories := directories s ++ [dir]; files := files s ++ written;
     refuses := refuses s |}.

(** Of the files to write, in this order, those written before the first
    one the file system refuses: all of them, when it refuses none. *)
Fixpoint written_before (refuses : string -> bool)
    (outputs : list (string * string)) : list (string * string) :=
  match outputs with
  | [] => []
  | file :: rest =>
      if refuses file.1 then [] else file :: written_before refuses rest
  end.

(** The path of the first of the files to write that the file system
    refuses. *)
Fixpoint first_refused (refuses : string -> bool)
    (outputs : list (string * string)) : option string :=
  match outputs with
  | [] => None
  | file :: rest =>
      if refuses file.1 then Some file.1 else first_refused refuses rest
  end.

(** How writing these files, one after the other, ends. *)
Definition write_completion (refuses : string -> bool)
    (outputs : list (string * string)) : Completion unit :=
  match first_refused refuses outputs with
  | None => Normal tt
  | Some path => Throw (FsError path)
  end.

(** A session with another [globalThis]. *)
Definition set_globals (g : WorkerContext) (s : Session) : Session :=
  {| world := world s; globals := g; warnings := warnings s;
     directories := directories s; files := files s;
     refuses := refuses s |}.

(** The warnings [fetchRecordsByEntries] prints for these entries on this
    table. *)
Definition not_found_warnings (t : Table) (entries : list string) : list string :=
  not_found_warning <$>
    filter (fun e => e ∉ entry <$> select_by_entries t entries) (new_Set entries).

(** ** Concrete inputs of the further statements *)

Module DebugExamples.
Local Open Scope string_scope.

(** Joining with a slash, for paths that need no normalising. *)
Definition join (dir name : string) : string := dir +:+ "/" +:+ name.

(** A session on a source table: nothing printed, made, written or
    loaded yet. *)
Definition session (t : Table) : Session :=
  {| world := Examples.world t; globals := fresh_context; warnings := [];
     directories := []; files := []; refuses := fun _ => false |}.

(** The same session on a file system that refuses one path. *)
Definition session_refusing (path : string) (t : Table) : Session :=
  {| world := Examples.world t; globals := fresh_context; warnings := [];
     directories := []; files := []; refuses := String.eqb path |}.

(** Three rows; the entry of the second holds a slash. *)
Definition slash : Table :=
  [ Examples.html 1 "a" "<p>a</p>"; Examples.html 2 "b/c" "<p>bc</p>";
    Examples.link 3 "x" "@@@LINK=a" ].

(** A module whose function throws on every content. *)
Definition env_throwing : Env :=
  {| modules := fun p => if String.eqb p "/throws.js"
                         then Some (Importable (ExportFunction (fun _ => None)))
                         else modules Examples.env p;
     resolve := resolve Examples.env; sched := sched Examples.env;
     store_fails := store_fails Examples.env |}.
End DebugExamples.

(** The function a sound context calls for the module at [modulePath]: the
    export of the module, when it is a function.  A content on which it
    throws is never handed on; it is taken as it is. *)
Definition module_function (env : Env) (modulePath : string) : string -> string :=
  match modules env modulePath with
  | Some (Importable (ExportFunction tf)) => fun s => default s (tf s)
  | _ => fun s => s
  end.

(** What holds at every point of a pass over the rows [X] that started in
    world [w]: the source is as it was, the pools made since are sound, and
    the destination holds the rows before [R], as [g] made them. *)
Definition pass_invariant (env : Env) (w : World) (X : list Row)
    (g : MdxRecord -> MdxRecord) (R : list Row) (w' : World) : Prop :=
  source w' = source w /\
  Forall (pool_ok env) (drop (length (pools w)) (pools w')) /\
  exists done, X = done ++ R /\
    target w' = (insert_transaction (g <$> (to_record <$> done)) (target w)).2.

(** Code of a page that leaves the stores as they are and keeps the pools
    made since [n] sound, however it ends, and that does not end by
    leaving a loop. *)
Definition page_quiet (env : Env) (n : nat) {A} (m : M World A) : Prop :=
  forall w, Forall (pool_ok env) (drop n (pools w)) ->
    source (m w).2 = source w /\ target (m w).2 = target w /\
    Forall (pool_ok env) (drop n (pools (m w).2)) /\
    (m w).1 <> Break.

Module CrashExamples.
(** The environment of the examples with a store that fails its second
    insert. *)
Definition env_second_insert_fails : Env :=
  {| modules := modules Examples.env; resolve := resolve Examples.env;
     sched := sched Examples.env;
     store_fails := fun tr =>
       match last tr with
       | Some (EvInsert _ _) => bool_decide (length (inserts tr) = 2%nat)
       | _ => false
       end |}.
End CrashExamples.



(** * Properties *)

(** ** Numbers read from the store *)

(** An integer up to 2^53 is a JavaScript number. *)
Lemma js_number_exact (z : Z) : Z.abs z <= 2 ^ 53 -> js_number z = z.
Proof.
  intros Hz. unfold js_number.
  destruct (Z.leb_spec (Z.log2 (Z.abs z) - 52) 0) as [_|He]; [done|].
  assert (Z.abs z = 2 ^ 53) as Ha.
  { destruct (decide (Z.abs z = 2 ^ 53)) as [|Hne]; [done|]. exfalso.
    assert (Z.log2 (Z.abs z) < 53); [|lia].
    destruct (decide (Z.abs z = 0)) as [->|]; [done|].
    apply Z.log2_lt_pow2; lia. }
  clear He. assert (z = 2 ^ 53 \/ z = - 2 ^ 53) as [->| ->] by lia; by vm_compute.
Qed.

(** A longer integer stays a long one. *)
Lemma js_number_large (z : Z) : 2 ^ 53 <= Z.abs z -> 2 ^ 53 <= Z.abs (js_number z).
Proof.
  intros Hz. unfold js_number.
  destruct (Z.leb_spec (Z.log2 (Z.abs z) - 52) 0) as [_|He]; [done|].
  set (a := Z.abs z) in *. set (e := Z.log2 a - 52) in *.
  set (q := Z.shiftr a e).
  assert (2 ^ 52 <= q) as Hq.
  { unfold q. rewrite Z.shiftr_div_pow2 by lia.
    apply Z.div_le_lower_bound; [apply Z.pow_pos_nonneg; lia|].
    rewrite <- Z.pow_add_r by lia.
    replace (e + 52) with (Z.log2 a) by (unfold e; lia).
    apply Z.log2_spec. lia. }
  match goal with
  | |- context [Z.shiftl (if ?b then q + 1 else q) e] =>
      set (q' := if b then q + 1 else q);
      assert (q <= q') as Hq' by (unfold q'; destruct b; lia)
  end.
  rewrite Z.abs_mul, Z.shiftl_mul_pow2 by lia.
  assert (Z.abs (Z.sgn z) = 1) as -> by (unfold a in Hz; lia).
  assert (2 ^ 1 <= 2 ^ e) by (apply Z.pow_le_mono_r; lia).
  rewrite Z.abs_eq by (apply Z.mul_nonneg_nonneg; lia).
  rewrite Z.mul_1_l. change (2 ^ 53) with (2 ^ 52 * 2 ^ 1). apply Z.mul_le_mono_nonneg; lia.
Qed.

(** A number of less than 54 bits is read of that integer only. *)
Lemma js_number_eq_small (z c : Z) : Z.abs c < 2 ^ 53 -> js_number z = c <-> z = c.
Proof.
  intros Hc. destruct (Z.le_gt_cases (Z.abs z) (2 ^ 53)) as [Hz|Hz].
  - by rewrite js_number_exact.
  - pose proof (js_number_large z ltac:(lia)). split; intros Heq; [|subst; lia].
    rewrite Heq in *. lia.
Qed.

Lemma exact_rowids_elem_of (t : Table) (r : Row) :
  exact_rowids t -> r ∈ t -> js_number (row_id r) = row_id r.
Proof.
  intros Ht Hr. unfold exact_rowids in Ht. rewrite Forall_forall in Ht.
  by apply js_number_exact, Ht.
Qed.

(** The record of a row with an exact rowid carries that rowid. *)
Lemma rowid_to_record (t : Table) (r : Row) :
  exact_rowids t -> r ∈ t -> rowid (to_record r) = Some (row_id r).
Proof. intros Ht Hr. simpl. by rewrite (exact_rowids_elem_of t). Qed.

(** The kind of a record is HTML or LINK exactly when the kind of its row
    is. *)
Lemma content_type_to_record (r : Row) (c : Z) :
  Z.abs c < 2 ^ 53 ->
  content_type (to_record r) = Some c <-> row_content_type r = Some c.
Proof.
  intros Hc. simpl. destruct (row_content_type r) as [c'|]; simpl; [|done].
  split; intros [= Heq]; f_equal; by apply (js_number_eq_small c' c Hc).
Qed.

(** [simpl] leaves [list_fmap] where the statements have [<$>]. *)
Ltac refold_fmap :=
  repeat match goal with
         | |- context [list_fmap ?A ?B ?f ?l] =>
             change (list_fmap A B f l) with (fmap (M:=list) f l)
         | H : context [list_fmap ?A ?B ?f ?l] |- _ =>
             change (list_fmap A B f l) with (fmap (M:=list) f l) in H
         end.

(** ** The content partitioner *)

Lemma splitRecordsByContentType_loop_filter records html link :
  splitRecordsByContentType_loop records (html, link) =
  (html ++ filter (fun r => has_type ContentType.HTML r) records,
   link ++ filter (fun r => has_type ContentType.LINK r) records).
Proof.
  revert html link.
  induction records as [|record rest IH]; intros html link; simpl.
  - by rewrite !app_nil_r.
  - rewrite !filter_cons.
    destruct (has_type ContentType.HTML record) eqn:Hh.
    + assert (has_type ContentType.LINK record = false) as Hl.
      { unfold has_type in *. destruct (content_type record); [|done].
        apply Z.eqb_eq in Hh. subst. done. }
      rewrite IH. simpl. rewrite Hl. simpl.
      destruct (decide True); [|done].
      destruct (decide False); [done|].
      by rewrite <- app_assoc.
    + destruct (has_type ContentType.LINK record) eqn:Hl; rewrite IH; simpl.
      * destruct (decide False); [done|]. destruct (decide True); [|done].
        by rewrite <- app_assoc.
      * destruct (decide False); [done|]. done.
Qed.

(** C10.  [splitRecordsByContentType] returns the HTML records and the LINK
    records, each in the relative order of the input; a record whose
    [content_type] is neither HTML nor LINK is in neither array, so the two
    arrays cover the input exactly when every record has one of the two
    kinds. *)
Theorem splitRecordsByContentType_drops_unknown_kinds (records : list MdxRecord) :
  let result := splitRecordsByContentType records in
  result.1 = filter (fun r => has_type ContentType.HTML r) records /\
  result.2 = filter (fun r => has_type ContentType.LINK r) records /\
  sublist result.1 records /\ sublist result.2 records /\
  (forall record, record ∈ records ->
     has_type ContentType.HTML record = false ->
     has_type ContentType.LINK record = false ->
     (record ∉ result.1) /\ (record ∉ result.2)) /\
  ((length result.1 + length result.2 = length records)%nat <->
   Forall (fun r => has_type ContentType.HTML r || has_type ContentType.LINK r) records).
Proof.
  intros result. subst result. unfold splitRecordsByContentType.
  rewrite splitRecordsByContentType_loop_filter. simpl.
  split; [done|]. split; [done|].
  split; [apply sublist_filter|]. split; [apply sublist_filter|].
  split.
  - intros record _ Hh Hl. split; intros Hin; apply list_elem_of_filter in Hin as [Hin _].
    + rewrite Hh in Hin. done.
    + rewrite Hl in Hin. done.
  - induction records as [|record rest IH]; simpl.
    + split; [constructor|done].
    + rewrite !filter_cons, Forall_cons.
      pose proof (length_filter (fun r => has_type ContentType.HTML r) rest).
      pose proof (length_filter (fun r => has_type ContentType.LINK r) rest).
      assert (has_type ContentType.HTML record = true ->
              has_type ContentType.LINK record = false) as Hex.
      { unfold has_type. destruct (content_type record); [|done].
        intros ->%Z.eqb_eq. done. }
      destruct (has_type ContentType.HTML record) eqn:Hh;
        destruct (has_type ContentType.LINK record) eqn:Hl; simpl;
        try (specialize (Hex eq_refl); done);
        repeat (destruct (decide _) as [?|?]; try done; try tauto); simpl.
      * rewrite <- IH. split; [intros; split; [done|lia] | intros [_ ?]; lia].
      * rewrite <- IH. split; [intros; split; [done|lia] | intros [_ ?]; lia].
      * split; [|intros [[] _]].
        intros Hlen.
        assert (length (filter (fun r => has_type ContentType.HTML r) rest)
                + length (filter (fun r => has_type ContentType.LINK r) rest)
                <= length rest)%nat; [|lia].
        clear. induction rest as [|r rest IH]; simpl; [done|].
        rewrite !filter_cons.
        assert (has_type ContentType.HTML r = true ->
                has_type ContentType.LINK r = false) as Hex.
        { unfold has_type. destruct (content_type r); [|done].
          intros ->%Z.eqb_eq. done. }
        destruct (has_type ContentType.HTML r) eqn:Hh;
          destruct (has_type ContentType.LINK r) eqn:Hl; simpl;
          try (specialize (Hex eq_refl); done);
          repeat (destruct (decide _) as [?|?]; try done; try tauto); simpl; lia.
Qed.

(** ** The function a worker runs *)

Lemma map_M_transform_record records g f :
  transformHtml g = Some f ->
  Forall (fun r => is_Some (f (paraphrase r))) records ->
  exists out, map_M transform_record records g = (Normal out, g) /\
              Forall2 (transformed_by f) records out.
Proof.
  intros Hf. induction 1 as [|r rest [p Hp] _ [out [IH1 IH2]]]; simpl.
  - exists []. split; [done|constructor].
  - exists (with_paraphrase r p :: out). split.
    + unfold bind at 1. unfold transform_record at 1. unfold bind at 1.
      simpl. rewrite Hf, Hp. simpl. unfold bind at 1. rewrite IH1. done.
    + constructor; [|done]. by repeat split.
Qed.

(** C9.  Whatever function [f] a dispatch calls, if [f] returns on the
    content of every record of the chunk then the dispatch returns a chunk
    of the same length in which the i-th record has the key, kind and
    sequence of the i-th input record and [f] of its content. *)
Theorem transformHtmlRecords_changes_content_only (env : Env)
    (records : list MdxRecord) (modulePath : string) (g : WorkerContext)
    (f : TransformFn) :
  dispatch_calls env g modulePath f ->
  Forall (fun r => is_Some (f (paraphrase r))) records ->
  exists out g',
    transformHtmlRecords env records modulePath g = (Normal out, g') /\
    length out = length records /\
    Forall2 (transformed_by f) records out.
Proof.
  intros Hcalls Hall. unfold transformHtmlRecords.
  destruct Hcalls as [[Hload Hf] | [Hload Hmod]].
  - destruct (map_M_transform_record records g f Hf Hall) as [out [Hrun Hrel]].
    exists out, g. unfold bind, get. rewrite Hload. simpl. rewrite Hrun.
    split; [done|]. split; [|done]. symmetry. by eapply Forall2_length.
  - set (g' := {| transformHtml := Some f; transformModulePath := Some modulePath;
                  imports := imports g ++ [modulePath] |}).
    destruct (map_M_transform_record records g' f eq_refl Hall) as [out [Hrun Hrel]].
    exists out, g'. unfold bind, get, import_, bind, modify. rewrite Hload. simpl.
    rewrite Hmod. simpl. fold g'. rewrite Hrun.
    split; [done|]. split; [|done]. symmetry. by eapply Forall2_length.
Qed.

Lemma map_M_transform_record_context records g :
  (map_M transform_record records g).2 = g.
Proof.
  induction records as [|r rest IH]; simpl; [done|].
  unfold bind at 1. unfold transform_record at 1. unfold bind at 1. simpl.
  destruct (transformHtml g) as [f|]; simpl; [|done].
  destruct (f (paraphrase r)); simpl; [|done].
  unfold bind at 1. destruct (map_M transform_record rest g) as [[]]; simpl in *; done.
Qed.

Lemma transformHtmlRecords_cached env records modulePath g :
  must_load g modulePath = false ->
  (transformHtmlRecords env records modulePath g).2 = g.
Proof.
  intros Hload. unfold transformHtmlRecords, bind, get. rewrite Hload. simpl.
  apply map_M_transform_record_context.
Qed.

Lemma transformHtmlRecords_loads env records modulePath g f :
  must_load g modulePath = true ->
  modules env modulePath = Some (Importable (ExportFunction f)) ->
  (transformHtmlRecords env records modulePath g).2 =
  {| transformHtml := Some f; transformModulePath := Some modulePath;
     imports := imports g ++ [modulePath] |}.
Proof.
  intros Hload Hmod.
  unfold transformHtmlRecords, bind, get, import_, bind, modify.
  rewrite Hload. simpl. rewrite Hmod. simpl.
  apply map_M_transform_record_context.
Qed.

Lemma run_dispatches_cached env modulePath chunks g :
  must_load g modulePath = false ->
  run_dispatches env ((fun c => (c, modulePath)) <$> chunks) g = g.
Proof.
  intros Hload. induction chunks as [|c rest IH]; simpl; [done|].
  by rewrite transformHtmlRecords_cached.
Qed.

(** C8, as the code has it.  A context that must load [modulePath] (it has
    no function yet, or the last path it loaded is another one) imports the
    module on the first dispatch carrying that path and keeps the function;
    the dispatches with the same path that follow it directly import
    nothing.  The cache is the single pair of [globalThis] slots. *)
Theorem worker_cache_holds_last_loaded_path (env : Env) (modulePath : string)
    (f : TransformFn) (chunks : list (list MdxRecord)) (g : WorkerContext) :
  modules env modulePath = Some (Importable (ExportFunction f)) ->
  must_load g modulePath = true ->
  chunks <> [] ->
  let g' := run_dispatches env ((fun c => (c, modulePath)) <$> chunks) g in
  imports g' = imports g ++ [modulePath] /\
  transformHtml g' = Some f /\
  transformModulePath g' = Some modulePath.
Proof.
  intros Hmod Hload Hne. destruct chunks as [|c rest]; [done|]. simpl.
  rewrite (transformHtmlRecords_loads env c modulePath g f Hload Hmod).
  rewrite run_dispatches_cached; [done|].
  unfold must_load. simpl. by rewrite bool_decide_true.
Qed.

Lemma worker_cache_holds_last_loaded_path_witness :
  let g' := run_dispatches Examples.env
              [(Examples.chunk ["ab"; "cd"], "/upper.js"); (Examples.chunk ["ef"], "/upper.js")]%string
              fresh_context in
  imports g' = ["/upper.js"]%string /\
  transformHtml g' = Some (fun s => Some (Examples.uppercase s)) /\
  transformModulePath g' = Some "/upper.js"%string.
Proof.
  exact (worker_cache_holds_last_loaded_path Examples.env "/upper.js"
           (fun s => Some (Examples.uppercase s))
           [Examples.chunk ["ab"; "cd"]; Examples.chunk ["ef"]]%string fresh_context
           eq_refl eq_refl ltac:(discriminate)).
Defined.

(** C8, as stated, fails: the path is not a key of the cache.  After
    dispatches with /identity.js, /upper.js and /identity.js again, the
    context has imported /identity.js twice. *)
Lemma worker_cache_reloads_after_other_path :
  imports
    (run_dispatches Examples.env
       [([], "/identity.js"); ([], "/upper.js"); ([], "/identity.js")]%string
       fresh_context)
  = ["/identity.js"; "/upper.js"; "/identity.js"]%string.
Proof. reflexivity. Qed.

(** ** The chunk scheduler *)

Lemma slice_in_range {A} (l : list A) (i c : Z) :
  0 <= i -> 0 < c ->
  slice l i (i + c) = take (Z.to_nat c) (drop (Z.to_nat i) l).
Proof.
  intros Hi Hc. unfold slice.
  destruct (Z.ltb_spec i 0); [lia|].
  destruct (Z.ltb_spec (i + c) 0); [lia|].
  destruct (Z.le_gt_cases (Z.of_nat (length l)) i) as [Hge|Hlt].
  - rewrite (drop_ge l (Z.to_nat i)) by lia.
    rewrite Z.min_r by lia. rewrite drop_ge by lia. by rewrite !take_nil.
  - rewrite (Z.min_l i) by lia.
    destruct (Z.le_gt_cases (i + c) (Z.of_nat (length l))).
    + rewrite Z.min_l by lia. f_equal. lia.
    + rewrite Z.min_r by lia.
      rewrite !take_ge; [done| |]; rewrite length_drop; lia.
Qed.

Lemma chunk_loop_spec (htmlRecords : list MdxRecord) (chunkSize : Z) :
  0 < chunkSize ->
  forall fuel i chunks,
    0 <= i ->
    (length (drop (Z.to_nat i) htmlRecords) <= fuel)%nat ->
    exists cs,
      chunk_loop fuel htmlRecords chunkSize i chunks = Some (chunks ++ cs) /\
      concat cs = drop (Z.to_nat i) htmlRecords /\
      Forall (fun c => (0 < length c)%nat /\ Z.of_nat (length c) <= chunkSize) cs.
Proof.
  intros Hc. induction fuel as [|fuel IH]; intros i chunks Hi Hfuel.
  - exists []. rewrite length_drop in Hfuel. simpl.
    destruct (Z.ltb_spec i (Z.of_nat (length htmlRecords))); [lia|].
    rewrite app_nil_r, drop_ge by lia. done.
  - simpl. destruct (Z.ltb_spec i (Z.of_nat (length htmlRecords))) as [Hlt|Hge].
    + destruct (IH (i + chunkSize) (chunks ++ [slice htmlRecords i (i + chunkSize)]))
        as [cs [Hrun [Hcat Hall]]]; [lia| |].
      { rewrite length_drop in *. lia. }
      exists (slice htmlRecords i (i + chunkSize) :: cs).
      rewrite Hrun, <- app_assoc. split; [done|].
      rewrite slice_in_range by lia. split.
      * simpl. rewrite Hcat.
        replace (Z.to_nat (i + chunkSize)) with (Z.to_nat i + Z.to_nat chunkSize)%nat by lia.
        rewrite <- drop_drop. apply take_drop.
      * constructor; [|done]. rewrite length_take, length_drop. lia.
    + exists []. rewrite app_nil_r, drop_ge by lia. done.
Qed.

Lemma chunk_loop_diverges (htmlRecords : list MdxRecord) (chunkSize : Z) :
  chunkSize <= 0 ->
  forall fuel i chunks,
    i < Z.of_nat (length htmlRecords) ->
    chunk_loop fuel htmlRecords chunkSize i chunks = None.
Proof.
  intros Hc. induction fuel as [|fuel IH]; intros i chunks Hi; simpl;
    destruct (Z.ltb_spec i (Z.of_nat (length htmlRecords))); try lia; [done|].
  apply IH. lia.
Qed.

(** *** Dispatching and awaiting *)

Lemma add_trace_nil w : add_trace [] w = w.
Proof. destruct w. unfold add_trace. simpl. by rewrite app_nil_r. Qed.

Lemma add_trace_app evs1 evs2 w :
  add_trace evs2 (add_trace evs1 w) = add_trace (evs1 ++ evs2) w.
Proof. unfold add_trace. simpl. by rewrite app_assoc. Qed.

Lemma log_run ev w : log ev w = (Normal tt, add_trace [ev] w).
Proof. done. Qed.

Lemma map_M_pool_exec pool modulePath (chunks : list (list MdxRecord)) w :
  map_M (fun chunk => pool_exec pool chunk modulePath) chunks w =
  (Normal ((fun c => (c, modulePath)) <$> chunks),
   add_trace ((fun c => EvDispatch pool c modulePath) <$> chunks) w).
Proof.
  revert w. induction chunks as [|c rest IH]; intros w; simpl.
  - unfold ret. by rewrite add_trace_nil.
  - unfold bind at 1. unfold pool_exec at 1. unfold bind at 1. rewrite log_run.
    unfold ret at 1. unfold bind at 1. rewrite IH. unfold ret.
    by rewrite add_trace_app.
Qed.

Lemma map_M_transform_record_total (records : list MdxRecord) g tf f :
  transformHtml g = Some tf ->
  Forall (fun r => tf (paraphrase r) = Some (f (paraphrase r))) records ->
  map_M transform_record records g = (Normal (apply_transform f <$> records), g).
Proof.
  intros Hf. induction 1 as [|r rest Hr _ IH]; simpl; [done|].
  unfold bind at 1. unfold transform_record at 1. unfold bind at 1.
  simpl. rewrite Hf, Hr. simpl. unfold bind at 1. rewrite IH. done.
Qed.

Lemma transformHtmlRecords_total env (records : list MdxRecord) modulePath g tf f :
  cache_ok env g ->
  modules env modulePath = Some (Importable (ExportFunction tf)) ->
  Forall (fun r => tf (paraphrase r) = Some (f (paraphrase r))) records ->
  exists g',
    transformHtmlRecords env records modulePath g
      = (Normal (apply_transform f <$> records), g') /\
    cache_ok env g'.
Proof.
  intros Hok Hmod Hall. unfold transformHtmlRecords.
  destruct (must_load g modulePath) eqn:Hload.
  - set (g' := {| transformHtml := Some tf; transformModulePath := Some modulePath;
                  imports := imports g ++ [modulePath] |}).
    exists g'. unfold bind, get, import_, bind, modify. rewrite Hload. simpl.
    rewrite Hmod. simpl. fold g'.
    rewrite (map_M_transform_record_total records g' tf f eq_refl Hall).
    split; [done|]. intros f' p' Hf' Hp'. simpl in *. congruence.
  - exists g. unfold bind, get. rewrite Hload. simpl.
    unfold must_load in Hload. destruct (transformHtml g) as [tf'|] eqn:Hg; [|done].
    apply negb_false_iff, bool_decide_eq_true in Hload.
    pose proof (Hok tf' modulePath Hg Hload) as Hmod'.
    assert (tf' = tf) as -> by congruence.
    rewrite (map_M_transform_record_total records g tf f Hg Hall). done.
Qed.

Lemma Promise_all_total env pool modulePath tf f (chunks : list (list MdxRecord)) :
  modules env modulePath = Some (Importable (ExportFunction tf)) ->
  Forall (fun r => tf (paraphrase r) = Some (f (paraphrase r))) (concat chunks) ->
  forall w p,
    pools w !! pool = Some p -> pool_ok env p ->
    exists p',
      Promise_all env pool (fmap (M:=list) (fun c => (c, modulePath)) chunks) w
        = (Normal (fmap (M:=list) (fmap (M:=list) (apply_transform f)) chunks),
           set_pools (<[pool := p']> (pools w)) w) /\
      pool_ok env p'.
Proof.
  intros Hmod. unfold Promise_all.
  induction chunks as [|c rest IH]; intros Hall w p Hp Hok; simpl.
  - exists p. rewrite list_insert_id by done. destruct w. done.
  - simpl in Hall. apply Forall_app in Hall as [Hc Hrest].
    set (k := sched env pool (dispatched p)).
    set (ctx := default fresh_context (workers p !! k)).
    assert (cache_ok env ctx) as Hctx.
    { unfold ctx. destruct (workers p !! k) as [g|] eqn:Hk; simpl.
      - by eapply Hok.
      - intros ? ? ?. done. }
    destruct (transformHtmlRecords_total env c modulePath ctx tf f Hctx Hmod Hc)
      as [ctx' [Hrun Hctx']].
    set (p1 := {| workers := <[k := ctx']> (workers p); dispatched := S (dispatched p) |}).
    set (w1 := set_pools (<[pool := p1]> (pools w)) w).
    assert (pools w1 !! pool = Some p1) as Hp1.
    { unfold w1. simpl. apply list_lookup_insert_eq. by eapply lookup_lt_Some. }
    assert (pool_ok env p1) as Hok1.
    { intros k' g Hk'. unfold p1 in Hk'. simpl in Hk'.
      destruct (decide (k = k')) as [<-|Hne].
      - rewrite lookup_insert_eq in Hk'. by inversion Hk'; subst.
      - rewrite lookup_insert_ne in Hk' by done. by eapply Hok. }
    destruct (IH Hrest w1 p1 Hp1 Hok1) as [p' [Hrun' Hok']].
    exists p'. split; [|done].
    unfold bind at 1. unfold run_task at 1. rewrite Hp. simpl.
    fold k. fold ctx. rewrite Hrun. fold p1. fold w1.
    unfold bind at 1. unfold fmap in Hrun'. rewrite Hrun'. unfold ret. f_equal.
    unfold w1, set_pools. simpl. by rewrite list_insert_insert_eq.
Qed.

(** The chunk scheduler on a page, with what it leaves of the world. *)
Lemma static_transformHtmlRecordsInParallel_total env fuel
    (htmlRecords : list MdxRecord) pool transformModulePath chunkSize tf f w p :
  0 < chunkSize ->
  (length htmlRecords <= fuel)%nat ->
  pools w !! pool = Some p -> pool_ok env p ->
  modules env (resolve env transformModulePath) = Some (Importable (ExportFunction tf)) ->
  Forall (fun r => tf (paraphrase r) = Some (f (paraphrase r))) htmlRecords ->
  exists chunks p',
    static_transformHtmlRecordsInParallel env fuel htmlRecords pool
      transformModulePath (Some chunkSize) w
    = (Normal (apply_transform f <$> htmlRecords),
       set_pools (<[pool := p']> (pools w))
         (add_trace ((fun c => EvDispatch pool c (resolve env transformModulePath))
                       <$> chunks) w)) /\
    pool_ok env p' /\
    concat chunks = htmlRecords /\
    Forall (fun c => (0 < length c)%nat /\ Z.of_nat (length c) <= chunkSize) chunks.
Proof.
  intros Hc Hfuel Hp Hok Hmod Hall.
  destruct (chunk_loop_spec htmlRecords chunkSize Hc fuel 0 []) as [cs [Hrun [Hcat Hcs]]];
    [lia| by rewrite drop_0 |].
  simpl in Hrun, Hcat. rewrite drop_0 in Hcat.
  set (modulePath := resolve env transformModulePath) in *.
  set (w1 := add_trace ((fun c => EvDispatch pool c modulePath) <$> cs) w).
  destruct (Promise_all_total env pool modulePath tf f cs Hmod
              ltac:(by rewrite Hcat) w1 p Hp Hok) as [p' [Hawait Hok']].
  exists cs, p'. split; [|done].
  unfold static_transformHtmlRecordsInParallel. simpl. rewrite Hrun.
  unfold bind at 1. fold modulePath. rewrite map_M_pool_exec. fold w1.
  unfold bind at 1. rewrite Hawait. unfold ret. f_equal. f_equal.
  rewrite <- Hcat. clear. induction cs as [|c cs IH]; simpl; [done|].
  rewrite fmap_app. f_equal. apply IH.
Qed.

Lemma pool_ok_fresh env : pool_ok env fresh_pool.
Proof. intros k g Hk. unfold fresh_pool in Hk. simpl in Hk. by rewrite lookup_empty in Hk. Qed.

(** C4.  With a chunk size above zero (and fuel for the splitting loop),
    the chunk scheduler cuts the records into consecutive non-empty chunks
    of at most [chunkSize] records, hands every chunk to the pool in that
    order, and returns the transformed records in the order of the input:
    the i-th result is the i-th input with its content transformed,
    whichever worker took which chunk. *)
Theorem chunk_scheduler_keeps_length_and_order (env : Env) (fuel : nat)
    (htmlRecords : list MdxRecord) (pool : nat) (transformModulePath : string)
    (chunkSize : Z) (tf : TransformFn) (f : string -> string) (w : World) (p : Pool) :
  0 < chunkSize ->
  (length htmlRecords <= fuel)%nat ->
  pools w !! pool = Some p -> pool_ok env p ->
  modules env (resolve env transformModulePath) = Some (Importable (ExportFunction tf)) ->
  Forall (fun r => tf (paraphrase r) = Some (f (paraphrase r))) htmlRecords ->
  exists (chunks : list (list MdxRecord)) (w' : World),
    static_transformHtmlRecordsInParallel env fuel htmlRecords pool
      transformModulePath (Some chunkSize) w
    = (Normal (apply_transform f <$> htmlRecords), w') /\
    length (apply_transform f <$> htmlRecords) = length htmlRecords /\
    concat chunks = htmlRecords /\
    Forall (fun c => (0 < length c)%nat /\ Z.of_nat (length c) <= chunkSize) chunks /\
    trace w' = trace w ++
               ((fun c => EvDispatch pool c (resolve env transformModulePath)) <$> chunks).
Proof.
  intros Hc Hfuel Hp Hok Hmod Hall.
  destruct (static_transformHtmlRecordsInParallel_total env fuel htmlRecords pool
              transformModulePath chunkSize tf f w p Hc Hfuel Hp Hok Hmod Hall)
    as [chunks [p' [Hrun [_ [Hcat Hsizes]]]]].
  eexists chunks, _. split; [exact Hrun|].
  split; [apply length_fmap|]. split; [done|]. split; [done|]. done.
Qed.

Lemma chunk_scheduler_keeps_length_and_order_witness :
  let w := {| source := []; target := []; pools := [fresh_pool]; trace := [] |} in
  let input := Examples.chunk ["ab"; "cd"; "ef"]%string in
  (exists (chunks : list (list MdxRecord)) (w' : World),
     static_transformHtmlRecordsInParallel Examples.env 3 input 0 "/upper.js" (Some 1) w
     = (Normal (apply_transform Examples.uppercase <$> input), w') /\
     length (apply_transform Examples.uppercase <$> input) = length input /\
     concat chunks = input /\
     Forall (fun c => (0 < length c)%nat /\ Z.of_nat (length c) <= 1) chunks /\
     trace w' = trace w ++ ((fun c => EvDispatch 0 c "/upper.js") <$> chunks)) /\
  paraphrase <$> (apply_transform Examples.uppercase <$> input) = ["AB"; "CD"; "EF"]%string.
Proof.
  split; [|reflexivity].
  apply (chunk_scheduler_keeps_length_and_order Examples.env 3
           (Examples.chunk ["ab"; "cd"; "ef"]%string) 0 "/upper.js" 1
           (fun s => Some (Examples.uppercase s)) Examples.uppercase
           {| source := []; target := []; pools := [fresh_pool]; trace := [] |}
           fresh_pool).
  - reflexivity.
  - simpl. lia.
  - reflexivity.
  - apply pool_ok_fresh.
  - reflexivity.
  - repeat constructor.
Defined.

(** ** The store *)

Lemma insert_row_perm r l : insert_row r l ≡ₚ r :: l.
Proof.
  induction l as [|r' l IH]; simpl; [done|].
  destruct (row_id r <=? row_id r'); [done|].
  rewrite IH. apply Permutation_swap.
Qed.

Lemma order_by_rowid_perm l : order_by_rowid l ≡ₚ l.
Proof.
  induction l as [|r l IH]; simpl; [done|].
  by rewrite insert_row_perm, IH.
Qed.

Lemma insert_row_sorted r l :
  StronglySorted rowid_le l -> StronglySorted rowid_le (insert_row r l).
Proof.
  induction 1 as [|r' l Hs IH Hall]; simpl.
  - repeat constructor.
  - destruct (Z.leb_spec (row_id r) (row_id r')).
    + constructor; [by constructor|]. constructor; [done|].
      eapply Forall_impl; [exact Hall|]. unfold rowid_le. intros; simpl in *; lia.
    + constructor; [done|]. rewrite insert_row_perm. constructor; [|done].
      unfold rowid_le. lia.
Qed.

Lemma order_by_rowid_sorted l : StronglySorted rowid_le (order_by_rowid l).
Proof.
  induction l as [|r l IH]; simpl; [constructor|]. by apply insert_row_sorted.
Qed.

Lemma insert_row_least r l :
  Forall (rowid_le r) l -> insert_row r l = r :: l.
Proof.
  destruct 1 as [|r' l Hr _]; simpl; [done|].
  unfold rowid_le in Hr. destruct (Z.leb_spec (row_id r) (row_id r')); [done|lia].
Qed.

Lemma filter_insert_row (P : Row -> Prop) `{!forall r, Decision (P r)} r l :
  StronglySorted rowid_le l ->
  filter P (insert_row r l) =
  if decide (P r) then insert_row r (filter P l) else filter P l.
Proof.
  induction 1 as [|r' l Hs IH Hall]; simpl.
  - rewrite filter_cons, filter_nil. by destruct (decide (P r)).
  - destruct (Z.leb_spec (row_id r) (row_id r')) as [Hle|Hgt].
    + rewrite filter_cons. destruct (decide (P r)) as [Hr|Hr]; [|done].
      rewrite filter_cons. destruct (decide (P r')) as [Hr'|Hr'].
      * simpl. destruct (Z.leb_spec (row_id r) (row_id r')); [done|lia].
      * rewrite insert_row_least; [done|].
        apply Forall_forall. intros x Hx%list_elem_of_filter.
        rewrite Forall_forall in Hall. specialize (Hall x (proj2 Hx)).
        unfold rowid_le in *. lia.
    + rewrite filter_cons, IH, filter_cons.
      destruct (decide (P r')) as [Hr'|Hr']; destruct (decide (P r)) as [Hr|Hr];
        try done.
      simpl. destruct (Z.leb_spec (row_id r) (row_id r')); [lia|done].
Qed.

Lemma filter_order_by_rowid (P : Row -> Prop) `{!forall r, Decision (P r)} l :
  filter P (order_by_rowid l) = order_by_rowid (filter P l).
Proof.
  induction l as [|r l IH]; simpl; [done|].
  rewrite filter_insert_row by apply order_by_rowid_sorted.
  rewrite filter_cons. destruct (decide (P r)); simpl; by rewrite IH.
Qed.

(** The rows a page query selects from: those of the kind asked for, in
    ascending rowid. *)
Lemma select_page_of_sorted t contentType lastRowId pageSize :
  select_page t contentType lastRowId pageSize =
  to_record <$>
    limit pageSize
      (filter (fun r => lastRowId < row_id r) (matching_rows t contentType)).
Proof.
  unfold select_page, matching_rows. do 2 f_equal.
  rewrite filter_order_by_rowid. f_equal.
  rewrite (list_filter_filter (fun r => lastRowId < row_id r)
             (fun r => where_content_type contentType r)).
  apply list_filter_iff. intros r.
  rewrite andb_True. unfold Is_true.
  destruct (Z.ltb_spec lastRowId (row_id r)); intuition lia.
Qed.

Lemma matching_rows_sorted t contentType :
  StronglySorted rowid_le (matching_rows t contentType).
Proof. apply order_by_rowid_sorted. Qed.

Lemma StronglySorted_filter {A} (R : A -> A -> Prop) (P : A -> Prop)
    `{!forall x, Decision (P x)} l :
  StronglySorted R l -> StronglySorted R (filter P l).
Proof.
  induction 1 as [|x l Hs IH Hall]; [constructor|].
  rewrite filter_cons. destruct (decide (P x)); [|done].
  constructor; [done|]. apply Forall_forall. intros y Hy%list_elem_of_filter.
  rewrite Forall_forall in Hall. apply Hall, Hy.
Qed.

Lemma StronglySorted_take {A} (R : A -> A -> Prop) n l :
  StronglySorted R l -> StronglySorted R (take n l).
Proof.
  intros Hs. revert n. induction Hs as [|x l Hs IH Hall]; intros [|n]; simpl;
    try constructor; [apply IH|].
  apply Forall_forall. intros y Hy. rewrite Forall_forall in Hall.
  apply Hall. eapply subseteq_take, Hy.
Qed.

Lemma limit_sublist {A} n (l : list A) : limit n l `prefix_of` l.
Proof.
  unfold limit. destruct (n <? 0); [done|]. apply prefix_take.
Qed.

(** ** The destination writer *)

Lemma insert_transaction_app a b t :
  insert_transaction (a ++ b) t =
  ((insert_transaction a t).1 ++ (insert_transaction b (insert_transaction a t).2).1,
   (insert_transaction b (insert_transaction a t).2).2).
Proof.
  revert t. induction a as [|r a IH]; intros t; simpl.
  - by destruct (insert_transaction b t).
  - rewrite IH.
    destruct (insert_transaction a _) as [a' t1]; simpl.
    by destruct (insert_transaction b t1).
Qed.

Lemma insert_transaction_records records t :
  (insert_transaction records t).1 =
  (fun r => with_content_type r (Some (stored_kind r))) <$> records.
Proof.
  revert t. induction records as [|r rest IH]; intros t; simpl; [done|].
  specialize (IH (insert_row_values t (entry r) (paraphrase r) (stored_kind r))).
  unfold stored_kind in *.
  destruct (insert_transaction rest _) as [rest' t']; simpl in *.
  by rewrite IH.
Qed.

Lemma foldr_max_ge (x : Z) (l : list Z) :
  x <= foldr Z.max x l /\ Forall (fun y => y <= foldr Z.max x l) l.
Proof.
  induction l as [|y l [IH1 IH2]]; simpl; [split; [lia|constructor]|].
  split; [lia|]. constructor; [simpl; lia|].
  eapply Forall_impl; [exact IH2|]. simpl. lia.
Qed.

Lemma next_rowid_above t : Forall (fun r => row_id r < next_rowid t) t.
Proof.
  unfold next_rowid. destruct t as [|r t]; [constructor|]. simpl.
  destruct (foldr_max_ge (row_id r) (row_id <$> t)) as [H1 H2].
  rewrite Forall_fmap in H2. unfold fmap in *.
  constructor; [simpl; lia|].
  eapply Forall_impl; [exact H2|]. simpl. lia.
Qed.

Lemma next_rowid_snoc t r :
  Forall (fun r' => row_id r' < row_id r) t ->
  next_rowid (t ++ [r]) = row_id r + 1.
Proof.
  intros Hall. unfold next_rowid. rewrite fmap_app. simpl.
  destruct t as [|r0 t]; simpl; [done|].
  apply Forall_cons in Hall as [H0 Hall]. f_equal.
  revert r0 H0. induction t as [|r1 t IH]; intros r0 H0; simpl; [lia|].
  apply Forall_cons in Hall as [H1 Hall].
  specialize (IH Hall r0 H0). lia.
Qed.

(** The rows a transaction adds: one per record, in the order of the
    records, with consecutive rowids above those of the table. *)
Lemma insert_transaction_rows records t :
  exists new,
    (insert_transaction records t).2 = t ++ new /\
    Forall2 stores records new /\
    row_id <$> new = (fun i => next_rowid t + Z.of_nat i) <$> seq 0 (length records).
Proof.
  revert t. induction records as [|r rest IH]; intros t; simpl.
  - exists []. by rewrite app_nil_r.
  - set (row := {| row_id := next_rowid t; row_entry := entry r;
                   row_paraphrase := paraphrase r;
                   row_content_type := Some (stored_kind r) |}).
    destruct (IH (t ++ [row])) as [new [Ht [Hst Hids]]].
    unfold insert_row_values. fold (stored_kind r). fold row.
    destruct (insert_transaction rest (t ++ [row])) as [rest' t'] eqn:Hrun.
    simpl in *. exists (row :: new). rewrite Ht, <- app_assoc. split; [done|].
    split; [constructor; [by repeat split|done]|].
    refold_fmap. rewrite fmap_cons, Hids.
    f_equal; [simpl; lia|].
    rewrite next_rowid_snoc by apply next_rowid_above. cbn [row_id row].
    rewrite <- fmap_S_seq, <- list_fmap_compose. apply list_fmap_ext.
    intros _ i _. simpl. lia.
Qed.

Lemma store_call_ok env ev w :
  store_reliable env -> store_call env ev w = (Normal tt, add_trace [ev] w).
Proof.
  intros Hrel. unfold store_call, bind, get. rewrite log_run. by rewrite Hrel.
Qed.

Lemma insertRecords_ok env this records w :
  store_reliable env ->
  insertRecords env this records w =
  (Normal ((fun r => with_content_type r (Some (stored_kind r))) <$> records),
   set_table this (insert_transaction records (table this w)).2
     (add_trace [EvInsert this records] w)).
Proof.
  intros Hrel. unfold insertRecords. unfold bind at 1.
  rewrite store_call_ok by done. unfold bind at 1, get.
  replace (table this (add_trace [EvInsert this records] w)) with (table this w)
    by by destruct this.
  rewrite <- (insert_transaction_records records (table this w)).
  by destruct (insert_transaction records (table this w)).
Qed.

(** ** Reassembling a page *)

Lemma deref_html_positions pre rest :
  deref (pre ++ rest) (html_positions (length pre) rest) =
  filter (fun r => has_type ContentType.HTML r) rest.
Proof.
  revert pre. induction rest as [|r rest IH]; intros pre; simpl; [done|].
  specialize (IH (pre ++ [r])). rewrite length_app, <- app_assoc in IH. simpl in IH.
  replace (length pre + 1)%nat with (S (length pre)) in IH by lia.
  rewrite filter_cons. destruct (has_type ContentType.HTML r) eqn:Hr; simpl.
  - unfold deref in *. simpl.
    rewrite lookup_app_r, Nat.sub_diag by lia. simpl.
    destruct (decide True); [|done]. by rewrite IH.
  - destruct (decide False); [done|]. apply IH.
Qed.

Lemma assign_paraphrases_html f pre rest i transformedRecords w :
  drop i transformedRecords =
    apply_transform f <$> filter (fun r => has_type ContentType.HTML r) rest ->
  assign_paraphrases (html_positions (length pre) rest) i transformedRecords
    (pre ++ rest) w
  = (Normal (pre ++ (process_record f <$> rest)), w).
Proof.
  revert pre i. induction rest as [|r rest IH]; intros pre i Hdrop; simpl; [done|].
  rewrite filter_cons in Hdrop. unfold process_record at 1.
  destruct (has_type ContentType.HTML r) eqn:Hr; simpl in *.
  - refold_fmap.
    assert (transformedRecords !! i = Some (apply_transform f r)) as Hi.
    { rewrite <- (Nat.add_0_r i), <- lookup_drop, Hdrop. done. }
    rewrite Hi.
    replace (alter _ (length pre) (pre ++ r :: rest))
      with ((pre ++ [apply_transform f r]) ++ rest).
    2:{ rewrite <- app_assoc. simpl.
        rewrite alter_app_r_alt, Nat.sub_diag by lia. done. }
    specialize (IH (pre ++ [apply_transform f r]) (S i)).
    rewrite length_app in IH. simpl in IH.
    replace (length pre + 1)%nat with (S (length pre)) in IH by lia.
    rewrite IH, <- app_assoc; [done|].
    replace (S i) with (i + 1)%nat by lia. rewrite <- drop_drop, Hdrop. done.
  - refold_fmap.
    specialize (IH (pre ++ [r]) i).
    rewrite length_app, <- app_assoc in IH. simpl in IH.
    replace (length pre + 1)%nat with (S (length pre)) in IH by lia.
    rewrite IH, <- app_assoc; done.
Qed.

(** ** Pagination by watermark *)

Lemma NoDup_rowid_filter (P : Row -> Prop) `{!forall r, Decision (P r)} (t : list Row) :
  NoDup (row_id <$> t) -> NoDup (row_id <$> filter P t).
Proof.
  induction t as [|r t IH]; [done|]. rewrite fmap_cons, NoDup_cons.
  intros [Hr Ht]. rewrite filter_cons. destruct (decide (P r)); [|by apply IH].
  rewrite fmap_cons, NoDup_cons. split; [|by apply IH].
  intros (r' & Heq & Hin%list_elem_of_filter)%list_elem_of_fmap.
  apply Hr, list_elem_of_fmap. exists r'. tauto.
Qed.

Lemma StronglySorted_strict (l : list Row) :
  StronglySorted rowid_le l -> NoDup (row_id <$> l) -> StronglySorted rowid_lt l.
Proof.
  induction 1 as [|r l Hs IH Hall]; [constructor|].
  rewrite fmap_cons, NoDup_cons. intros [Hr Hl].
  constructor; [by apply IH|]. apply Forall_forall. intros r' Hin.
  rewrite Forall_forall in Hall. specialize (Hall r' Hin).
  unfold rowid_le, rowid_lt in *.
  destruct (decide (row_id r = row_id r')) as [Heq|]; [|lia].
  exfalso. apply Hr, list_elem_of_fmap. by exists r'.
Qed.

Lemma matching_rows_strict t contentType :
  NoDup (row_id <$> t) -> StronglySorted rowid_lt (matching_rows t contentType).
Proof.
  intros Hnd. apply StronglySorted_strict; [apply matching_rows_sorted|].
  unfold matching_rows. rewrite order_by_rowid_perm. by apply NoDup_rowid_filter.
Qed.

Lemma filter_all {A} (P : A -> Prop) `{!forall x, Decision (P x)} (l : list A) :
  Forall P l -> filter P l = l.
Proof.
  induction 1 as [|x l Hx _ IH]; [done|]. by rewrite filter_cons_True, IH.
Qed.

Lemma filter_none {A} (P : A -> Prop) `{!forall x, Decision (P x)} (l : list A) :
  Forall (fun x => ~ P x) l -> filter P l = [].
Proof.
  induction 1 as [|x l Hx _ IH]; [done|]. by rewrite filter_cons_False.
Qed.

(** Past the last row of a prefix of a strictly ascending list lies exactly
    the rest of the list. *)
Lemma filter_above_last (a b : list Row) (x : Row) :
  StronglySorted rowid_lt (a ++ b) -> last a = Some x ->
  filter (fun r => row_id x < row_id r) (a ++ b) = b.
Proof.
  intros Hs [a' ->]%last_Some. rewrite filter_app.
  rewrite (filter_none _ (a' ++ [x])), (filter_all _ b); [done| |].
  - apply Forall_forall. intros r Hr.
    apply (StronglySorted_app_1_elem_of _ _ _ x r Hs); [|done].
    apply elem_of_app. right. by apply list_elem_of_singleton.
  - apply Forall_app. split.
    + apply StronglySorted_app_1_l in Hs.
      apply Forall_forall. intros r Hr.
      pose proof (StronglySorted_app_1_elem_of _ _ _ r x Hs Hr
                    ltac:(by apply list_elem_of_singleton)) as Hlt.
      unfold rowid_lt in Hlt. lia.
    + constructor; [lia|constructor].
Qed.

Lemma limit_take {A} (n : Z) (l : list A) :
  n <> 0 -> l <> [] ->
  exists k, (0 < k)%nat /\ limit n l = take k l.
Proof.
  intros Hn Hl. unfold limit. destruct (Z.ltb_spec n 0).
  - exists (length l). split; [|by rewrite take_ge].
    destruct l; [done|simpl; lia].
  - exists (Z.to_nat n). split; [lia|done].
Qed.

Lemma elem_of_rows_after t contentType lastRowId r :
  r ∈ rows_after t contentType lastRowId -> r ∈ t.
Proof.
  intros [_ Hr]%list_elem_of_filter. unfold matching_rows in Hr.
  rewrite order_by_rowid_perm in Hr. by apply list_elem_of_filter in Hr as [_ ?].
Qed.

(** The watermark the cursor reads from the last record of a page is the
    rowid of the last row of the page, when that rowid is exact. *)
Lemma last_page_rowid t contentType lastRowId pageSize x :
  exact_rowids t ->
  last (limit pageSize (rows_after t contentType lastRowId)) = Some x ->
  rowid (to_record x) = Some (row_id x).
Proof.
  intros Hexact Hx. apply (rowid_to_record t); [done|].
  apply (elem_of_rows_after t contentType lastRowId).
  apply last_Some_elem_of in Hx.
  destruct (limit_sublist pageSize (rows_after t contentType lastRowId)) as [k Hk].
  rewrite Hk. apply elem_of_app. by left.
Qed.

Section Cursor.
Context (env : Env) (this : MdxDatabase) (contentType : option Z)
        (pageSize : Z) (t : Table).
Context (Hrel : store_reliable env) (Hsize : pageSize <> 0)
        (Hnodup : NoDup (row_id <$> t)) (Hexact : exact_rowids t).

Local Abbreviation remaining := (rows_after t contentType).

Lemma remaining_strict lastRowId : StronglySorted rowid_lt (remaining lastRowId).
Proof. apply StronglySorted_filter. by apply matching_rows_strict. Qed.

(** After a page, the cursor stands past the last row of the page. *)
Lemma remaining_after_page lastRowId x :
  last (limit pageSize (remaining lastRowId)) = Some x ->
  remaining (row_id x) =
  drop (length (limit pageSize (remaining lastRowId))) (remaining lastRowId).
Proof.
  intros Hlast.
  assert (remaining lastRowId <> []) as Hne.
  { intros Heq. rewrite Heq in Hlast. unfold limit in Hlast.
    destruct (pageSize <? 0); [done|]. by rewrite take_nil in Hlast. }
  destruct (limit_take pageSize _ Hsize Hne) as [k [Hk Hlim]].
  rewrite Hlim in *.
  assert (x ∈ remaining lastRowId) as Hx.
  { eapply subseteq_take. by apply last_Some_elem_of. }
  assert (lastRowId < row_id x) as Hlt.
  { unfold remaining in Hx. by apply list_elem_of_filter in Hx as [? _]. }
  transitivity (filter (fun r => row_id x < row_id r) (remaining lastRowId)).
  - unfold remaining. symmetry. apply list_filter_filter_l. intros; lia.
  - rewrite <- (take_drop k (remaining lastRowId)) at 1.
    rewrite (filter_above_last (take k (remaining lastRowId))
               (drop k (remaining lastRowId)) x);
      [|rewrite take_drop; apply remaining_strict|done].
    rewrite length_take.
    destruct (decide (k <= length (remaining lastRowId))%nat); [f_equal; lia|].
    rewrite drop_ge by lia. rewrite drop_ge by lia. done.
Qed.

(** A run of the cursor in which the store answers and the consumer
    resumes the cursor at every page: [Inv R] holds of the world when the
    rows [R] are still to come. *)
Lemma fetchRecordsPaginated_loop_run
    (Inv : list Row -> World -> Prop)
    (yield_ : list MdxRecord -> M World (list MdxRecord)) :
  (forall R w ev, Inv R w -> Inv R (add_trace [ev] w)) ->
  (forall R w, R <> [] -> Inv R w -> table this w = t ->
     exists records' w',
       yield_ (to_record <$> limit pageSize R) w = (Normal records', w') /\
       last records' ≫= rowid = last (to_record <$> limit pageSize R) ≫= rowid /\
       table this w' = t /\
       Inv (drop (length (limit pageSize R)) R) w') ->
  forall fuel lastRowId w,
    (length (remaining lastRowId) < fuel)%nat ->
    table this w = t ->
    Inv (remaining lastRowId) w ->
    exists w',
      fetchRecordsPaginated_loop env fuel this contentType pageSize lastRowId yield_ w
        = (Normal tt, w') /\
      Inv [] w' /\ table this w' = t.
Proof.
  intros Hlog Hyield. induction fuel as [|fuel IH]; intros lastRowId w Hfuel Ht HInv;
    [lia|].
  simpl. unfold bind at 1. rewrite store_call_ok by done.
  set (w1 := add_trace [EvQueryPage this contentType lastRowId pageSize] w).
  unfold bind at 1, get.
  assert (table this w1 = t) as Ht1 by by destruct this.
  rewrite Ht1, select_page_of_sorted. fold (remaining lastRowId).
  destruct (decide (remaining lastRowId = [])) as [Hempty|Hne].
  - rewrite Hempty in *. exists w1.
    replace (limit pageSize (@nil Row)) with (@nil Row)
      by (unfold limit; destruct (pageSize <? 0); by rewrite ?take_nil).
    simpl. split; [done|]. split; [by apply Hlog|done].
  - destruct (Hyield (remaining lastRowId) w1 Hne (Hlog _ _ _ HInv) Ht1)
      as (records' & w2 & Hrun & Hlast & Ht2 & HInv2).
    destruct (limit_take pageSize _ Hsize Hne) as [k [Hk Hlim]].
    assert (limit pageSize (remaining lastRowId) <> []) as Hpage.
    { rewrite Hlim. destruct (remaining lastRowId); [done|]. by destruct k; [lia|]. }
    destruct (last (limit pageSize (remaining lastRowId))) as [x|] eqn:Hx;
      [|by apply last_is_Some in Hpage; destruct Hpage; congruence].
    rewrite fmap_last, Hx in Hlast. cbn [fmap option_fmap option_map] in Hlast.
    cbn [mbind option_bind] in Hlast.
    rewrite (last_page_rowid t contentType lastRowId pageSize x Hexact Hx) in Hlast.
    rewrite length_fmap.
    destruct (Nat.eqb_spec (length (limit pageSize (remaining lastRowId))) 0) as [H0|_].
    { by apply length_zero_iff_nil in H0. }
    unfold bind at 1. rewrite Hrun.
    destruct (last records') as [record|]; simpl in Hlast; [|done].
    rewrite Hlast.
    rewrite <- (remaining_after_page lastRowId x Hx) in HInv2.
    apply IH; [|done|done].
    rewrite (remaining_after_page lastRowId x Hx), length_drop.
    assert (0 < length (limit pageSize (remaining lastRowId)))%nat.
    { destruct (limit pageSize (remaining lastRowId)); [done|simpl; lia]. }
    assert (length (limit pageSize (remaining lastRowId))
            <= length (remaining lastRowId))%nat
      by apply prefix_length, limit_sublist.
    lia.
Qed.
End Cursor.

(** ** One page through each pipeline *)

Lemma has_type_to_record c r :
  Z.abs c < 2 ^ 53 ->
  has_type c (to_record r) = true <-> row_content_type r = Some c.
Proof.
  intros Hc. rewrite <- (content_type_to_record r c Hc). unfold has_type.
  destruct (content_type (to_record r)) as [c'|]; [|done].
  rewrite Z.eqb_eq. split; congruence.
Qed.

Lemma transforms_html_records tf f rows :
  transforms_html tf f rows ->
  Forall (fun r => tf (paraphrase r) = Some (f (paraphrase r)))
         (filter (fun r => has_type ContentType.HTML r) (to_record <$> rows)).
Proof.
  intros Hall. apply Forall_forall. intros r [Hr Hin]%list_elem_of_filter.
  apply list_elem_of_fmap in Hin as (row & -> & Hin).
  unfold transforms_html in Hall. rewrite Forall_forall in Hall.
  apply (Hall row Hin). apply has_type_to_record; [done|]. by apply Is_true_eq_true.
Qed.

Lemma last_rowid_stored (records : list MdxRecord) (g : MdxRecord -> MdxRecord) :
  (forall r, rowid (g r) = rowid r) ->
  last (g <$> records) ≫= rowid = last records ≫= rowid.
Proof.
  intros Hg. rewrite fmap_last. destruct (last records); simpl; [apply Hg|done].
Qed.

Lemma limit_drop {A} n (l : list A) :
  limit n l ++ drop (length (limit n l)) l = l.
Proof.
  unfold limit. destruct (n <? 0).
  - by rewrite drop_all, app_nil_r.
  - rewrite length_take.
    destruct (decide (Z.to_nat n <= length l)%nat).
    + rewrite Nat.min_l by lia. apply take_drop.
    + rewrite Nat.min_r by lia. by rewrite take_ge, drop_all, app_nil_r by lia.
Qed.

Section Pages.
Context (env : Env) (fuel : nat) (transformModulePath : string) (chunkSize : Z)
        (tf : TransformFn) (f : string -> string) (pool : nat).
Context (Hrel : store_reliable env) (Hchunk : 0 < chunkSize)
        (Hmod : modules env (resolve env transformModulePath)
                = Some (Importable (ExportFunction tf))).

(** A page of the interleaved pipeline, consumed by [insertRecords]. *)
Lemma processRecordsInParallel_page (rows : list Row) (w : World) (p : Pool) :
  (length rows <= fuel)%nat ->
  pools w !! pool = Some p -> pool_ok env p ->
  transforms_html tf f rows ->
  exists records' w' p',
    (let records := to_record <$> rows in
     let htmlRecords := html_positions 0 records in
     let* transformedRecords :=
       static_transformHtmlRecordsInParallel env fuel (deref records htmlRecords)
         pool transformModulePath (Some chunkSize) in
     let* records := assign_paraphrases htmlRecords 0 transformedRecords records in
     insertRecords env TargetDb records) w
    = (Normal records', w') /\
    last records' ≫= rowid = last (to_record <$> rows) ≫= rowid /\
    source w' = source w /\
    target w' = (insert_transaction (process_record f <$> (to_record <$> rows))
                   (target w)).2 /\
    pools w' !! pool = Some p' /\ pool_ok env p'.
Proof.
  intros Hfuel Hp Hok Htf. cbv zeta.
  pose proof (deref_html_positions [] (to_record <$> rows)) as Hderef.
  simpl in Hderef. rewrite Hderef.
  destruct (static_transformHtmlRecordsInParallel_total env fuel
              (filter (fun r => has_type ContentType.HTML r) (to_record <$> rows))
              pool transformModulePath chunkSize tf f w p Hchunk)
    as (chunks & p' & Hrun & Hok' & _); [|done|done|done|by apply transforms_html_records|].
  { etransitivity; [apply length_filter|]. by rewrite length_fmap. }
  unfold bind at 1. rewrite Hrun.
  set (w1 := set_pools _ _).
  unfold bind at 1.
  pose proof (assign_paraphrases_html f [] (to_record <$> rows) 0
                (apply_transform f <$>
                   filter (fun r => has_type ContentType.HTML r) (to_record <$> rows))
                w1) as Hassign.
  simpl in Hassign. rewrite Hassign by done.
  rewrite insertRecords_ok by done.
  eexists _, _, p'. split; [done|].
  split.
  { rewrite last_rowid_stored by done.
    apply last_rowid_stored. intros r. unfold process_record.
    by destruct (has_type ContentType.HTML r). }
  simpl. repeat split; try done.
  apply list_lookup_insert_eq. by eapply lookup_lt_Some.
Qed.

(** A page of the HTML-first pipeline, consumed by [insertRecords]. *)
Lemma transformHtmlRecordsInParallel_page (rows : list Row) (w : World) (p : Pool) :
  (length rows <= fuel)%nat ->
  pools w !! pool = Some p -> pool_ok env p ->
  Forall (fun r => row_content_type r = Some ContentType.HTML) rows ->
  transforms_html tf f rows ->
  exists w' p',
    (let htmlRecords := to_record <$> rows in
     let* transformedRecords :=
       static_transformHtmlRecordsInParallel env fuel htmlRecords
         pool transformModulePath (Some chunkSize) in
     let* _ := insertRecords env TargetDb transformedRecords in
     ret htmlRecords) w
    = (Normal (to_record <$> rows), w') /\
    source w' = source w /\
    target w' = (insert_transaction (apply_transform f <$> (to_record <$> rows))
                   (target w)).2 /\
    pools w' !! pool = Some p' /\ pool_ok env p'.
Proof.
  intros Hfuel Hp Hok Hhtml Htf. cbv zeta.
  assert (filter (fun r => has_type ContentType.HTML r) (to_record <$> rows)
          = to_record <$> rows) as Hall.
  { apply filter_all. apply Forall_fmap. eapply Forall_impl; [exact Hhtml|].
    intros r Hr. simpl. apply Is_true_eq_left. by apply has_type_to_record. }
  destruct (static_transformHtmlRecordsInParallel_total env fuel
              (to_record <$> rows)
              pool transformModulePath chunkSize tf f w p Hchunk)
    as (chunks & p' & Hrun & Hok' & _); [by rewrite length_fmap|done|done|done| |].
  { rewrite <- Hall. by apply transforms_html_records. }
  unfold bind at 1. rewrite Hrun.
  unfold bind at 1. rewrite insertRecords_ok by done.
  eexists _, p'. split; [done|].
  simpl. repeat split; try done.
  apply list_lookup_insert_eq. by eapply lookup_lt_Some.
Qed.
End Pages.

(** ** A whole pass of each generator *)

Lemma workerpool_pool_run w :
  workerpool_pool w =
  (Normal (length (pools w)),
   add_trace [EvPoolCreate (length (pools w))] (set_pools (pools w ++ [fresh_pool]) w)).
Proof. done. Qed.

Lemma elem_of_matching_rows t contentType r :
  r ∈ matching_rows t contentType <->
  where_content_type contentType r = true /\ r ∈ t.
Proof.
  unfold matching_rows. rewrite order_by_rowid_perm, list_elem_of_filter.
  split; intros [? ?]; split; try done;
    [by apply Is_true_eq_true | by apply Is_true_eq_left].
Qed.

Lemma length_matching_rows t contentType :
  (length (matching_rows t contentType) <= length t)%nat.
Proof.
  unfold matching_rows. rewrite order_by_rowid_perm. apply length_filter.
Qed.

Lemma rows_after_zero t contentType :
  Forall (fun r => 0 < row_id r) t ->
  rows_after t contentType 0 = matching_rows t contentType.
Proof.
  intros Hpos. unfold rows_after. apply filter_all.
  apply Forall_forall. intros r [_ Hin]%elem_of_matching_rows.
  rewrite Forall_forall in Hpos. by apply Hpos.
Qed.

Lemma elem_of_limit {A} n (l : list A) x : x ∈ limit n l -> x ∈ l.
Proof.
  intros Hx. destruct (limit_sublist n l) as [k ->].
  apply elem_of_app. by left.
Qed.

Lemma processRecordsInParallel_start env fuel this transformModulePath pageSize
    chunkSize yield_ w :
  processRecordsInParallel env fuel this transformModulePath
    (Some pageSize) (Some chunkSize) yield_ w
  = try_finally
      (fetchRecordsPaginated_loop env fuel this None pageSize 0
         (fun records =>
            let htmlRecords := html_positions 0 records in
            let* transformedRecords :=
              static_transformHtmlRecordsInParallel env fuel
                (deref records htmlRecords) (length (pools w))
                transformModulePath (Some chunkSize) in
            let* records :=
              assign_paraphrases htmlRecords 0 transformedRecords records in
            yield_ records))
      (pool_terminate (length (pools w)))
      (add_trace [EvPoolCreate (length (pools w))]
         (set_pools (pools w ++ [fresh_pool]) w)).
Proof. reflexivity. Qed.

Lemma transformHtmlRecordsInParallel_start env fuel this transformModulePath pageSize
    chunkSize yield_ w :
  transformHtmlRecordsInParallel env fuel this transformModulePath
    (Some pageSize) (Some chunkSize) yield_ w
  = try_finally
      (fetchRecordsPaginated_loop env fuel this (Some ContentType.HTML) pageSize 0
         (fun htmlRecords =>
            let* transformedRecords :=
              static_transformHtmlRecordsInParallel env fuel
                htmlRecords (length (pools w))
                transformModulePath (Some chunkSize) in
            let* _ := yield_ transformedRecords in
            ret htmlRecords))
      (pool_terminate (length (pools w)))
      (add_trace [EvPoolCreate (length (pools w))]
         (set_pools (pools w ++ [fresh_pool]) w)).
Proof. reflexivity. Qed.

Section Passes.
Context (env : Env) (fuel : nat) (transformModulePath : string)
        (pageSize chunkSize : Z) (tf : TransformFn) (f : string -> string)
        (w : World).
Context (Hrel : store_reliable env)
        (Hpage : pageSize <> 0) (Hchunk : 0 < chunkSize)
        (Hmod : modules env (resolve env transformModulePath)
                = Some (Importable (ExportFunction tf)))
        (Hkeys : well_keyed (source w)) (Hexact : exact_rowids (source w))
        (Htf : transforms_html tf f (source w))
        (Hfuel : (length (source w) < fuel)%nat).

Local Abbreviation between_pages := (pages_invariant env w).

Lemma between_pages_log X g R w' ev :
  between_pages X g R w' -> between_pages X g R (add_trace [ev] w').
Proof. done. Qed.

Lemma between_pages_start X g :
  between_pages X g X
    (add_trace [EvPoolCreate (length (pools w))]
       (set_pools (pools w ++ [fresh_pool]) w)).
Proof.
  split.
  - by exists [].
  - exists fresh_pool. split; [|apply pool_ok_fresh].
    simpl. by rewrite lookup_app_r, Nat.sub_diag.
Qed.

Lemma page_rows X R contentType :
  X = matching_rows (source w) contentType ->
  (exists done, X = done ++ R) ->
  (length (limit pageSize R) <= fuel)%nat /\
  transforms_html tf f (limit pageSize R) /\
  Forall (fun r => where_content_type contentType r = true) (limit pageSize R).
Proof.
  intros HX [done Hsplit].
  assert (forall r, r ∈ limit pageSize R -> r ∈ X) as Hin.
  { intros r Hr%elem_of_limit. rewrite Hsplit. apply elem_of_app. by right. }
  split; [|split].
  - pose proof (prefix_length _ _ (limit_sublist pageSize R)).
    pose proof (length_matching_rows (source w) contentType) as Hlen.
    rewrite <- HX, Hsplit, length_app in Hlen. lia.
  - apply Forall_forall. intros r Hr%Hin. rewrite HX in Hr.
    apply elem_of_matching_rows in Hr as [_ Hr].
    unfold transforms_html in Htf. rewrite Forall_forall in Htf. by apply Htf.
  - apply Forall_forall. intros r Hr%Hin. rewrite HX in Hr.
    by apply elem_of_matching_rows in Hr as [? _].
Qed.

(** The interleaved pass: every record of the source, in ascending
    rowid, HTML records transformed, written page by page. *)
Lemma processRecordsInParallel_pass :
  exists w',
    for_await
      (processRecordsInParallel env fuel SourceDb transformModulePath
         (Some pageSize) (Some chunkSize))
      (insertRecords env TargetDb) w
    = (Normal tt, w') /\
    source w' = source w /\
    target w' = (insert_transaction
                   (process_record f <$> select_all (source w) None)
                   (target w)).2.
Proof.
  destruct Hkeys as [Hnodup Hpos].
  set (X := matching_rows (source w) None).
  set (w1 := add_trace [EvPoolCreate (length (pools w))]
               (set_pools (pools w ++ [fresh_pool]) w)).
  destruct (fetchRecordsPaginated_loop_run env SourceDb None pageSize (source w)
              Hrel Hpage Hnodup Hexact (between_pages X (process_record f))
              (fun records =>
                 let htmlRecords := html_positions 0 records in
                 let* transformedRecords :=
                   static_transformHtmlRecordsInParallel env fuel
                     (deref records htmlRecords) (length (pools w))
                     transformModulePath (Some chunkSize) in
                 let* records :=
                   assign_paraphrases htmlRecords 0 transformedRecords records in
                 insertRecords env TargetDb records)
              (between_pages_log X (process_record f))) with (fuel := fuel)
              (lastRowId := 0) (w := w1)
    as (w2 & Hrun & [[done [Hdone Htarget]] _] & Hsource).
  - intros R w' HR [[done [Hsplit Htgt]] [p [Hp Hok]]] Hsrc.
    destruct (page_rows X R None eq_refl (ex_intro _ done Hsplit))
      as (Hlen & Htf' & _).
    destruct (processRecordsInParallel_page env fuel transformModulePath chunkSize
                tf f (length (pools w)) Hrel Hchunk Hmod (limit pageSize R) w' p
                Hlen Hp Hok Htf')
      as (records' & w'' & p' & Hrun & Hlast & Hsrc' & Htgt' & Hp' & Hok').
    exists records', w''. split; [exact Hrun|]. split; [done|].
    split; [simpl in *; congruence|].
    split; [|by exists p'].
    exists (done ++ limit pageSize R). split.
    + rewrite <- app_assoc, limit_drop. done.
    + rewrite Htgt', Htgt, !fmap_app, insert_transaction_app. done.
  - rewrite rows_after_zero by done.
    pose proof (length_matching_rows (source w) None). lia.
  - done.
  - rewrite rows_after_zero by done. apply between_pages_start.
  - exists (add_trace [EvPoolTerminate (length (pools w))] w2).
    split; [|split].
    + unfold for_await. rewrite processRecordsInParallel_start.
      unfold try_finally. fold w1. cbv zeta in Hrun |- *. rewrite Hrun. done.
    + simpl in *. done.
    + simpl. rewrite Htarget. rewrite app_nil_r in Hdone. by rewrite <- Hdone.
Qed.

(** The HTML pass of the HTML-first mode: every HTML record of the
    source, in ascending rowid, transformed, written page by page. *)
Lemma transformHtmlRecordsInParallel_pass :
  exists w',
    for_await
      (transformHtmlRecordsInParallel env fuel SourceDb transformModulePath
         (Some pageSize) (Some chunkSize))
      (insertRecords env TargetDb) w
    = (Normal tt, w') /\
    source w' = source w /\
    target w' = (insert_transaction
                   (apply_transform f <$> select_all (source w) (Some ContentType.HTML))
                   (target w)).2.
Proof.
  destruct Hkeys as [Hnodup Hpos].
  set (X := matching_rows (source w) (Some ContentType.HTML)).
  set (w1 := add_trace [EvPoolCreate (length (pools w))]
               (set_pools (pools w ++ [fresh_pool]) w)).
  destruct (fetchRecordsPaginated_loop_run env SourceDb (Some ContentType.HTML)
              pageSize (source w)
              Hrel Hpage Hnodup Hexact (between_pages X (apply_transform f))
              (fun htmlRecords =>
                 let* transformedRecords :=
                   static_transformHtmlRecordsInParallel env fuel
                     htmlRecords (length (pools w))
                     transformModulePath (Some chunkSize) in
                 let* _ := insertRecords env TargetDb transformedRecords in
                 ret htmlRecords)
              (between_pages_log X (apply_transform f))) with (fuel := fuel)
              (lastRowId := 0) (w := w1)
    as (w2 & Hrun & [[done [Hdone Htarget]] _] & Hsource).
  - intros R w' HR [[done [Hsplit Htgt]] [p [Hp Hok]]] Hsrc.
    destruct (page_rows X R (Some ContentType.HTML) eq_refl (ex_intro _ done Hsplit))
      as (Hlen & Htf' & Hhtml).
    destruct (transformHtmlRecordsInParallel_page env fuel transformModulePath
                chunkSize tf f (length (pools w)) Hrel Hchunk Hmod
                (limit pageSize R) w' p Hlen Hp Hok)
      as (w'' & p' & Hrun & Hsrc' & Htgt' & Hp' & Hok'); [|done|].
    { eapply Forall_impl; [exact Hhtml|]. intros r Hr. simpl in Hr.
      destruct (row_content_type r) as [c|]; [|done].
      apply Z.eqb_eq in Hr. by subst. }
    exists (to_record <$> limit pageSize R), w''.
    split; [exact Hrun|]. split; [done|].
    split; [simpl in *; congruence|].
    split; [|by exists p'].
    exists (done ++ limit pageSize R). split.
    + rewrite <- app_assoc, limit_drop. done.
    + rewrite Htgt', Htgt, !fmap_app, insert_transaction_app. done.
  - rewrite rows_after_zero by done.
    pose proof (length_matching_rows (source w) (Some ContentType.HTML)). lia.
  - done.
  - rewrite rows_after_zero by done. apply between_pages_start.
  - exists (add_trace [EvPoolTerminate (length (pools w))] w2).
    split; [|split].
    + unfold for_await. rewrite transformHtmlRecordsInParallel_start.
      unfold try_finally. fold w1. cbv zeta in Hrun |- *. rewrite Hrun. done.
    + simpl in *. done.
    + simpl. rewrite Htarget. rewrite app_nil_r in Hdone. by rewrite <- Hdone.
Qed.
End Passes.

(** ** The transform workflow *)

Lemma validateModuleExists_ok env transformModulePath file w :
  modules env (resolve env transformModulePath) = Some file ->
  validateModuleExists env transformModulePath w = (Normal tt, w).
Proof.
  intros Hmod. unfold validateModuleExists, existsSync.
  rewrite bool_decide_true; [done|]. by rewrite Hmod.
Qed.


Lemma getTotalRecordCount_ok env this contentType w :
  store_reliable env ->
  getTotalRecordCount env this contentType w =
  (Normal (select_count (table this w) contentType),
   add_trace [EvCount this contentType] w).
Proof.
  intros Hrel. unfold getTotalRecordCount, bind. rewrite store_call_ok by done.
  unfold get, ret. by destruct this.
Qed.

Lemma fetchRecords_ok env this contentType w :
  store_reliable env ->
  fetchRecords env this contentType w =
  (Normal (select_all (table this w) contentType),
   add_trace [EvQueryAll this contentType] w).
Proof.
  intros Hrel. unfold fetchRecords, bind. rewrite store_call_ok by done.
  unfold get, ret. by destruct this.
Qed.

Section Workflow.
Context (env : Env) (fuel : nat) (transformModulePath : string)
        (options : option TransformOptions)
        (pageSize chunkSize : Z) (tf : TransformFn) (f : string -> string)
        (w : World).
Context (Hrel : store_reliable env)
        (Hpage : pageSize <> 0) (Hchunk : 0 < chunkSize)
        (Hmod : modules env (resolve env transformModulePath)
                = Some (Importable (ExportFunction tf)))
        (Hkeys : well_keyed (source w)) (Hexact : exact_rowids (source w))
        (Htf : transforms_html tf f (source w))
        (Hfuel : (length (source w) < fuel)%nat).

(** The default mode: one pass, every record in ascending rowid. *)
Lemma runTransformWorkflow_interleaved :
  truthy_htmlBeforeLink options = false ->
  exists w',
    runTransformWorkflow_sized env fuel SourceDb TargetDb transformModulePath
      options (Some pageSize) (Some chunkSize) w = (Normal tt, w') /\
    source w' = source w /\
    target w' = (insert_transaction
                   (process_record f <$> select_all (source w) None)
                   (target w)).2.
Proof.
  intros Hmode.
  destruct (processRecordsInParallel_pass env fuel transformModulePath pageSize
              chunkSize tf f (add_trace [EvCount SourceDb None] w)
              Hrel Hpage Hchunk Hmod Hkeys Hexact Htf Hfuel)
    as (w' & Hrun & Hsrc & Htgt).
  exists w'. split; [|done].
  unfold runTransformWorkflow_sized. rewrite Hmode.
  unfold bind at 1. rewrite (validateModuleExists_ok _ _ _ _ Hmod).
  unfold bind at 1. rewrite getTotalRecordCount_ok by done.
  unfold try_finally.
  change (fun r => insertRecords env TargetDb r) with (insertRecords env TargetDb).
  rewrite Hrun. done.
Qed.

(** The HTML-first mode: the HTML pass, then all LINK records in one
    insert, which is the last thing the run does. *)
Lemma runTransformWorkflow_html_first :
  truthy_htmlBeforeLink options = true ->
  exists w1 w',
    runTransformWorkflow_sized env fuel SourceDb TargetDb transformModulePath
      options (Some pageSize) (Some chunkSize) w = (Normal tt, w') /\
    source w' = source w /\
    target w1 = (insert_transaction
                   (apply_transform f <$> select_all (source w) (Some ContentType.HTML))
                   (target w)).2 /\
    target w' = (insert_transaction
                   (select_all (source w) (Some ContentType.LINK)) (target w1)).2 /\
    trace w' = trace w1 ++
               [EvQueryAll SourceDb (Some ContentType.LINK);
                EvInsert TargetDb (select_all (source w) (Some ContentType.LINK))].
Proof.
  intros Hmode.
  destruct (transformHtmlRecordsInParallel_pass env fuel transformModulePath pageSize
              chunkSize tf f (add_trace [EvCount SourceDb (Some ContentType.HTML)] w)
              Hrel Hpage Hchunk Hmod Hkeys Hexact Htf Hfuel)
    as (w1 & Hrun & Hsrc & Htgt).
  exists w1. eexists. split; [|split; [|split; [exact Htgt|]]].
  - unfold runTransformWorkflow_sized. rewrite Hmode.
    unfold bind at 1. rewrite (validateModuleExists_ok _ _ _ _ Hmod).
    unfold bind at 1. rewrite getTotalRecordCount_ok by done.
    unfold bind at 1. unfold try_finally.
    change (fun r => insertRecords env TargetDb r) with (insertRecords env TargetDb).
    rewrite Hrun. simpl.
    unfold bind at 1. unfold fetchLinkRecords. rewrite fetchRecords_ok by done.
    unfold bind at 1. rewrite insertRecords_ok by done. simpl. reflexivity.
  - simpl in *. done.
  - simpl in *. rewrite Hsrc. split; [done|]. by rewrite <- app_assoc.
Qed.
End Workflow.

(** ** What the destination holds after a run *)

Lemma consecutive_rowids_sorted (new : list Row) (c : Z) (start n : nat) :
  row_id <$> new = (fun i => c + Z.of_nat i) <$> seq start n ->
  StronglySorted rowid_lt new.
Proof.
  revert start n. induction new as [|x new IH]; intros start n Hids; [constructor|].
  destruct n as [|n]; [done|]. rewrite fmap_cons in Hids. simpl in Hids.
  injection Hids as Hx Hnew. refold_fmap.
  constructor; [by eapply IH|].
  apply Forall_forall. intros y Hy.
  assert (row_id y ∈ row_id <$> new) as Hin by by apply list_elem_of_fmap_2.
  rewrite Hnew in Hin. apply list_elem_of_fmap in Hin as (i & Hi & Hseq).
  apply elem_of_seq in Hseq. unfold rowid_lt. lia.
Qed.

Lemma sorted_lookup_lt (l : list Row) i j a b :
  StronglySorted rowid_lt l -> l !! i = Some a -> l !! j = Some b ->
  (i < j)%nat -> row_id a < row_id b.
Proof.
  intros Hs. revert i j. induction Hs as [|x l Hs IH Hall]; intros i j Ha Hb Hij;
    [done|].
  destruct j as [|j]; [lia|]. destruct i as [|i]; simpl in *.
  - injection Ha as ->. rewrite Forall_forall in Hall.
    apply (Hall b). by eapply list_elem_of_lookup_2.
  - eapply IH; [done|done|lia].
Qed.

Lemma sorted_lookup_order (l : list Row) i j a b :
  StronglySorted rowid_lt l -> l !! i = Some a -> l !! j = Some b ->
  row_id a < row_id b -> (i < j)%nat.
Proof.
  intros Hs Ha Hb Hlt.
  destruct (Nat.lt_trichotomy i j) as [?|[->|Hgt]]; [done| |].
  - rewrite Ha in Hb. injection Hb as ->. lia.
  - pose proof (sorted_lookup_lt l j i b a Hs Hb Ha Hgt). lia.
Qed.

(** Rows written in source order keep the order of any two source rows. *)
Lemma written_in_order (R : Row -> Row -> Prop) (X new : list Row) :
  StronglySorted rowid_lt X -> StronglySorted rowid_lt new -> Forall2 R X new ->
  forall i j a b,
    X !! i = Some a -> X !! j = Some b -> row_id a < row_id b ->
    exists a' b', new !! i = Some a' /\ new !! j = Some b' /\
                  R a a' /\ R b b' /\ row_id a' < row_id b'.
Proof.
  intros HX Hnew Hrel i j a b Ha Hb Hlt.
  pose proof (sorted_lookup_order X i j a b HX Ha Hb Hlt) as Hij.
  destruct (Forall2_lookup_l _ _ _ _ _ Hrel Ha) as (a' & Ha' & HRa).
  destruct (Forall2_lookup_l _ _ _ _ _ Hrel Hb) as (b' & Hb' & HRb).
  exists a', b'. repeat split; try done.
  by eapply sorted_lookup_lt.
Qed.

Lemma insert_transaction_written (g : MdxRecord -> MdxRecord) (X : list Row) t :
  exists new,
    (insert_transaction (g <$> (to_record <$> X)) t).2 = t ++ new /\
    Forall2 (written_as g) X new /\
    StronglySorted rowid_lt new /\
    Forall (fun row => next_rowid t <= row_id row) new.
Proof.
  destruct (insert_transaction_rows (g <$> (to_record <$> X)) t)
    as (new & Ht & Hst & Hids).
  exists new. split; [done|]. split; [|split].
  - rewrite <- list_fmap_compose in Hst. rewrite Forall2_fmap_l in Hst. exact Hst.
  - by eapply consecutive_rowids_sorted.
  - apply Forall_forall. intros row Hrow.
    assert (row_id row ∈ row_id <$> new) as Hin by by apply list_elem_of_fmap_2.
    rewrite Hids in Hin. apply list_elem_of_fmap in Hin as (i & -> & _). lia.
Qed.

Lemma written_entries (g : MdxRecord -> MdxRecord) (X new : list Row) :
  (forall r, entry (g r) = entry r) ->
  Forall2 (written_as g) X new -> row_entry <$> new = row_entry <$> X.
Proof.
  intros Hg. induction 1 as [|x row X new [Hentry _] _ IH]; [done|].
  rewrite !fmap_cons, IH. f_equal. rewrite Hentry, Hg. done.
Qed.

Lemma matching_rows_all t : matching_rows t None ≡ₚ t.
Proof.
  unfold matching_rows. rewrite order_by_rowid_perm.
  rewrite (filter_all (fun r => where_content_type None r)); [done|].
  by apply Forall_forall.
Qed.

Lemma matching_rows_known_kinds t :
  known_kinds t ->
  matching_rows t (Some ContentType.HTML) ++ matching_rows t (Some ContentType.LINK)
  ≡ₚ t.
Proof.
  unfold matching_rows. rewrite !order_by_rowid_perm.
  induction 1 as [|r t Hr _ IH]; [done|].
  rewrite (filter_cons (fun r => where_content_type (Some ContentType.HTML) r)).
  rewrite (filter_cons (fun r => where_content_type (Some ContentType.LINK) r)).
  destruct Hr as [Hr|Hr]; simpl; rewrite Hr; simpl.
  - destruct (decide True); [|done]. destruct (decide False); [done|].
    simpl. by rewrite IH.
  - destruct (decide True); [|done]. destruct (decide False); [done|].
    rewrite <- Permutation_middle. by rewrite IH.
Qed.

(** ** Record count, order and grouping *)

Lemma select_all_matching_rows t contentType :
  select_all t contentType = to_record <$> matching_rows t contentType.
Proof. reflexivity. Qed.

(** C1, as the code has it.  On a static source with unique positive rowids
    of at most 2^53 (up to there a JavaScript number holds every integer
    exactly), with a page size other than 0, a chunk size above 0, a module
    whose function returns on every HTML content, a store that does not
    fail and enough fuel, the run completes in either mode, leaves the
    source as it was and adds to the destination one row per source record,
    with the keys of the source; in HTML-first mode this needs every source
    record to be an HTML or a LINK record. *)
Theorem transform_workflow_copies_every_record (env : Env) (fuel : nat)
    (transformModulePath : string) (options : option TransformOptions)
    (pageSize chunkSize : Z) (tf : TransformFn) (f : string -> string) (w : World) :
  store_reliable env ->
  pageSize <> 0 -> 0 < chunkSize ->
  modules env (resolve env transformModulePath) = Some (Importable (ExportFunction tf)) ->
  well_keyed (source w) ->
  exact_rowids (source w) ->
  transforms_html tf f (source w) ->
  (length (source w) < fuel)%nat ->
  (truthy_htmlBeforeLink options = true -> known_kinds (source w)) ->
  exists w' new,
    runTransformWorkflow_sized env fuel SourceDb TargetDb transformModulePath
      options (Some pageSize) (Some chunkSize) w = (Normal tt, w') /\
    source w' = source w /\
    target w' = target w ++ new /\
    length new = length (source w) /\
    row_entry <$> new ≡ₚ row_entry <$> source w.
Proof.
  intros Hrel Hpage Hchunk Hmod Hkeys Hexact Htf Hfuel Hkinds.
  destruct (truthy_htmlBeforeLink options) eqn:Hmode.
  - destruct (runTransformWorkflow_html_first env fuel transformModulePath options
                pageSize chunkSize tf f w Hrel Hpage Hchunk Hmod Hkeys Hexact Htf Hfuel Hmode)
      as (w1 & w' & Hrun & Hsrc & Ht1 & Ht' & _).
    rewrite select_all_matching_rows in Ht1.
    destruct (insert_transaction_written (apply_transform f)
                (matching_rows (source w) (Some ContentType.HTML)) (target w))
      as (newH & HtH & HwH & _).
    rewrite HtH in Ht1.
    rewrite select_all_matching_rows in Ht'.
    destruct (insert_transaction_written id
                (matching_rows (source w) (Some ContentType.LINK)) (target w1))
      as (newL & HtL & HwL & _).
    rewrite list_fmap_id in HtL. rewrite HtL, Ht1, <- app_assoc in Ht'.
    assert (row_entry <$> (newH ++ newL) ≡ₚ row_entry <$> source w) as Hperm.
    { rewrite fmap_app,
        (written_entries (apply_transform f) _ _ (fun _ => eq_refl) HwH),
        (written_entries id _ _ (fun _ => eq_refl) HwL), <- fmap_app.
      by rewrite (matching_rows_known_kinds _ (Hkinds eq_refl)). }
    exists w', (newH ++ newL). repeat split; try done.
    apply Permutation_length in Hperm. by rewrite !length_fmap in Hperm.
  - destruct (runTransformWorkflow_interleaved env fuel transformModulePath options
                pageSize chunkSize tf f w Hrel Hpage Hchunk Hmod Hkeys Hexact Htf Hfuel Hmode)
      as (w' & Hrun & Hsrc & Ht').
    rewrite select_all_matching_rows in Ht'.
    destruct (insert_transaction_written (process_record f)
                (matching_rows (source w) None) (target w))
      as (new & Ht & Hw & _).
    rewrite Ht in Ht'.
    assert (row_entry <$> new ≡ₚ row_entry <$> source w) as Hperm.
    { assert (forall r, entry (process_record f r) = entry r) as Hentry.
      { intros r. unfold process_record. by destruct (has_type _ r). }
      rewrite (written_entries (process_record f) _ _ Hentry Hw).
      by rewrite matching_rows_all. }
    exists w', new. repeat split; try done.
    apply Permutation_length in Hperm. by rewrite !length_fmap in Hperm.
Qed.

(** C2, as the code has it.  In the default mode (no [htmlBeforeLink]), on
    a source with unique positive rowids of at most 2^53, which JavaScript
    numbers hold exactly, and a destination with room for the rows, a run
    that meets no error writes the source records in ascending rowid: the
    i-th row added to the destination is the i-th source row, transformed
    when it is HTML, the added rows have ascending rowids, and so of two
    source rows the one with the smaller rowid is written first. *)
Theorem interleaved_mode_keeps_source_order (env : Env) (fuel : nat)
    (transformModulePath : string) (options : option TransformOptions)
    (tf : TransformFn) (f : string -> string) (w : World) :
  store_reliable env ->
  truthy_htmlBeforeLink options = false ->
  modules env (resolve env transformModulePath) = Some (Importable (ExportFunction tf)) ->
  well_keyed (source w) ->
  exact_rowids (source w) ->
  has_room (target w) (length (source w)) ->
  transforms_html tf f (source w) ->
  (length (source w) < fuel)%nat ->
  exists w' new,
    runTransformWorkflow env fuel SourceDb TargetDb transformModulePath options w
      = (Normal tt, w') /\
    target w' = target w ++ new /\
    Forall2 (written_as (process_record f)) (matching_rows (source w) None) new /\
    StronglySorted rowid_lt new /\
    forall i j a b,
      matching_rows (source w) None !! i = Some a ->
      matching_rows (source w) None !! j = Some b ->
      row_id a < row_id b ->
      exists a' b',
        new !! i = Some a' /\ new !! j = Some b' /\
        written_as (process_record f) a a' /\
        written_as (process_record f) b b' /\
        row_id a' < row_id b'.
Proof.
  intros Hrel Hmode Hmod Hkeys Hexact _ Htf Hfuel.
  destruct (runTransformWorkflow_interleaved env fuel transformModulePath options
              10000 1000 tf f w Hrel ltac:(done) ltac:(done) Hmod Hkeys Hexact Htf Hfuel Hmode)
    as (w' & Hrun & Hsrc & Ht').
  rewrite select_all_matching_rows in Ht'.
  destruct (insert_transaction_written (process_record f)
              (matching_rows (source w) None) (target w))
    as (new & Ht & Hw & Hsorted & _).
  rewrite Ht in Ht'.
  exists w', new. split; [exact Hrun|]. split; [done|]. split; [done|].
  split; [done|].
  apply written_in_order; [|done|done].
  apply matching_rows_strict, Hkeys.
Qed.

(** C3, as the code has it.  In HTML-first mode, on a source with unique
    positive rowids of at most 2^53, which JavaScript numbers hold exactly,
    and a destination with room for the rows, a run that meets no error
    adds to the destination first the HTML records, transformed, in
    ascending source rowid, then the LINK records, unchanged, in ascending
    source rowid; the added rows have ascending rowids; and the last two
    things the run does are to read all LINK records and to insert them in
    one call. *)
Theorem html_first_mode_groups_records (env : Env) (fuel : nat)
    (transformModulePath : string) (options : option TransformOptions)
    (tf : TransformFn) (f : string -> string) (w : World) :
  store_reliable env ->
  truthy_htmlBeforeLink options = true ->
  modules env (resolve env transformModulePath) = Some (Importable (ExportFunction tf)) ->
  well_keyed (source w) ->
  exact_rowids (source w) ->
  has_room (target w) (length (source w)) ->
  transforms_html tf f (source w) ->
  (length (source w) < fuel)%nat ->
  exists w' html_rows link_rows tr,
    runTransformWorkflow env fuel SourceDb TargetDb transformModulePath options w
      = (Normal tt, w') /\
    target w' = target w ++ html_rows ++ link_rows /\
    Forall2 (written_as (apply_transform f))
      (matching_rows (source w) (Some ContentType.HTML)) html_rows /\
    Forall2 (written_as id)
      (matching_rows (source w) (Some ContentType.LINK)) link_rows /\
    Forall (fun row => row_content_type row = Some ContentType.LINK) link_rows /\
    StronglySorted rowid_lt (html_rows ++ link_rows) /\
    trace w' = tr ++
      [EvQueryAll SourceDb (Some ContentType.LINK);
       EvInsert TargetDb (to_record <$> matching_rows (source w) (Some ContentType.LINK))].
Proof.
  intros Hrel Hmode Hmod Hkeys Hexact _ Htf Hfuel.
  destruct (runTransformWorkflow_html_first env fuel transformModulePath options
              10000 1000 tf f w Hrel ltac:(done) ltac:(done) Hmod Hkeys Hexact Htf Hfuel Hmode)
    as (w1 & w' & Hrun & Hsrc & Ht1 & Ht' & Htrace).
  rewrite select_all_matching_rows in Ht1, Ht', Htrace.
  destruct (insert_transaction_written (apply_transform f)
              (matching_rows (source w) (Some ContentType.HTML)) (target w))
    as (newH & HtH & HwH & HsH & _).
  rewrite HtH in Ht1.
  destruct (insert_transaction_written id
              (matching_rows (source w) (Some ContentType.LINK)) (target w1))
    as (newL & HtL & HwL & HsL & HaboveL).
  rewrite list_fmap_id in HtL. rewrite HtL, Ht1, <- app_assoc in Ht'.
  exists w', newH, newL, (trace w1).
  split; [exact Hrun|]. split; [done|]. split; [done|]. split; [done|].
  split; [|split; [|done]].
  - apply Forall_forall. intros row Hrow.
    destruct (proj1 (list_elem_of_lookup _ _) Hrow) as [i Hi].
    destruct (Forall2_lookup_r _ _ _ _ _ HwL Hi) as (src & Hsrc' & _ & _ & Hkind).
    rewrite Hkind. unfold id, stored_kind. simpl.
    apply list_elem_of_lookup_2, elem_of_matching_rows in Hsrc' as [Hw' _].
    simpl in Hw'. destruct (row_content_type src) as [c|]; [|done].
    apply Z.eqb_eq in Hw'. by subst.
  - apply StronglySorted_app_2; [|done|done].
    intros a b Ha Hb. unfold rowid_lt.
    rewrite Forall_forall in HaboveL. specialize (HaboveL b Hb).
    pose proof (next_rowid_above (target w1)) as Habove.
    rewrite Forall_forall in Habove.
    assert (a ∈ target w1) as Ha1 by (rewrite Ht1; apply elem_of_app; by right).
    specialize (Habove a Ha1). lia.
Qed.

Lemma examples_env_reliable : store_reliable Examples.env.
Proof. intros tr. reflexivity. Defined.

Lemma examples_axbyc_well_keyed : well_keyed Examples.axbyc.
Proof.
  split.
  - apply (bool_decide_unpack _). vm_compute. exact I.
  - repeat constructor.
Defined.

Lemma examples_axbyc_exact : exact_rowids Examples.axbyc.
Proof. repeat (constructor; [by vm_compute|]). constructor. Defined.

Lemma examples_axbyc_uppercase :
  transforms_html (fun s => Some (Examples.uppercase s)) Examples.uppercase
    Examples.axbyc.
Proof. repeat constructor. Defined.

Lemma examples_axbyc_known_kinds : known_kinds Examples.axbyc.
Proof.
  repeat (constructor; [first [left; reflexivity | right; reflexivity]|]).
  constructor.
Defined.

Lemma transform_workflow_copies_every_record_witness :
  exists w' new,
    runTransformWorkflow_sized Examples.env 6 SourceDb TargetDb "/upper.js"
      (Some {| htmlBeforeLink := Some true |}) (Some 2) (Some 2)
      (Examples.world Examples.axbyc) = (Normal tt, w') /\
    source w' = Examples.axbyc /\
    target w' = [] ++ new /\
    length new = 5%nat /\
    row_entry <$> new ≡ₚ row_entry <$> Examples.axbyc.
Proof.
  apply (transform_workflow_copies_every_record Examples.env 6 "/upper.js"
           (Some {| htmlBeforeLink := Some true |}) 2 2
           (fun s => Some (Examples.uppercase s)) Examples.uppercase
           (Examples.world Examples.axbyc)
           examples_env_reliable).
  - discriminate.
  - reflexivity.
  - reflexivity.
  - exact examples_axbyc_well_keyed.
  - exact examples_axbyc_exact.
  - exact examples_axbyc_uppercase.
  - simpl. lia.
  - intros _. exact examples_axbyc_known_kinds.
Defined.

(** C1, as stated, fails: complete runs that do not leave the records of
    the source in the destination.  With page size 0 the first page is
    empty and the run copies none of the five records.  In HTML-first mode
    a record that is neither HTML nor LINK is in neither pass.  The cursor
    starts above rowid 0, so a row with rowid 0 is not copied.  A record
    carries its rowid as a JavaScript number: the row with rowid 2^53 + 3
    is read as 2^53 + 4, so with page size 1 the row with rowid 2^53 + 4 is
    skipped; and the row with rowid 2^54 + 2 is read as 2^54, so with page
    size 3 the page that follows it starts before it and two rows are
    copied twice.  Last, with chunk size 0 the loop that splits a page
    never ends: no run completes, whatever the fuel. *)
Lemma transform_workflow_loses_records :
  (let r := runTransformWorkflow_sized Examples.env 6 SourceDb TargetDb "/identity.js"
              None (Some 0) (Some 2) (Examples.world Examples.axbyc) in
   r.1 = Normal tt /\ target r.2 = []) /\
  (let other := {| row_id := 2; row_entry := "k"; row_paraphrase := "?";
                   row_content_type := Some 2 |} in
   let r := runTransformWorkflow_sized Examples.env 6 SourceDb TargetDb "/identity.js"
              (Some {| htmlBeforeLink := Some true |}) (Some 2) (Some 2)
              (Examples.world [Examples.html 1 "a" "<p>a</p>"; other]) in
   r.1 = Normal tt /\ row_entry <$> target r.2 = ["a"%string]) /\
  (let r := runTransformWorkflow_sized Examples.env 6 SourceDb TargetDb "/identity.js"
              None (Some 2) (Some 2)
              (Examples.world [Examples.html 0 "z" "<p>z</p>";
                               Examples.html 1 "a" "<p>a</p>"]) in
   r.1 = Normal tt /\ row_entry <$> target r.2 = ["a"%string]) /\
  (let r := runTransformWorkflow_sized Examples.env 6 SourceDb TargetDb "/identity.js"
              None (Some 1) (Some 2)
              (Examples.world [Examples.html (2 ^ 53 + 3) "a" "<p>a</p>";
                               Examples.html (2 ^ 53 + 4) "b" "<p>b</p>"]) in
   r.1 = Normal tt /\ row_entry <$> target r.2 = ["a"%string]) /\
  (let r := runTransformWorkflow_sized Examples.env 6 SourceDb TargetDb "/identity.js"
              None (Some 3) (Some 2)
              (Examples.world [Examples.html 1 "a" "<p>a</p>";
                               Examples.html (2 ^ 54 + 1) "b" "<p>b</p>";
                               Examples.html (2 ^ 54 + 2) "c" "<p>c</p>";
                               Examples.html (2 ^ 54 + 8) "d" "<p>d</p>"]) in
   r.1 = Normal tt /\
   row_entry <$> target r.2 = ["a"; "b"; "c"; "b"; "c"; "d"]%string) /\
  (forall fuel,
     (runTransformWorkflow_sized Examples.env fuel SourceDb TargetDb "/identity.js"
        None (Some 2) (Some 0) (Examples.world Examples.axbyc)).1 = OutOfFuel).
Proof.
  split; [|split; [|split; [|split; [|split]]]].
  - vm_compute. done.
  - vm_compute. done.
  - vm_compute. done.
  - vm_compute. done.
  - vm_compute. done.
  - intros [|fuel]; [reflexivity|].
    unfold runTransformWorkflow_sized. simpl truthy_htmlBeforeLink. cbv iota.
    unfold bind at 1.
    rewrite (validateModuleExists_ok Examples.env "/identity.js" Examples.identity_js)
      by reflexivity.
    unfold bind at 1. rewrite getTotalRecordCount_ok by apply examples_env_reliable.
    unfold try_finally, for_await. rewrite processRecordsInParallel_start.
    unfold try_finally.
    set (w1 := add_trace _ (set_pools _ _)).
    cbn [fetchRecordsPaginated_loop]. unfold bind at 1.
    rewrite store_call_ok by apply examples_env_reliable.
    unfold bind at 1, get at 1.
    set (page := select_page _ _ _ _).
    vm_compute in page. subst page. cbv iota beta.
    cbn [length Nat.eqb]. cbv iota. unfold bind at 1. unfold bind at 1.
    unfold static_transformHtmlRecordsInParallel at 1.
    rewrite chunk_loop_diverges; [done|done|].
    vm_compute. done.
Qed.

(** ** Pool lifetime *)

Lemma pool_quiet_ret {A} (a : A) : pool_quiet (ret a).
Proof. done. Qed.

Lemma pool_quiet_throw {A} e : pool_quiet (@throw World A e).
Proof. done. Qed.

Lemma pool_quiet_out_of_fuel {A} : pool_quiet (@out_of_fuel World A).
Proof. done. Qed.

Lemma pool_quiet_get : pool_quiet get.
Proof. done. Qed.

Lemma pool_quiet_bind {A B} (m : M World A) (k : A -> M World B) :
  pool_quiet m -> (forall a, pool_quiet (k a)) -> pool_quiet (bind m k).
Proof.
  intros Hm Hk w. unfold bind. specialize (Hm w).
  destruct (m w) as [[a|e| |] w1]; simpl in *; try done.
  by rewrite Hk.
Qed.

Lemma pool_quiet_log ev : is_pool_event ev = false -> pool_quiet (log ev).
Proof.
  intros Hev w. simpl. unfold pool_events. rewrite filter_app.
  rewrite (filter_cons (fun ev => is_pool_event ev)), Hev. simpl.
  destruct (decide False); [done|]. by rewrite app_nil_r.
Qed.

Lemma pool_quiet_map_M {A B} (g : A -> M World B) (l : list A) :
  (forall a, pool_quiet (g a)) -> pool_quiet (map_M g l).
Proof.
  intros Hg. induction l as [|a l IH]; simpl; [apply pool_quiet_ret|].
  apply pool_quiet_bind; [done|]. intros b.
  apply pool_quiet_bind; [done|]. intros bs. apply pool_quiet_ret.
Qed.

Lemma pool_quiet_store_call env ev :
  is_pool_event ev = false -> pool_quiet (store_call env ev).
Proof.
  intros Hev. unfold store_call.
  apply pool_quiet_bind; [by apply pool_quiet_log|]. intros _.
  apply pool_quiet_bind; [apply pool_quiet_get|]. intros w.
  destruct (store_fails env (trace w)); [apply pool_quiet_throw|apply pool_quiet_ret].
Qed.

Lemma pool_quiet_run_task env pool task : pool_quiet (run_task env pool task).
Proof.
  intros w. unfold run_task. destruct (pools w !! pool) as [p|]; [|done].
  by destruct (transformHtmlRecords env task.1 task.2 _).
Qed.

Lemma pool_quiet_static env fuel htmlRecords pool transformModulePath chunkSize :
  pool_quiet (static_transformHtmlRecordsInParallel env fuel htmlRecords pool
                transformModulePath chunkSize).
Proof.
  unfold static_transformHtmlRecordsInParallel.
  destruct (chunk_loop _ _ _ _ _) as [chunks|]; [|apply pool_quiet_out_of_fuel].
  apply pool_quiet_bind.
  { apply pool_quiet_map_M. intros c. unfold pool_exec.
    apply pool_quiet_bind; [by apply pool_quiet_log|]. intros _. apply pool_quiet_ret. }
  intros tasks. apply pool_quiet_bind.
  { apply pool_quiet_map_M. intros task. apply pool_quiet_run_task. }
  intros cs. apply pool_quiet_ret.
Qed.

Lemma pool_quiet_assign_paraphrases htmlRecords i transformedRecords records :
  pool_quiet (assign_paraphrases htmlRecords i transformedRecords records).
Proof.
  revert i records. induction htmlRecords as [|ref rest IH]; intros i records; simpl;
    [apply pool_quiet_ret|].
  destruct (transformedRecords !! i); [apply IH|apply pool_quiet_throw].
Qed.

Lemma pool_quiet_insertRecords env this records :
  pool_quiet (insertRecords env this records).
Proof.
  unfold insertRecords.
  apply pool_quiet_bind; [by apply pool_quiet_store_call|]. intros _.
  apply pool_quiet_bind; [apply pool_quiet_get|]. intros w.
  destruct (insert_transaction records (table this w)) as [records' t'].
  apply pool_quiet_bind; [|intros _; apply pool_quiet_ret].
  intros w0. by destruct this.
Qed.

Lemma pool_quiet_fetchRecordsPaginated_loop env fuel this contentType pageSize
    lastRowId yield_ :
  (forall records, pool_quiet (yield_ records)) ->
  pool_quiet (fetchRecordsPaginated_loop env fuel this contentType pageSize
                lastRowId yield_).
Proof.
  intros Hyield. revert lastRowId.
  induction fuel as [|fuel IH]; intros lastRowId; simpl;
    [apply pool_quiet_out_of_fuel|].
  apply pool_quiet_bind; [by apply pool_quiet_store_call|]. intros _.
  apply pool_quiet_bind; [apply pool_quiet_get|]. intros w.
  destruct (length _ =? 0)%nat; [apply pool_quiet_ret|].
  apply pool_quiet_bind; [apply Hyield|]. intros records.
  destruct (last records) as [record|]; [|apply pool_quiet_throw].
  destruct (rowid record); [apply IH|apply pool_quiet_throw].
Qed.

Lemma pool_events_add_trace evs w :
  pool_events (trace (add_trace evs w)) = pool_events (trace w) ++ pool_events evs.
Proof. unfold pool_events. simpl. apply filter_app. Qed.

(** A generator body between [workerpool.pool()] and the [finally]:
    whatever happens inside, if the body exits then [pool.terminate()]
    follows, once. *)
Lemma pool_scope (body : nat -> M World unit) (w : World) :
  (forall pool, pool_quiet (body pool)) ->
  let r := (let* pool := workerpool_pool in
            try_finally (body pool) (pool_terminate pool)) w in
  r.1 <> OutOfFuel ->
  pool_events (trace r.2) =
  pool_events (trace w) ++
    [EvPoolCreate (length (pools w)); EvPoolTerminate (length (pools w))].
Proof.
  intros Hquiet. cbv zeta. unfold bind. rewrite workerpool_pool_run.
  set (w1 := add_trace _ _).
  assert (pool_events (trace w1) =
          pool_events (trace w) ++ [EvPoolCreate (length (pools w))]) as H1.
  { unfold w1, pool_events. simpl. by rewrite filter_app. }
  specialize (Hquiet (length (pools w)) w1). unfold try_finally.
  destruct (body (length (pools w)) w1) as [[[]|e| |] w2]; simpl in *;
    intros Hexit; try done;
    unfold pool_events in *; rewrite filter_app, Hquiet, H1, <- app_assoc; done.
Qed.

Lemma for_await_exit generator body w :
  (for_await generator body w).1 <> OutOfFuel ->
  (generator body w).1 <> OutOfFuel /\
  (for_await generator body w).2 = (generator body w).2.
Proof.
  unfold for_await. by destruct (generator body w) as [[[]|e| |] w'].
Qed.

Lemma try_finally_ret {A} (m : M World A) w : try_finally m (ret tt) w = m w.
Proof. unfold try_finally. by destruct (m w) as [[a|e| |] w']. Qed.

Lemma processRecordsInParallel_scope env fuel this transformModulePath pageSize
    chunkSize body w :
  (forall records, pool_quiet (body records)) ->
  let r := for_await (processRecordsInParallel env fuel this transformModulePath
                        pageSize chunkSize) body w in
  r.1 <> OutOfFuel ->
  pool_events (trace r.2) =
  pool_events (trace w) ++
    [EvPoolCreate (length (pools w)); EvPoolTerminate (length (pools w))].
Proof.
  intros Hbody r Hexit. subst r.
  apply for_await_exit in Hexit as [Hexit ->].
  revert Hexit. unfold processRecordsInParallel. cbv zeta.
  apply (pool_scope (fun pool => fetchRecordsPaginated env fuel this None _ _)).
  intros pool. apply pool_quiet_fetchRecordsPaginated_loop. intros records.
  apply pool_quiet_bind; [apply pool_quiet_static|]. intros transformed.
  apply pool_quiet_bind; [apply pool_quiet_assign_paraphrases|]. intros records'.
  apply Hbody.
Qed.

Lemma transformHtmlRecordsInParallel_scope env fuel this transformModulePath pageSize
    chunkSize body w :
  (forall records, pool_quiet (body records)) ->
  let r := for_await (transformHtmlRecordsInParallel env fuel this transformModulePath
                        pageSize chunkSize) body w in
  r.1 <> OutOfFuel ->
  pool_events (trace r.2) =
  pool_events (trace w) ++
    [EvPoolCreate (length (pools w)); EvPoolTerminate (length (pools w))].
Proof.
  intros Hbody r Hexit. subst r.
  apply for_await_exit in Hexit as [Hexit ->].
  revert Hexit. unfold transformHtmlRecordsInParallel. cbv zeta.
  apply (pool_scope (fun pool => fetchHtmlRecordsPaginated env fuel this _ _)).
  intros pool. apply pool_quiet_fetchRecordsPaginated_loop. intros records.
  apply pool_quiet_bind; [apply pool_quiet_static|]. intros transformed.
  apply pool_quiet_bind; [apply Hbody|]. intros _. apply pool_quiet_ret.
Qed.

Lemma pool_once_bind_after {A B} (m : M World A) (k : A -> M World B) :
  pool_quiet m -> pools_kept m -> (forall a, pool_once_or_never (k a)) ->
  pool_once_or_never (bind m k).
Proof.
  intros Hq Hp Hk w. unfold bind. specialize (Hq w). specialize (Hp w).
  destruct (m w) as [[a|e| |] w1]; simpl in *; try (by left).
  intros Hexit. rewrite <- Hq, <- Hp. by apply Hk.
Qed.

Lemma pool_once_bind_before {A B} (m : M World A) (k : A -> M World B) :
  pool_once_or_never m -> (forall a, pool_quiet (k a)) ->
  pool_once_or_never (bind m k).
Proof.
  intros Hm Hk w. unfold bind. specialize (Hm w).
  destruct (m w) as [[a|e| |] w1]; simpl in *; try (intros _; by apply Hm).
  - intros _. rewrite Hk. by apply Hm.
  - done.
Qed.

Lemma pool_once_try_finally_ret {A} (m : M World A) :
  pool_once_or_never m -> pool_once_or_never (try_finally m (ret tt)).
Proof. intros Hm w. rewrite try_finally_ret. apply Hm. Qed.

Lemma pool_quiet_fetchRecords env this contentType :
  pool_quiet (fetchRecords env this contentType).
Proof.
  unfold fetchRecords.
  apply pool_quiet_bind; [by apply pool_quiet_store_call|]. intros _.
  apply pool_quiet_bind; [apply pool_quiet_get|]. intros w'.
  apply pool_quiet_ret.
Qed.

Lemma pool_quiet_getTotalRecordCount env this contentType :
  pool_quiet (getTotalRecordCount env this contentType).
Proof.
  unfold getTotalRecordCount.
  apply pool_quiet_bind; [by apply pool_quiet_store_call|]. intros _.
  apply pool_quiet_bind; [apply pool_quiet_get|]. intros w'.
  apply pool_quiet_ret.
Qed.

Lemma pools_kept_getTotalRecordCount env this contentType :
  pools_kept (getTotalRecordCount env this contentType).
Proof.
  intros w. unfold getTotalRecordCount, bind, store_call, bind. rewrite log_run.
  unfold get. by destruct (store_fails env _).
Qed.

Lemma pool_once_runTransformWorkflow env fuel sourceDatabase targetDatabase
    transformModulePath options :
  pool_once_or_never (runTransformWorkflow env fuel sourceDatabase targetDatabase
                        transformModulePath options).
Proof.
  unfold runTransformWorkflow, runTransformWorkflow_sized.
  apply pool_once_bind_after.
  { intros w. unfold validateModuleExists. by destruct (existsSync _ _). }
  { intros w. unfold validateModuleExists. by destruct (existsSync _ _). }
  intros _. destruct (truthy_htmlBeforeLink options).
  - apply pool_once_bind_after;
      [apply pool_quiet_getTotalRecordCount|apply pools_kept_getTotalRecordCount|].
    intros _. apply pool_once_bind_before.
    + apply pool_once_try_finally_ret. intros w Hexit. right.
      by apply (transformHtmlRecordsInParallel_scope env fuel sourceDatabase
                  transformModulePath None None
                  (fun records => insertRecords env targetDatabase records) w
                  (fun records => pool_quiet_insertRecords env targetDatabase records)).
    + intros _. apply pool_quiet_bind; [apply pool_quiet_fetchRecords|].
      intros linkRecords.
      apply pool_quiet_bind; [apply pool_quiet_insertRecords|]. intros _.
      apply pool_quiet_ret.
  - apply pool_once_bind_after;
      [apply pool_quiet_getTotalRecordCount|apply pools_kept_getTotalRecordCount|].
    intros _. apply pool_once_try_finally_ret. intros w Hexit. right.
    by apply (processRecordsInParallel_scope env fuel sourceDatabase
                transformModulePath None None
                (fun records => insertRecords env targetDatabase records) w
                (fun records => pool_quiet_insertRecords env targetDatabase records)).
Qed.

(** C5.  Either pipeline generator, consumed by a loop whose body creates
    and terminates no pool, creates one pool and, on every exit (the
    source is exhausted, a fetch, a transform or the body fails, or the
    body leaves the loop), terminates that pool once, after creating it.
    So a run of the workflow that exits has either created no pool (it
    failed before the generator started) or created one and terminated
    it once. *)
Theorem pool_terminated_once_on_every_exit (env : Env) (fuel : nat)
    (this : MdxDatabase) (transformModulePath : string)
    (pageSize chunkSize : option Z)
    (body : list MdxRecord -> M World (list MdxRecord)) (w : World) :
  (forall records, pool_quiet (body records)) ->
  let once := pool_events (trace w) ++
              [EvPoolCreate (length (pools w)); EvPoolTerminate (length (pools w))] in
  (let r := for_await (processRecordsInParallel env fuel this transformModulePath
                         pageSize chunkSize) body w in
   r.1 <> OutOfFuel -> pool_events (trace r.2) = once) /\
  (let r := for_await (transformHtmlRecordsInParallel env fuel this transformModulePath
                         pageSize chunkSize) body w in
   r.1 <> OutOfFuel -> pool_events (trace r.2) = once) /\
  (forall sourceDatabase targetDatabase options,
     let r := runTransformWorkflow env fuel sourceDatabase targetDatabase
                transformModulePath options w in
     r.1 <> OutOfFuel ->
     pool_events (trace r.2) = pool_events (trace w) \/
     pool_events (trace r.2) = once).
Proof.
  intros Hbody once. split; [|split].
  - by apply processRecordsInParallel_scope.
  - by apply transformHtmlRecordsInParallel_scope.
  - intros src tgt options r. apply pool_once_runTransformWorkflow.
Qed.

Lemma pool_terminated_once_on_every_exit_witness :
  let r := for_await
             (processRecordsInParallel Examples.env_insert_fails 6 SourceDb "/upper.js"
                (Some 2) (Some 2))
             (insertRecords Examples.env_insert_fails TargetDb)
             (Examples.world Examples.axbyc) in
  r.1 = Throw SqliteError /\
  pool_events (trace r.2) = [EvPoolCreate 0; EvPoolTerminate 0].
Proof.
  split; [vm_compute; reflexivity|].
  apply (proj1 (pool_terminated_once_on_every_exit Examples.env_insert_fails 6
                  SourceDb "/upper.js" (Some 2) (Some 2)
                  (insertRecords Examples.env_insert_fails TargetDb)
                  (Examples.world Examples.axbyc)
                  (pool_quiet_insertRecords Examples.env_insert_fails TargetDb))).
  vm_compute. discriminate.
Defined.

(** ** The page cursor *)

Lemma dispatches_add_trace evs w :
  dispatches (trace (add_trace evs w)) = dispatches (trace w) ++ dispatches evs.
Proof. unfold dispatches. simpl. apply filter_app. Qed.

Lemma inserts_add_trace evs w :
  inserts (trace (add_trace evs w)) = inserts (trace w) ++ inserts evs.
Proof. unfold inserts. simpl. apply filter_app. Qed.

Lemma limit_nil {A} n : limit n (@nil A) = [].
Proof. unfold limit. destruct (n <? 0); [done|apply take_nil]. Qed.

Lemma select_page_empty contentType lastRowId pageSize :
  select_page [] contentType lastRowId pageSize = [].
Proof. unfold select_page. simpl. by rewrite limit_nil. Qed.

(** The page of a query: rows of the table, of the kind asked for, past
    the watermark, in ascending rowid. *)
Lemma select_page_rows t contentType lastRowId pageSize :
  exists rows,
    select_page t contentType lastRowId pageSize = to_record <$> rows /\
    rows = limit pageSize (rows_after t contentType lastRowId) /\
    StronglySorted rowid_le rows /\
    Forall (fun r => r ∈ t /\ where_content_type contentType r = true /\
                     lastRowId < row_id r) rows.
Proof.
  exists (limit pageSize (rows_after t contentType lastRowId)).
  split; [apply select_page_of_sorted|]. split; [done|]. split.
  - assert (StronglySorted rowid_le (rows_after t contentType lastRowId)) as Hs.
    { apply StronglySorted_filter, matching_rows_sorted. }
    unfold limit. destruct (pageSize <? 0); [done|]. by apply StronglySorted_take.
  - apply Forall_forall. intros r Hr%elem_of_limit.
    unfold rows_after in Hr. apply list_elem_of_filter in Hr as [Hlt Hr].
    apply elem_of_matching_rows in Hr as [Hkind Hr]. done.
Qed.

Lemma fetchRecordsPaginated_loop_step env fuel this contentType pageSize lastRowId
    yield_ w :
  store_reliable env ->
  let page := select_page (table this w) contentType lastRowId pageSize in
  let w1 := add_trace [EvQueryPage this contentType lastRowId pageSize] w in
  (page = [] ->
   fetchRecordsPaginated_loop env (S fuel) this contentType pageSize lastRowId yield_ w
   = (Normal tt, w1)) /\
  (page <> [] -> forall w2,
   yield_ page w1 = (Break, w2) ->
   fetchRecordsPaginated_loop env (S fuel) this contentType pageSize lastRowId yield_ w
   = (Break, w2)).
Proof.
  intros Hrel page w1.
  assert (table this w1 = table this w) as Ht by by destruct this.
  split.
  - intros Hpage. cbn [fetchRecordsPaginated_loop].
    unfold bind at 1. rewrite store_call_ok by done.
    unfold bind at 1, get at 1. fold w1. rewrite Ht. fold page. by rewrite Hpage.
  - intros Hne w2 Hyield. cbn [fetchRecordsPaginated_loop].
    unfold bind at 1. rewrite store_call_ok by done.
    unfold bind at 1, get at 1. fold w1. rewrite Ht. fold page.
    destruct page as [|r page'] eqn:Hpage; [done|].
    cbn [length Nat.eqb]. unfold bind at 1. by rewrite Hyield.
Qed.

Lemma runTransformWorkflow_empty_source env fuel transformModulePath options file w :
  store_reliable env ->
  source w = [] ->
  modules env (resolve env transformModulePath) = Some file ->
  exists w',
    runTransformWorkflow env (S fuel) SourceDb TargetDb transformModulePath options w
      = (Normal tt, w') /\
    target w' = target w /\
    dispatches (trace w') = dispatches (trace w) /\
    inserts (trace w') =
      inserts (trace w) ++
      (if truthy_htmlBeforeLink options then [EvInsert TargetDb []] else []).
Proof.
  intros Hrel Hsrc Hmod.
  unfold runTransformWorkflow, runTransformWorkflow_sized.
  unfold bind at 1. rewrite (validateModuleExists_ok _ _ _ _ Hmod).
  destruct (truthy_htmlBeforeLink options).
  - unfold bind at 1. rewrite getTotalRecordCount_ok by done.
    set (w1 := add_trace _ w).
    unfold bind at 1. rewrite try_finally_ret. unfold for_await.
    change (transformHtmlRecordsInParallel env (S fuel) SourceDb transformModulePath
              None None)
      with (transformHtmlRecordsInParallel env (S fuel) SourceDb transformModulePath
              (Some 10000) (Some 1000)).
    rewrite transformHtmlRecordsInParallel_start. unfold try_finally.
    set (w2 := add_trace _ (set_pools _ w1)).
    destruct (fetchRecordsPaginated_loop_step env fuel SourceDb (Some ContentType.HTML)
                10000 0
                (fun htmlRecords =>
                   let* transformedRecords :=
                     static_transformHtmlRecordsInParallel env (S fuel) htmlRecords
                       (length (pools w1)) transformModulePath (Some 1000) in
                   let* _ := insertRecords env TargetDb transformedRecords in
                   ret htmlRecords) w2 Hrel) as [Hend _].
    cbv zeta in Hend. rewrite Hend.
    2:{ simpl. rewrite Hsrc. apply select_page_empty. }
    simpl. unfold bind at 1. unfold fetchLinkRecords.
    rewrite fetchRecords_ok by done. simpl. rewrite Hsrc.
    unfold bind at 1. rewrite insertRecords_ok by done. simpl.
    eexists. split; [reflexivity|]. simpl.
    split; [done|]. unfold dispatches, inserts. simpl.
    rewrite !filter_app. simpl. rewrite !app_nil_r. done.
  - unfold bind at 1. rewrite getTotalRecordCount_ok by done.
    set (w1 := add_trace _ w).
    rewrite try_finally_ret. unfold for_await.
    change (processRecordsInParallel env (S fuel) SourceDb transformModulePath
              None None)
      with (processRecordsInParallel env (S fuel) SourceDb transformModulePath
              (Some 10000) (Some 1000)).
    rewrite processRecordsInParallel_start. unfold try_finally.
    set (w2 := add_trace _ (set_pools _ w1)).
    destruct (fetchRecordsPaginated_loop_step env fuel SourceDb None 10000 0
                (fun records =>
                   let htmlRecords := html_positions 0 records in
                   let* transformedRecords :=
                     static_transformHtmlRecordsInParallel env (S fuel)
                       (deref records htmlRecords)
                       (length (pools w1)) transformModulePath (Some 1000) in
                   let* records :=
                     assign_paraphrases htmlRecords 0 transformedRecords records in
                   insertRecords env TargetDb records) w2 Hrel) as [Hend _].
    cbv zeta in Hend. rewrite Hend.
    2:{ simpl. rewrite Hsrc. apply select_page_empty. }
    simpl. eexists. split; [reflexivity|]. simpl.
    split; [done|]. unfold dispatches, inserts. simpl.
    rewrite !filter_app. simpl. rewrite !app_nil_r. done.
Qed.

(** The records of rows with exact rowids, above a watermark and in
    ascending rowid, have their sequence numbers above the watermark and
    ascending. *)
Lemma page_sequences (t : Table) (lastRowId : Z) (rows : list Row) :
  exact_rowids t ->
  Forall (fun r => r ∈ t /\ lastRowId < row_id r) rows ->
  StronglySorted rowid_le rows ->
  Forall (sequence_above lastRowId) (to_record <$> rows) /\
  StronglySorted sequence_le (to_record <$> rows).
Proof.
  intros Hexact Hall Hsorted. split.
  - apply Forall_fmap. eapply Forall_impl; [exact Hall|].
    intros r [Hr Habove]. exists (row_id r). split; [|done].
    by apply (rowid_to_record t).
  - induction Hsorted as [|r rows Hs IH Hle]; [constructor|].
    apply Forall_cons in Hall as [[Hr _] Hall].
    rewrite fmap_cons. constructor; [by apply IH|].
    apply Forall_fmap. rewrite Forall_forall in Hall, Hle. apply Forall_forall.
    intros r' Hr'. exists (row_id r), (row_id r').
    split; [by apply (rowid_to_record t)|].
    split; [apply (rowid_to_record t); [done|]; by apply Hall|].
    by apply Hle.
Qed.

(** C6, as the code has it.  For a page size that is not negative, the
    query of the cursor at watermark [lastRowId] returns at most [pageSize]
    records: those of the first rows, in ascending rowid, among the rows of
    the kind asked for whose rowid is above the watermark; when the rowids
    of the table are within 2^53, where JavaScript numbers hold every
    integer exactly, the sequence numbers the records carry are above the
    watermark and ascending; the query returns nothing when there is no
    such row.  The cursor hands that page to its consumer, and ends without
    yielding when the page is empty.  Over an empty source the run
    completes, the destination is as it was, nothing is dispatched, and the
    only insert call is the one, of no records, that ends HTML-first mode. *)
Theorem page_cursor_contract (env : Env) (t : Table) (contentType : option Z)
    (lastRowId pageSize : Z) :
  0 <= pageSize ->
  let page := select_page t contentType lastRowId pageSize in
  Z.of_nat (length page) <= pageSize /\
  (exact_rowids t ->
   Forall (sequence_above lastRowId) page /\ StronglySorted sequence_le page) /\
  (exists rows,
     page = to_record <$> rows /\
     Z.of_nat (length rows) <= pageSize /\
     rows `prefix_of` rows_after t contentType lastRowId /\
     StronglySorted rowid_le rows /\
     Forall (fun r => r ∈ t /\ where_content_type contentType r = true /\
                      lastRowId < row_id r) rows) /\
  ((forall r, r ∈ t -> where_content_type contentType r = true ->
              row_id r <= lastRowId) -> page = []) /\
  (forall fuel this yield_ w,
     store_reliable env -> table this w = t ->
     let w1 := add_trace [EvQueryPage this contentType lastRowId pageSize] w in
     (page = [] ->
      fetchRecordsPaginated_loop env (S fuel) this contentType pageSize lastRowId
        yield_ w = (Normal tt, w1)) /\
     (page <> [] -> forall w2,
      yield_ page w1 = (Break, w2) ->
      fetchRecordsPaginated_loop env (S fuel) this contentType pageSize lastRowId
        yield_ w = (Break, w2))) /\
  (forall fuel transformModulePath options file w,
     store_reliable env -> source w = [] ->
     modules env (resolve env transformModulePath) = Some file ->
     exists w',
       runTransformWorkflow env (S fuel) SourceDb TargetDb transformModulePath options w
         = (Normal tt, w') /\
       target w' = target w /\
       dispatches (trace w') = dispatches (trace w) /\
       inserts (trace w') =
         inserts (trace w) ++
         (if truthy_htmlBeforeLink options then [EvInsert TargetDb []] else [])).
Proof.
  intros Hsize page.
  assert (Hlen : forall rows, rows = limit pageSize (rows_after t contentType lastRowId) ->
                   Z.of_nat (length rows) <= pageSize).
  { intros rows ->. unfold limit.
    destruct (Z.ltb_spec pageSize 0); [lia|]. rewrite length_take. lia. }
  split; [|split; [|split; [|split; [|split]]]].
  - destruct (select_page_rows t contentType lastRowId pageSize)
      as (rows & Hpage & Hrows & _).
    subst page. rewrite Hpage, length_fmap. by apply Hlen.
  - intros Hexact.
    destruct (select_page_rows t contentType lastRowId pageSize)
      as (rows & Hpage & _ & Hsorted & Hall).
    subst page. rewrite Hpage. apply (page_sequences t); [done| |done].
    eapply Forall_impl; [exact Hall|]. by intros r (? & _ & ?).
  - destruct (select_page_rows t contentType lastRowId pageSize)
      as (rows & Hpage & Hrows & Hsorted & Hall).
    exists rows. split; [done|]. split; [|split; [|done]].
    + rewrite Hrows. unfold limit.
      destruct (Z.ltb_spec pageSize 0); [lia|]. rewrite length_take. lia.
    + rewrite Hrows. apply limit_sublist.
  - intros Hnone. subst page. rewrite select_page_of_sorted.
    rewrite (filter_none (fun r => lastRowId < row_id r)); [by rewrite limit_nil|].
    apply Forall_forall. intros r [Hkind Hr]%elem_of_matching_rows.
    specialize (Hnone r Hr Hkind). lia.
  - intros fuel this yield_ w Hrel Ht. subst page. rewrite <- Ht.
    by apply fetchRecordsPaginated_loop_step.
  - intros fuel transformModulePath options file w Hrel Hsrc Hmod.
    by eapply runTransformWorkflow_empty_source.
Qed.

Lemma page_cursor_contract_witness :
  select_page Examples.axbyc None 2 2
  = to_record <$> [Examples.html 3 "b" "<p>b</p>"; Examples.link 4 "y" "@@@LINK=b"]%string /\
  Z.of_nat (length (select_page Examples.axbyc None 2 2)) <= 2 /\
  (exact_rowids Examples.axbyc ->
   Forall (sequence_above 2) (select_page Examples.axbyc None 2 2) /\
   StronglySorted sequence_le (select_page Examples.axbyc None 2 2)) /\
  exists rows,
    select_page Examples.axbyc None 2 2 = to_record <$> rows /\
    Z.of_nat (length rows) <= 2 /\
    rows `prefix_of` rows_after Examples.axbyc None 2 /\
    StronglySorted rowid_le rows /\
    Forall (fun r => r ∈ Examples.axbyc /\ where_content_type None r = true /\
                     2 < row_id r) rows.
Proof.
  split; [reflexivity|].
  destruct (page_cursor_contract Examples.env Examples.axbyc None 2 2 ltac:(done))
    as (Hlength & Hsequence & Hrows & _).
  exact (conj Hlength (conj Hsequence Hrows)).
Defined.

(** C6, as stated, fails in three places.  A record carries its sequence
    number as a JavaScript number: the row with rowid 2^53 + 1 is above the
    watermark 2^53, and its record carries 2^53, which is not.  Over an
    empty source a run in HTML-first mode still ends with its insert of the
    LINK records, a write of no records.  And a negative page size is no
    limit to SQLite: at page size -1 the page holds all five records. *)
Lemma page_cursor_rounded_sequence_and_empty_write :
  rowid <$> select_page [Examples.html (2 ^ 53 + 1) "a" "<p>a</p>"] None (2 ^ 53) 10
  = [Some (2 ^ 53)] /\
  (let r := runTransformWorkflow Examples.env 6 SourceDb TargetDb "/identity.js"
              (Some {| htmlBeforeLink := Some true |}) (Examples.world []) in
   r.1 = Normal tt /\ inserts (trace r.2) = [EvInsert TargetDb []]) /\
  length (select_page Examples.axbyc None 0 (-1)) = 5%nat.
Proof. split; [|split; [split|]]; vm_compute; reflexivity. Qed.

(** ** Load errors *)

Section Malformed.
Context (env : Env) (transformModulePath : string) (file : ModuleFile).
Context (Hmod : modules env (resolve env transformModulePath) = Some file)
        (Hbad : malformed file).

(** A worker that has to load the module throws. *)
Lemma transformHtmlRecords_malformed records g :
  cache_ok env g ->
  exists e g',
    transformHtmlRecords env records (resolve env transformModulePath) g
    = (Throw e, g') /\
    cache_ok env g' /\
    (e = ImportError (resolve env transformModulePath) \/ e = ExportShapeError).
Proof.
  intros Hok.
  assert (must_load g (resolve env transformModulePath) = true) as Hload.
  { unfold must_load. destruct (transformHtml g) as [f|] eqn:Hf; [|done].
    apply negb_true_iff, bool_decide_eq_false. intros Hp.
    specialize (Hok f _ Hf Hp). rewrite Hmod in Hok.
    injection Hok as ->. by eapply Hbad. }
  unfold transformHtmlRecords, bind, get, import_, bind, modify.
  rewrite Hload. simpl. rewrite Hmod.
  destruct file as [|[f|]]; simpl.
  - eexists _, _. split; [done|]. split; [exact Hok|by left].
  - by exfalso; eapply Hbad.
  - eexists _, _. split; [done|]. split; [exact Hok|by right].
Qed.
















End Malformed.



(** ** Witnesses *)

Lemma transformHtmlRecords_changes_content_only_witness :
  exists out g',
    transformHtmlRecords Examples.env (Examples.chunk ["ab"; "cd"]%string) "/upper.js"
      fresh_context = (Normal out, g') /\
    length out = 2%nat /\
    Forall2 (transformed_by (fun s => Some (Examples.uppercase s)))
      (Examples.chunk ["ab"; "cd"]%string) out.
Proof.
  apply (transformHtmlRecords_changes_content_only Examples.env
           (Examples.chunk ["ab"; "cd"]%string) "/upper.js" fresh_context
           (fun s => Some (Examples.uppercase s))).
  - right. split; reflexivity.
  - repeat constructor; by eexists.
Defined.

Lemma interleaved_mode_keeps_source_order_witness :
  exists w' new,
    runTransformWorkflow Examples.env 6 SourceDb TargetDb "/upper.js" None
      (Examples.world Examples.axbyc) = (Normal tt, w') /\
    target w' = [] ++ new /\
    Forall2 (written_as (process_record Examples.uppercase))
      (matching_rows Examples.axbyc None) new /\
    StronglySorted rowid_lt new /\
    forall i j a b,
      matching_rows Examples.axbyc None !! i = Some a ->
      matching_rows Examples.axbyc None !! j = Some b ->
      row_id a < row_id b ->
      exists a' b',
        new !! i = Some a' /\ new !! j = Some b' /\
        written_as (process_record Examples.uppercase) a a' /\
        written_as (process_record Examples.uppercase) b b' /\
        row_id a' < row_id b'.
Proof.
  apply (interleaved_mode_keeps_source_order Examples.env 6 "/upper.js" None
           (fun s => Some (Examples.uppercase s)) Examples.uppercase
           (Examples.world Examples.axbyc) examples_env_reliable).
  - reflexivity.
  - reflexivity.
  - exact examples_axbyc_well_keyed.
  - exact examples_axbyc_exact.
  - by vm_compute.
  - exact examples_axbyc_uppercase.
  - simpl. lia.
Defined.

Lemma html_first_mode_groups_records_witness :
  exists w' html_rows link_rows tr,
    runTransformWorkflow Examples.env 6 SourceDb TargetDb "/upper.js"
      (Some {| htmlBeforeLink := Some true |}) (Examples.world Examples.axbyc)
      = (Normal tt, w') /\
    target w' = [] ++ html_rows ++ link_rows /\
    Forall2 (written_as (apply_transform Examples.uppercase))
      (matching_rows Examples.axbyc (Some ContentType.HTML)) html_rows /\
    Forall2 (written_as id)
      (matching_rows Examples.axbyc (Some ContentType.LINK)) link_rows /\
    Forall (fun row => row_content_type row = Some ContentType.LINK) link_rows /\
    StronglySorted rowid_lt (html_rows ++ link_rows) /\
    trace w' = tr ++
      [EvQueryAll SourceDb (Some ContentType.LINK);
       EvInsert TargetDb
         (to_record <$> matching_rows Examples.axbyc (Some ContentType.LINK))].
Proof.
  apply (html_first_mode_groups_records Examples.env 6 "/upper.js"
           (Some {| htmlBeforeLink := Some true |})
           (fun s => Some (Examples.uppercase s)) Examples.uppercase
           (Examples.world Examples.axbyc) examples_env_reliable).
  - reflexivity.
  - reflexivity.
  - exact examples_axbyc_well_keyed.
  - exact examples_axbyc_exact.
  - by vm_compute.
  - exact examples_axbyc_uppercase.
  - simpl. lia.
Defined.

(** The scenario of the specification: a, x, b, y, c with the identity
    transform, page size 10 and chunk size 2. *)
Example scenario_axbyc_interleaved :
  row_entry <$>
    target (runTransformWorkflow_sized Examples.env 6 SourceDb TargetDb "/identity.js"
              None (Some 10) (Some 2) (Examples.world Examples.axbyc)).2
  = ["a"; "x"; "b"; "y"; "c"]%string.
Proof. vm_compute. reflexivity. Qed.

Example scenario_axbyc_html_first :
  row_entry <$>
    target (runTransformWorkflow_sized Examples.env 6 SourceDb TargetDb "/identity.js"
              (Some {| htmlBeforeLink := Some true |}) (Some 10) (Some 2)
              (Examples.world Examples.axbyc)).2
  = ["a"; "b"; "c"; "x"; "y"]%string.
Proof. vm_compute. reflexivity. Qed.

(** * Further properties: the store *)

Lemma order_by_rowid_sorted_id (l : list Row) :
  StronglySorted rowid_le l -> order_by_rowid l = l.
Proof.
  induction 1 as [|r l Hl IH Hr]; simpl; [done|].
  rewrite IH. by apply insert_row_least.
Qed.

Lemma insert_row_app (r : Row) (a new : list Row) :
  Forall (rowid_le r) new ->
  insert_row r (a ++ new) = insert_row r a ++ new.
Proof.
  intros Hnew. induction a as [|x a IH]; simpl.
  - by apply insert_row_least.
  - destruct (row_id r <=? row_id x); [done|]. by rewrite IH.
Qed.

(** Rows above every row of the table, in ascending rowid, sort to the end. *)
Lemma order_by_rowid_app (t new : list Row) :
  StronglySorted rowid_le new ->
  Forall (fun r => Forall (rowid_le r) new) t ->
  order_by_rowid (t ++ new) = order_by_rowid t ++ new.
Proof.
  intros Hnew. induction 1 as [|r t Hr Ht IH]; simpl.
  - by apply order_by_rowid_sorted_id.
  - rewrite IH. by apply insert_row_app.
Qed.

Lemma filter_where_any (t : list Row) :
  filter (fun r => where_content_type None r) t = t.
Proof. apply filter_all. by apply Forall_forall. Qed.

Lemma select_all_any t :
  select_all t None = to_record <$> order_by_rowid t.
Proof. unfold select_all. by rewrite filter_where_any. Qed.

(** The rows of a transaction, read back. *)
Lemma insert_transaction_as_stored records t :
  exists new,
    (insert_transaction records t).2 = t ++ new /\
    to_record <$> new = imap (as_stored (next_rowid t)) records /\
    row_id <$> new = (fun i => next_rowid t + Z.of_nat i) <$> seq 0 (length records).
Proof.
  destruct (insert_transaction_rows records t) as (new & Ht & Hst & Hids).
  exists new. split; [done|]. split; [|done].
  apply list_eq. intros i. rewrite list_lookup_fmap, list_lookup_imap.
  destruct (new !! i) as [row|] eqn:Hrow; simpl.
  - destruct (Forall2_lookup_r _ _ _ _ _ Hst Hrow) as (r & Hr & He & Hp & Hc).
    rewrite Hr. simpl. f_equal.
    assert (Hid : (row_id <$> new) !! i = Some (row_id row))
      by by rewrite list_lookup_fmap, Hrow.
    rewrite Hids, list_lookup_fmap in Hid.
    assert (Hi : (i < length records)%nat) by by eapply lookup_lt_Some.
    rewrite lookup_seq_lt in Hid by done. simpl in Hid.
    unfold to_record, as_stored. rewrite He, Hp, Hc. f_equal. f_equal. congruence.
  - apply Forall2_length in Hst. apply lookup_ge_None in Hrow.
    rewrite (proj2 (lookup_ge_None records i)); [done|lia].
Qed.

Lemma new_rows_sorted (n : Z) (new : list Row) (k : nat) :
  row_id <$> new = (fun i => n + Z.of_nat i) <$> seq 0 k ->
  StronglySorted rowid_le new /\ Forall (fun r => n <= row_id r) new.
Proof.
  revert n k. induction new as [|r new IH]; intros n k Hids.
  - split; constructor.
  - destruct k as [|k]; [done|]. simpl in Hids. injection Hids as Hr Hrest.
    refold_fmap. rewrite <- fmap_S_seq, <- list_fmap_compose in Hrest.
    destruct (IH (n + 1) k) as [Hs Hge].
    { rewrite Hrest. apply list_fmap_ext. intros _ i _. simpl. lia. }
    split.
    + constructor; [done|]. eapply Forall_impl; [exact Hge|].
      intros x Hx. unfold rowid_le. simpl in Hx, Hr. lia.
    + constructor; [simpl in Hr; lia|].
      eapply Forall_impl; [exact Hge|]. intros x Hx. simpl in Hx. lia.
Qed.

(** X1. Insert, then fetch: after [insertRecords] into a table that has
    room for the records (no new rowid passes 2^63 - 1), on a store that
    does not fail, [fetchRecords] returns what it returned before, followed
    by the inserted records in the order they were given, each with the
    kind it was stored with and with consecutive rowids from the first free
    one, both read as JavaScript numbers. *)
Theorem insertRecords_then_fetchRecords (env : Env) (this : MdxDatabase)
    (records : list MdxRecord) (w : World) :
  store_reliable env ->
  has_room (table this w) (length records) ->
  exists before w0 w',
    fetchRecords env this None w = (Normal before, w0) /\
    (let* _ := insertRecords env this records in fetchRecords env this None) w
    = (Normal (before ++ imap (as_stored (next_rowid (table this w))) records), w').
Proof.
  intros Hrel _. eexists _, _, _. split; [by apply fetchRecords_ok|].
  unfold bind. rewrite insertRecords_ok by done. rewrite fetchRecords_ok by done.
  f_equal. f_equal.
  replace (table this (set_table this (insert_transaction records (table this w)).2
                         (add_trace [EvInsert this records] w)))
    with (insert_transaction records (table this w)).2 by by destruct this.
  destruct (insert_transaction_as_stored records (table this w))
    as (new & Ht & Hrec & Hids).
  rewrite Ht, !select_all_any.
  destruct (new_rows_sorted _ _ _ Hids) as [Hs Hge].
  rewrite order_by_rowid_app, fmap_app, Hrec; [done|done|].
  eapply Forall_impl; [apply next_rowid_above|]. intros r Hr. simpl in Hr.
  eapply Forall_impl; [exact Hge|]. intros x Hx. simpl in Hx. unfold rowid_le. lia.
Qed.

Lemma insertRecords_then_fetchRecords_witness :
  exists before w0 w',
    fetchRecords Examples.env TargetDb None (Examples.world []) = (Normal before, w0) /\
    (let* _ := insertRecords Examples.env TargetDb
                 [ {| entry := "a"; paraphrase := "@@@LINK=b";
                      content_type := None; rowid := None |} ]%string in
     fetchRecords Examples.env TargetDb None) (Examples.world [])
    = (Normal (before ++
               imap (as_stored (next_rowid (table TargetDb (Examples.world []))))
                 [ {| entry := "a"; paraphrase := "@@@LINK=b";
                      content_type := None; rowid := None |} ]%string), w').
Proof.
  apply (insertRecords_then_fetchRecords Examples.env TargetDb).
  - intros tr. reflexivity.
  - by vm_compute.
Defined.

Lemma length_order_by_rowid (l : list Row) : length (order_by_rowid l) = length l.
Proof. apply Permutation_length, order_by_rowid_perm. Qed.

Lemma filter_cons_bool {A} (b : A -> bool) (x : A) (l : list A) :
  filter (fun a => b a) (x :: l)
  = if b x then x :: filter (fun a => b a) l else filter (fun a => b a) l.
Proof. rewrite filter_cons. by destruct (b x). Qed.

Lemma length_by_kind (t : list Row) :
  (length (filter (fun r => where_content_type (Some ContentType.HTML) r) t) +
   length (filter (fun r => where_content_type (Some ContentType.LINK) r) t)
   <= length t)%nat /\
  ((length (filter (fun r => where_content_type (Some ContentType.HTML) r) t) +
    length (filter (fun r => where_content_type (Some ContentType.LINK) r) t)
    = length t)%nat <-> known_kinds t).
Proof.
  unfold known_kinds. induction t as [|r t [IHle IHeq]]; [by split|].
  rewrite !filter_cons_bool, Forall_cons.
  assert (Hh : where_content_type (Some ContentType.HTML) r = true
               <-> row_content_type r = Some ContentType.HTML).
  { unfold where_content_type. destruct (row_content_type r) as [c|]; [|done].
    rewrite Z.eqb_eq. split; congruence. }
  assert (Hl : where_content_type (Some ContentType.LINK) r = true
               <-> row_content_type r = Some ContentType.LINK).
  { unfold where_content_type. destruct (row_content_type r) as [c|]; [|done].
    rewrite Z.eqb_eq. split; congruence. }
  destruct (where_content_type (Some ContentType.HTML) r) eqn:Eh;
    destruct (where_content_type (Some ContentType.LINK) r) eqn:El; cbn [length].
  - destruct Hh as [Hh _], Hl as [Hl _]. rewrite Hh in Hl by done.
    by specialize (Hl eq_refl).
  - split; [lia|]. split.
    + intros H. split; [left; by apply Hh|]. apply IHeq. lia.
    + intros [_ H%IHeq]. lia.
  - split; [lia|]. split.
    + intros H. split; [right; by apply Hl|]. apply IHeq. lia.
    + intros [_ H%IHeq]. lia.
  - split; [lia|]. split; [lia|].
    intros [[H|H] _]; [apply Hh in H|apply Hl in H]; done.
Qed.

(** X2. The count and the fetch agree: [getTotalRecordCount] of a kind is
    the number of records [fetchRecords] returns for that kind; the HTML
    count and the LINK count together never exceed the total, and make up
    the total exactly when every row is an HTML or a LINK record. *)
Theorem getTotalRecordCount_counts_fetchRecords (env : Env) (this : MdxDatabase)
    (w : World) :
  store_reliable env ->
  (forall contentType,
     exists records,
       (fetchRecords env this contentType w).1 = Normal records /\
       (getTotalRecordCount env this contentType w).1
       = Normal (Z.of_nat (length records))) /\
  (exists total html link,
     (getTotalRecordCount env this None w).1 = Normal total /\
     (getTotalRecordCount env this (Some ContentType.HTML) w).1 = Normal html /\
     (getTotalRecordCount env this (Some ContentType.LINK) w).1 = Normal link /\
     html + link <= total /\
     (html + link = total <-> known_kinds (table this w))).
Proof.
  intros Hrel. split.
  - intros contentType. eexists. rewrite fetchRecords_ok, getTotalRecordCount_ok by done.
    split; [done|]. simpl. unfold select_all, select_count.
    by rewrite length_fmap, length_order_by_rowid.
  - eexists _, _, _. rewrite !getTotalRecordCount_ok by done. cbn [fst].
    split; [done|]. split; [done|]. split; [done|].
    unfold select_count. rewrite filter_where_any.
    destruct (length_by_kind (table this w)) as [Hle Heq].
    split.
    + apply Nat2Z.inj_le in Hle. by rewrite Nat2Z.inj_add in Hle.
    + rewrite <- Heq, <- Nat2Z.inj_add. split; [apply Nat2Z.inj|intros H; exact (f_equal Z.of_nat H)].
Qed.

Lemma getTotalRecordCount_counts_fetchRecords_witness :
  (forall contentType,
     exists records,
       (fetchRecords Examples.env SourceDb contentType
          (Examples.world Examples.axbyc)).1 = Normal records /\
       (getTotalRecordCount Examples.env SourceDb contentType
          (Examples.world Examples.axbyc)).1
       = Normal (Z.of_nat (length records))) /\
  (exists total html link,
     (getTotalRecordCount Examples.env SourceDb None
        (Examples.world Examples.axbyc)).1 = Normal total /\
     (getTotalRecordCount Examples.env SourceDb (Some ContentType.HTML)
        (Examples.world Examples.axbyc)).1 = Normal html /\
     (getTotalRecordCount Examples.env SourceDb (Some ContentType.LINK)
        (Examples.world Examples.axbyc)).1 = Normal link /\
     html + link <= total /\
     (html + link = total <-> known_kinds (table SourceDb (Examples.world Examples.axbyc)))).
Proof.
  apply (getTotalRecordCount_counts_fetchRecords Examples.env SourceDb). intros tr. reflexivity.
Defined.

Lemma where_content_type_Some (c : Z) (r : Row) :
  where_content_type (Some c) r = true <-> row_content_type r = Some c.
Proof.
  unfold where_content_type. destruct (row_content_type r) as [c'|]; [|done].
  rewrite Z.eqb_eq. split; congruence.
Qed.

Lemma filter_has_type_to_record (c : Z) (rows : list Row) :
  Z.abs c < 2 ^ 53 ->
  filter (fun r => has_type c r) (to_record <$> rows)
  = to_record <$> filter (fun r => where_content_type (Some c) r) rows.
Proof.
  intros Hc. induction rows as [|r rows IH]; [done|].
  rewrite fmap_cons, !filter_cons_bool, IH.
  replace (has_type c (to_record r)) with (where_content_type (Some c) r); [|].
  - by destruct (where_content_type (Some c) r).
  - pose proof (has_type_to_record c r Hc) as H1.
    pose proof (where_content_type_Some c r) as H2.
    destruct (has_type c (to_record r)), (where_content_type (Some c) r); try done.
    + by destruct H2 as [_ H2]; rewrite H2 by by apply H1.
    + by destruct H1 as [_ H1]; rewrite H1 by by apply H2.
Qed.

(** X3. Splitting what [fetchRecords] returns gives what
    [fetchHtmlRecords] and [fetchLinkRecords] return: the partitioner and
    the two filtered statements select the same records in the same order. *)
Theorem splitRecordsByContentType_of_fetchRecords (env : Env) (this : MdxDatabase)
    (w : World) :
  store_reliable env ->
  exists records htmlRecords linkRecords,
    (fetchRecords env this None w).1 = Normal records /\
    (fetchHtmlRecords env this w).1 = Normal htmlRecords /\
    (fetchLinkRecords env this w).1 = Normal linkRecords /\
    splitRecordsByContentType records = (htmlRecords, linkRecords).
Proof.
  intros Hrel. eexists _, _, _. unfold fetchHtmlRecords, fetchLinkRecords.
  rewrite !fetchRecords_ok by done. simpl.
  split; [done|]. split; [done|]. split; [done|].
  unfold splitRecordsByContentType. rewrite splitRecordsByContentType_loop_filter.
  simpl. rewrite select_all_any, !filter_has_type_to_record by done.
  unfold select_all.
  by rewrite !(filter_order_by_rowid (fun r => where_content_type (Some _) r)).
Qed.

Lemma splitRecordsByContentType_of_fetchRecords_witness :
  exists records htmlRecords linkRecords,
    (fetchRecords Examples.env SourceDb None (Examples.world Examples.axbyc)).1
    = Normal records /\
    (fetchHtmlRecords Examples.env SourceDb (Examples.world Examples.axbyc)).1
    = Normal htmlRecords /\
    (fetchLinkRecords Examples.env SourceDb (Examples.world Examples.axbyc)).1
    = Normal linkRecords /\
    splitRecordsByContentType records = (htmlRecords, linkRecords).
Proof.
  apply (splitRecordsByContentType_of_fetchRecords Examples.env SourceDb).
  intros tr. reflexivity.
Defined.

(** X4. Copying page by page is copying at once: on a source with unique
    positive rowids of at most 2^53, which JavaScript numbers hold exactly,
    and a destination with room for the rows, consuming
    [fetchRecordsPaginated] with [insertRecords] leaves the destination as
    one [insertRecords] of what [fetchRecords] returns does, for every kind
    asked for and every page size other than 0. *)
Theorem paginated_copy_is_one_shot_copy (env : Env) (fuel : nat)
    (contentType : option Z) (pageSize : Z) (w : World) :
  store_reliable env ->
  pageSize <> 0 ->
  well_keyed (source w) ->
  exact_rowids (source w) ->
  has_room (target w) (length (source w)) ->
  (length (source w) < fuel)%nat ->
  exists w1 w2 copied,
    for_await (fetchRecordsPaginated env fuel SourceDb contentType (Some pageSize))
      (insertRecords env TargetDb) w = (Normal tt, w1) /\
    (let* records := fetchRecords env SourceDb contentType in
     insertRecords env TargetDb records) w = (Normal copied, w2) /\
    target w1 = target w2 /\ source w1 = source w /\ source w2 = source w.
Proof.
  intros Hrel Hpage [Hnodup Hpos] Hexact _ Hfuel.
  set (X := matching_rows (source w) contentType).
  destruct (fetchRecordsPaginated_loop_run env SourceDb contentType pageSize (source w)
              Hrel Hpage Hnodup Hexact
              (fun R w' => exists done, X = done ++ R /\
                 target w' = (insert_transaction (to_record <$> done) (target w)).2)
              (insertRecords env TargetDb)) with (fuel := fuel) (lastRowId := 0) (w := w)
    as (w1 & Hrun & [done [Hdone Htarget]] & Hsource).
  - intros R w' ev H. exact H.
  - intros R w' HR [done [Hsplit Htgt]] Hsrc.
    eexists _, _. split; [by apply insertRecords_ok|].
    split; [by apply last_rowid_stored|]. split; [done|].
    exists (done ++ limit pageSize R). split.
    + by rewrite <- app_assoc, limit_drop.
    + simpl. rewrite Htgt, fmap_app, insert_transaction_app. done.
  - rewrite rows_after_zero by done.
    pose proof (length_matching_rows (source w) contentType). lia.
  - done.
  - rewrite rows_after_zero by done. by exists [].
  - eexists w1, _, _. split; [|split; [|split; [|split]]].
    + unfold for_await, fetchRecordsPaginated. simpl. by rewrite Hrun.
    + unfold bind. rewrite fetchRecords_ok by done. by apply insertRecords_ok.
    + simpl. rewrite Htarget. rewrite app_nil_r in Hdone. by rewrite <- Hdone.
    + done.
    + done.
Qed.

Lemma paginated_copy_is_one_shot_copy_witness :
  exists w1 w2 copied,
    for_await (fetchRecordsPaginated Examples.env 6 SourceDb
                 (Some ContentType.LINK) (Some 1))
      (insertRecords Examples.env TargetDb) (Examples.world Examples.axbyc)
    = (Normal tt, w1) /\
    (let* records := fetchRecords Examples.env SourceDb (Some ContentType.LINK) in
     insertRecords Examples.env TargetDb records) (Examples.world Examples.axbyc)
    = (Normal copied, w2) /\
    target w1 = target w2 /\
    source w1 = source (Examples.world Examples.axbyc) /\
    source w2 = source (Examples.world Examples.axbyc).
Proof.
  apply (paginated_copy_is_one_shot_copy Examples.env 6 (Some ContentType.LINK) 1).
  - intros tr. reflexivity.
  - lia.
  - apply examples_axbyc_well_keyed.
  - apply examples_axbyc_exact.
  - by vm_compute.
  - simpl. lia.
Defined.

(** * Further properties: complete runs of the transform workflow *)

Section Runs.
Context (env : Env) (fuel : nat) (transformModulePath : string)
        (options : option TransformOptions)
        (pageSize chunkSize : Z) (tf : TransformFn) (f : string -> string)
        (w : World).
Context (Hrel : store_reliable env)
        (Hpage : pageSize <> 0) (Hchunk : 0 < chunkSize)
        (Hmod : modules env (resolve env transformModulePath)
                = Some (Importable (ExportFunction tf)))
        (Hkeys : well_keyed (source w)) (Hexact : exact_rowids (source w))
        (Htf : transforms_html tf f (source w))
        (Hfuel : (length (source w) < fuel)%nat).

(** Both modes at once: the run completes and has inserted
    [copied_records]. *)
Lemma runTransformWorkflow_copies :
  exists w',
    runTransformWorkflow_sized env fuel SourceDb TargetDb transformModulePath
      options (Some pageSize) (Some chunkSize) w = (Normal tt, w') /\
    source w' = source w /\
    target w' = (insert_transaction (copied_records options f (source w))
                   (target w)).2.
Proof.
  unfold copied_records.
  destruct (truthy_htmlBeforeLink options) eqn:Hmode.
  - destruct (runTransformWorkflow_html_first env fuel transformModulePath options
                pageSize chunkSize tf f w Hrel Hpage Hchunk Hmod Hkeys Hexact Htf Hfuel Hmode)
      as (w1 & w' & Hrun & Hsrc & Ht1 & Ht' & _).
    exists w'. split; [done|]. split; [done|].
    rewrite insert_transaction_app. simpl. by rewrite <- Ht1.
  - destruct (runTransformWorkflow_interleaved env fuel transformModulePath options
                pageSize chunkSize tf f w Hrel Hpage Hchunk Hmod Hkeys Hexact Htf Hfuel Hmode)
      as (w' & Hrun & Hsrc & Ht').
    by exists w'.
Qed.
End Runs.

Lemma next_rowid_pos (t : Table) :
  Forall (fun r => 0 < row_id r) t -> 0 < next_rowid t.
Proof.
  intros Hpos. destruct t as [|r t]; [done|].
  pose proof (next_rowid_above (r :: t)) as Habove.
  apply Forall_cons in Hpos as [Hr _]. apply Forall_cons in Habove as [Hr' _]. lia.
Qed.

Lemma insert_transaction_well_keyed (records : list MdxRecord) (t : Table) :
  well_keyed t -> well_keyed (insert_transaction records t).2.
Proof.
  intros [Hnodup Hpos].
  destruct (insert_transaction_rows records t) as (new & Ht & _ & Hids).
  destruct (new_rows_sorted _ _ _ Hids) as [_ Hge].
  pose proof (next_rowid_pos t Hpos) as Hnext.
  pose proof (next_rowid_above t) as Habove.
  rewrite Ht. split.
  - rewrite fmap_app. apply NoDup_app. split; [done|]. split.
    + intros id [r [-> Hr]]%list_elem_of_fmap [r' [Hid Hr']]%list_elem_of_fmap.
      rewrite Forall_forall in Habove, Hge.
      specialize (Habove r Hr). specialize (Hge r' Hr'). simpl in *. lia.
    + rewrite Hids. apply NoDup_fmap_2; [|apply NoDup_seq].
      intros i j Hij. lia.
  - apply Forall_app. split; [done|].
    eapply Forall_impl; [exact Hge|]. intros r Hr. simpl in Hr. lia.
Qed.

Lemma insert_transaction_kinds_set (records : list MdxRecord) (t : Table) :
  kinds_set t -> kinds_set (insert_transaction records t).2.
Proof.
  intros Hk. destruct (insert_transaction_rows records t) as (new & Ht & Hst & _).
  rewrite Ht. apply Forall_app. split; [done|].
  apply Forall_forall. intros row Hrow.
  apply list_elem_of_lookup in Hrow as [i Hi].
  destruct (Forall2_lookup_r _ _ _ _ _ Hst Hi) as (r & _ & _ & _ & Hc).
  by rewrite Hc.
Qed.

Lemma insert_transaction_known_kinds (records : list MdxRecord) (t : Table) :
  Forall (fun r => stored_kind r = ContentType.HTML \/ stored_kind r = ContentType.LINK)
         records ->
  known_kinds t -> known_kinds (insert_transaction records t).2.
Proof.
  intros Hrec Hk. destruct (insert_transaction_rows records t) as (new & Ht & Hst & _).
  rewrite Ht. apply Forall_app. split; [done|].
  apply Forall_forall. intros row Hrow.
  apply list_elem_of_lookup in Hrow as [i Hi].
  destruct (Forall2_lookup_r _ _ _ _ _ Hst Hi) as (r & Hr & _ & _ & Hc).
  rewrite Hc. rewrite Forall_forall in Hrec.
  destruct (Hrec r) as [->| ->]; [by eapply list_elem_of_lookup_2|by left|by right].
Qed.

Lemma stored_kind_known (r : MdxRecord) :
  content_type r = None \/ content_type r = Some ContentType.HTML \/
  content_type r = Some ContentType.LINK ->
  stored_kind r = ContentType.HTML \/ stored_kind r = ContentType.LINK.
Proof.
  unfold stored_kind. intros [-> | [-> | ->]]; [|by left|by right].
  destruct (String.prefix _ _); [by right|by left].
Qed.

(** A run copies no more records than the source has. *)
Lemma length_copied_records options f (t : Table) :
  (length (copied_records options f t) <= length t)%nat.
Proof.
  unfold copied_records, select_all. destruct (truthy_htmlBeforeLink options).
  - rewrite length_app, !length_fmap, !length_order_by_rowid.
    apply length_by_kind.
  - rewrite !length_fmap, length_order_by_rowid. apply length_filter.
Qed.

(** Rowids given within 2^53 stay within 2^53. *)
Lemma insert_transaction_exact (records : list MdxRecord) (t : Table) :
  well_keyed t -> exact_rowids t ->
  next_rowid t + Z.of_nat (length records) <= 2 ^ 53 ->
  exact_rowids (insert_transaction records t).2.
Proof.
  intros [_ Hpos] Hexact Hroom.
  destruct (insert_transaction_rows records t) as (new & Ht & _ & Hids).
  pose proof (next_rowid_pos t Hpos) as Hnext.
  rewrite Ht. apply Forall_app. split; [done|].
  apply Forall_forall. intros r Hr.
  assert (row_id r ∈ row_id <$> new) as Hin by by apply list_elem_of_fmap_2.
  rewrite Hids in Hin. apply list_elem_of_fmap in Hin as (i & -> & Hi).
  apply elem_of_seq in Hi. lia.
Qed.

Lemma copied_records_known_kinds options f (t : Table) :
  known_kinds t ->
  Forall (fun r => stored_kind r = ContentType.HTML \/ stored_kind r = ContentType.LINK)
         (copied_records options f t).
Proof.
  intros Hk.
  assert (Hall : forall c, Forall (fun r => content_type r = Some ContentType.HTML \/
                                            content_type r = Some ContentType.LINK)
                             (select_all t c)).
  { intros c. apply Forall_forall. intros r [row [-> Hrow]]%list_elem_of_fmap.
    apply elem_of_matching_rows in Hrow as [_ Hrow].
    unfold known_kinds in Hk. rewrite Forall_forall in Hk.
    destruct (Hk row Hrow) as [Hc|Hc]; [left|right];
      by apply content_type_to_record. }
  unfold copied_records. destruct (truthy_htmlBeforeLink options).
  - apply Forall_app. split.
    + apply Forall_fmap. eapply Forall_impl; [apply Hall|].
      intros r Hr. apply stored_kind_known. right. exact Hr.
    + eapply Forall_impl; [apply Hall|].
      intros r Hr. apply stored_kind_known. by right.
  - apply Forall_fmap. eapply Forall_impl; [apply Hall|].
    intros r Hr. apply stored_kind_known. right. unfold process_record.
    by destruct (has_type ContentType.HTML r).
Qed.

(** X5. What a run writes can be the source of the next run: a complete
    run of the transform workflow, in either mode, from a source with
    unique positive rowids of at most 2^53, which JavaScript numbers hold
    exactly, into a destination with unique positive rowids leaves a
    destination with unique positive rowids; they are all at most 2^53 when
    those of the old destination were and the new ones stay within 2^53; no
    row gets a NULL kind; and when every row of the source and of the old
    destination is an HTML or a LINK record, so is every row of the new
    destination. *)
Theorem transform_output_is_valid_input (env : Env) (fuel : nat)
    (transformModulePath : string) (options : option TransformOptions)
    (pageSize chunkSize : Z) (tf : TransformFn) (f : string -> string) (w : World) :
  store_reliable env ->
  pageSize <> 0 -> 0 < chunkSize ->
  modules env (resolve env transformModulePath) = Some (Importable (ExportFunction tf)) ->
  well_keyed (source w) ->
  exact_rowids (source w) ->
  transforms_html tf f (source w) ->
  (length (source w) < fuel)%nat ->
  well_keyed (target w) ->
  exists w',
    runTransformWorkflow_sized env fuel SourceDb TargetDb transformModulePath
      options (Some pageSize) (Some chunkSize) w = (Normal tt, w') /\
    well_keyed (target w') /\
    (exact_rowids (target w) ->
     next_rowid (target w) + Z.of_nat (length (source w)) <= 2 ^ 53 ->
     exact_rowids (target w')) /\
    (kinds_set (target w) -> kinds_set (target w')) /\
    (known_kinds (source w) -> known_kinds (target w) -> known_kinds (target w')).
Proof.
  intros Hrel Hpage Hchunk Hmod Hkeys Hexact Htf Hfuel Htarget.
  destruct (runTransformWorkflow_copies env fuel transformModulePath options
              pageSize chunkSize tf f w Hrel Hpage Hchunk Hmod Hkeys Hexact Htf Hfuel)
    as (w' & Hrun & _ & Ht).
  exists w'. split; [done|]. rewrite Ht. split; [|split; [|split]].
  - by apply insert_transaction_well_keyed.
  - intros Hold Hroom. apply insert_transaction_exact; [done|done|].
    pose proof (length_copied_records options f (source w)). lia.
  - apply insert_transaction_kinds_set.
  - intros Hsrc Htgt. apply insert_transaction_known_kinds; [|done].
    by apply copied_records_known_kinds.
Qed.

Lemma transform_output_is_valid_input_witness :
  exists w',
    runTransformWorkflow_sized Examples.env 6 SourceDb TargetDb "/upper.js"
      (Some {| htmlBeforeLink := Some true |}) (Some 2) (Some 2)
      (Examples.world Examples.axbyc) = (Normal tt, w') /\
    well_keyed (target w') /\
    (exact_rowids (target (Examples.world Examples.axbyc)) ->
     next_rowid (target (Examples.world Examples.axbyc))
       + Z.of_nat (length (source (Examples.world Examples.axbyc))) <= 2 ^ 53 ->
     exact_rowids (target w')) /\
    (kinds_set (target (Examples.world Examples.axbyc)) -> kinds_set (target w')) /\
    (known_kinds (source (Examples.world Examples.axbyc)) ->
     known_kinds (target (Examples.world Examples.axbyc)) -> known_kinds (target w')).
Proof.
  apply (transform_output_is_valid_input Examples.env 6 "/upper.js"
           (Some {| htmlBeforeLink := Some true |}) 2 2
           (fun s => Some (Examples.uppercase s)) Examples.uppercase
           (Examples.world Examples.axbyc)).
  - apply examples_env_reliable.
  - lia.
  - lia.
  - reflexivity.
  - apply examples_axbyc_well_keyed.
  - apply examples_axbyc_exact.
  - apply examples_axbyc_uppercase.
  - simpl. lia.
  - split; [apply NoDup_nil_2|constructor].
Defined.

(** X6. Page size, chunk size and the assignment of chunks to workers do
    not show in the result: on a source with unique positive rowids of at
    most 2^53, which JavaScript numbers hold exactly, and a destination
    with room for the rows, two complete runs of the transform workflow on
    the same stores, with the same module and mode, leave the same
    destination whatever their page sizes (other than 0), chunk sizes
    (above 0) and schedules are. *)
Theorem destination_independent_of_sizes_and_schedule (env1 env2 : Env)
    (fuel1 fuel2 : nat) (transformModulePath : string)
    (options : option TransformOptions)
    (pageSize1 pageSize2 chunkSize1 chunkSize2 : Z)
    (tf : TransformFn) (f : string -> string) (w : World) :
  store_reliable env1 -> store_reliable env2 ->
  pageSize1 <> 0 -> pageSize2 <> 0 -> 0 < chunkSize1 -> 0 < chunkSize2 ->
  modules env1 (resolve env1 transformModulePath)
    = Some (Importable (ExportFunction tf)) ->
  modules env2 (resolve env2 transformModulePath)
    = Some (Importable (ExportFunction tf)) ->
  well_keyed (source w) ->
  exact_rowids (source w) ->
  has_room (target w) (length (source w)) ->
  transforms_html tf f (source w) ->
  (length (source w) < fuel1)%nat -> (length (source w) < fuel2)%nat ->
  exists w1 w2,
    runTransformWorkflow_sized env1 fuel1 SourceDb TargetDb transformModulePath
      options (Some pageSize1) (Some chunkSize1) w = (Normal tt, w1) /\
    runTransformWorkflow_sized env2 fuel2 SourceDb TargetDb transformModulePath
      options (Some pageSize2) (Some chunkSize2) w = (Normal tt, w2) /\
    target w1 = target w2 /\ source w1 = source w2.
Proof.
  intros Hrel1 Hrel2 Hp1 Hp2 Hc1 Hc2 Hm1 Hm2 Hkeys Hexact _ Htf Hf1 Hf2.
  destruct (runTransformWorkflow_copies env1 fuel1 transformModulePath options
              pageSize1 chunkSize1 tf f w Hrel1 Hp1 Hc1 Hm1 Hkeys Hexact Htf Hf1)
    as (w1 & Hrun1 & Hs1 & Ht1).
  destruct (runTransformWorkflow_copies env2 fuel2 transformModulePath options
              pageSize2 chunkSize2 tf f w Hrel2 Hp2 Hc2 Hm2 Hkeys Hexact Htf Hf2)
    as (w2 & Hrun2 & Hs2 & Ht2).
  exists w1, w2. split; [done|]. split; [done|]. split; congruence.
Qed.

Lemma destination_independent_of_sizes_and_schedule_witness :
  exists w1 w2,
    runTransformWorkflow_sized Examples.env 6 SourceDb TargetDb "/upper.js"
      None (Some 2) (Some 1) (Examples.world Examples.axbyc) = (Normal tt, w1) /\
    runTransformWorkflow_sized
      {| modules := modules Examples.env; resolve := resolve Examples.env;
         sched := fun _ _ => 0%nat; store_fails := fun _ => false |}
      9 SourceDb TargetDb "/upper.js"
      None (Some (-1)) (Some 1000) (Examples.world Examples.axbyc) = (Normal tt, w2) /\
    target w1 = target w2 /\ source w1 = source w2.
Proof.
  apply (destination_independent_of_sizes_and_schedule Examples.env
           {| modules := modules Examples.env; resolve := resolve Examples.env;
              sched := fun _ _ => 0%nat; store_fails := fun _ => false |}
           6 9 "/upper.js" None 2 (-1) 1 1000
           (fun s => Some (Examples.uppercase s)) Examples.uppercase
           (Examples.world Examples.axbyc)).
  - apply examples_env_reliable.
  - intros tr. reflexivity.
  - lia.
  - lia.
  - lia.
  - lia.
  - reflexivity.
  - reflexivity.
  - apply examples_axbyc_well_keyed.
  - apply examples_axbyc_exact.
  - by vm_compute.
  - apply examples_axbyc_uppercase.
  - simpl. lia.
  - simpl. lia.
Defined.

(** What a transaction adds, rowids apart. *)
Lemma insert_transaction_content (records : list MdxRecord) (t : Table) :
  row_content <$> drop (length t) (insert_transaction records t).2
  = (fun r => (entry r, paraphrase r, Some (stored_kind r))) <$> records.
Proof.
  destruct (insert_transaction_rows records t) as (new & Ht & Hst & _).
  rewrite Ht, drop_app_length. clear Ht.
  induction Hst as [|r row records new (He & Hp & Hc) _ IH]; [done|].
  rewrite !fmap_cons, IH. f_equal. unfold row_content. by rewrite He, Hp, Hc.
Qed.

Lemma filter_row_content (c : Z) (rows : list Row) :
  row_content <$> filter (fun r => row_content_type r = Some c) rows
  = filter (fun x => x.2 = Some c) (row_content <$> rows).
Proof.
  induction rows as [|r rows IH]; [done|].
  rewrite fmap_cons, (filter_cons (fun r => row_content_type r = Some c)),
          (filter_cons (fun x : string * string * option Z => x.2 = Some c)).
  simpl. destruct (decide (row_content_type r = Some c)); by rewrite <- IH.
Qed.

Lemma regroup_processed (f : string -> string) (A : list MdxRecord) :
  Forall (fun r => content_type r = Some ContentType.HTML \/
                   content_type r = Some ContentType.LINK) A ->
  filter (fun x : string * string * option Z => x.2 = Some ContentType.HTML)
    ((fun r => (entry r, paraphrase r, Some (stored_kind r))) <$>
       (process_record f <$> A))
  = (fun r => (entry r, paraphrase r, Some (stored_kind r))) <$>
      (apply_transform f <$> filter (fun r => has_type ContentType.HTML r) A) /\
  filter (fun x : string * string * option Z => x.2 = Some ContentType.LINK)
    ((fun r => (entry r, paraphrase r, Some (stored_kind r))) <$>
       (process_record f <$> A))
  = (fun r => (entry r, paraphrase r, Some (stored_kind r))) <$>
      filter (fun r => has_type ContentType.LINK r) A.
Proof.
  induction 1 as [|r A Hr _ [IHh IHl]]; [done|].
  rewrite !fmap_cons, !filter_cons_bool.
  rewrite (filter_cons (fun x : string * string * option Z => x.2 = Some ContentType.HTML)),
          (filter_cons (fun x : string * string * option Z => x.2 = Some ContentType.LINK)).
  rewrite IHh, IHl. destruct Hr as [Hr|Hr].
  - assert (Hh : has_type ContentType.HTML r = true) by (unfold has_type; by rewrite Hr).
    assert (Hl : has_type ContentType.LINK r = false) by (unfold has_type; by rewrite Hr).
    assert (Hp : process_record f r = apply_transform f r)
      by (unfold process_record; by rewrite Hh).
    assert (Hk : stored_kind (apply_transform f r) = ContentType.HTML)
      by (unfold stored_kind; simpl; by rewrite Hr).
    rewrite Hh, Hl, Hp. cbn [snd]. rewrite Hk.
    rewrite decide_True by done. rewrite decide_False by done.
    rewrite !fmap_cons, Hk. done.
  - assert (Hh : has_type ContentType.HTML r = false) by (unfold has_type; by rewrite Hr).
    assert (Hl : has_type ContentType.LINK r = true) by (unfold has_type; by rewrite Hr).
    assert (Hp : process_record f r = r) by (unfold process_record; by rewrite Hh).
    assert (Hk : stored_kind r = ContentType.LINK)
      by (unfold stored_kind; by rewrite Hr).
    rewrite Hh, Hl, Hp. cbn [snd]. rewrite Hk.
    rewrite decide_False by done. rewrite decide_True by done.
    rewrite !fmap_cons, Hk. done.
Qed.

(** X7. The HTML-first mode regroups what the default mode writes: on a
    source with unique positive rowids of at most 2^53, which JavaScript
    numbers hold exactly, whose rows are all HTML or LINK records, the rows
    a complete HTML-first run adds to the destination are, rowids apart,
    the HTML rows the default run adds, in the same order, followed by the
    LINK rows it adds, in the same order. *)
Theorem html_first_mode_regroups_default_mode (env : Env) (fuel : nat)
    (transformModulePath : string) (pageSize chunkSize : Z)
    (tf : TransformFn) (f : string -> string) (w : World) :
  store_reliable env ->
  pageSize <> 0 -> 0 < chunkSize ->
  modules env (resolve env transformModulePath) = Some (Importable (ExportFunction tf)) ->
  well_keyed (source w) ->
  exact_rowids (source w) ->
  transforms_html tf f (source w) ->
  (length (source w) < fuel)%nat ->
  known_kinds (source w) ->
  exists w1 w2,
    runTransformWorkflow_sized env fuel SourceDb TargetDb transformModulePath
      None (Some pageSize) (Some chunkSize) w = (Normal tt, w1) /\
    runTransformWorkflow_sized env fuel SourceDb TargetDb transformModulePath
      (Some {| htmlBeforeLink := Some true |}) (Some pageSize) (Some chunkSize) w
    = (Normal tt, w2) /\
    row_content <$> drop (length (target w)) (target w2)
    = row_content <$>
        (filter (fun r => row_content_type r = Some ContentType.HTML)
                (drop (length (target w)) (target w1)) ++
         filter (fun r => row_content_type r = Some ContentType.LINK)
                (drop (length (target w)) (target w1))).
Proof.
  intros Hrel Hpage Hchunk Hmod Hkeys Hexact Htf Hfuel Hknown.
  destruct (runTransformWorkflow_copies env fuel transformModulePath None
              pageSize chunkSize tf f w Hrel Hpage Hchunk Hmod Hkeys Hexact Htf Hfuel)
    as (w1 & Hrun1 & _ & Ht1).
  destruct (runTransformWorkflow_copies env fuel transformModulePath
              (Some {| htmlBeforeLink := Some true |})
              pageSize chunkSize tf f w Hrel Hpage Hchunk Hmod Hkeys Hexact Htf Hfuel)
    as (w2 & Hrun2 & _ & Ht2).
  exists w1, w2. split; [done|]. split; [done|].
  rewrite fmap_app, !filter_row_content, Ht1, Ht2, !insert_transaction_content.
  unfold copied_records. simpl.
  assert (Hall : Forall (fun r => content_type r = Some ContentType.HTML \/
                                  content_type r = Some ContentType.LINK)
                   (select_all (source w) None)).
  { apply Forall_forall. intros r [row [-> Hrow]]%list_elem_of_fmap.
    apply elem_of_matching_rows in Hrow as [_ Hrow].
    unfold known_kinds in Hknown. rewrite Forall_forall in Hknown.
    destruct (Hknown row Hrow) as [Hc|Hc]; [left|right];
      by apply content_type_to_record. }
  destruct (regroup_processed f _ Hall) as [-> ->].
  rewrite fmap_app. f_equal.
  - f_equal. f_equal. rewrite select_all_any, filter_has_type_to_record by done.
    unfold select_all.
    by rewrite (filter_order_by_rowid (fun r => where_content_type (Some _) r)).
  - f_equal. rewrite select_all_any, filter_has_type_to_record by done.
    unfold select_all.
    by rewrite (filter_order_by_rowid (fun r => where_content_type (Some _) r)).
Qed.

Lemma html_first_mode_regroups_default_mode_witness :
  exists w1 w2,
    runTransformWorkflow_sized Examples.env 6 SourceDb TargetDb "/upper.js"
      None (Some 2) (Some 1) (Examples.world Examples.axbyc) = (Normal tt, w1) /\
    runTransformWorkflow_sized Examples.env 6 SourceDb TargetDb "/upper.js"
      (Some {| htmlBeforeLink := Some true |}) (Some 2) (Some 1)
      (Examples.world Examples.axbyc)
    = (Normal tt, w2) /\
    row_content <$> drop (length (target (Examples.world Examples.axbyc))) (target w2)
    = row_content <$>
        (filter (fun r => row_content_type r = Some ContentType.HTML)
                (drop (length (target (Examples.world Examples.axbyc))) (target w1)) ++
         filter (fun r => row_content_type r = Some ContentType.LINK)
                (drop (length (target (Examples.world Examples.axbyc))) (target w1))).
Proof.
  apply (html_first_mode_regroups_default_mode Examples.env 6 "/upper.js" 2 1
           (fun s => Some (Examples.uppercase s)) Examples.uppercase
           (Examples.world Examples.axbyc)).
  - apply examples_env_reliable.
  - lia.
  - lia.
  - reflexivity.
  - apply examples_axbyc_well_keyed.
  - apply examples_axbyc_exact.
  - apply examples_axbyc_uppercase.
  - simpl. lia.
  - apply examples_axbyc_known_kinds.
Defined.

(** * Further properties: records by headword *)

Lemma elem_of_foldl_Set_add (values set : list string) (e : string) :
  e ∈ foldl Set_add set values <-> e ∈ set \/ e ∈ values.
Proof.
  revert set. induction values as [|v values IH]; intros set; simpl.
  - rewrite elem_of_nil. tauto.
  - rewrite IH, elem_of_cons. unfold Set_add. case_bool_decide as Hv.
    + split; [tauto|]. intros [H|[->|H]]; tauto.
    + rewrite elem_of_app, list_elem_of_singleton. tauto.
Qed.

Lemma elem_of_new_Set (values : list string) (e : string) :
  e ∈ new_Set values <-> e ∈ values.
Proof. unfold new_Set. rewrite elem_of_foldl_Set_add, elem_of_nil. tauto. Qed.



Lemma select_by_entries_new_Set (t : Table) (entries : list string) :
  select_by_entries t (new_Set entries) = select_by_entries t entries.
Proof.
  unfold select_by_entries. f_equal. f_equal. apply list_filter_iff.
  intros r. apply elem_of_new_Set.
Qed.

Lemma forEach_console_warn (f : string -> string) (l : list string) (s : Session) :
  forEach (fun e => console_warn (f e)) l s = (Normal tt, add_warnings (f <$> l) s).
Proof.
  revert s. induction l as [|e l IH]; intros s; simpl.
  - unfold ret, add_warnings. rewrite app_nil_r. by destruct s.
  - unfold bind, console_warn, modify. rewrite IH. unfold add_warnings. simpl.
    by rewrite <- app_assoc.
Qed.

Lemma in_world_store_call env (ev : Event) (s : Session) :
  in_world (store_call env ev) s
  = (if store_fails env (trace (world s) ++ [ev]) then Throw SqliteError else Normal tt,
     set_world (add_trace [ev] (world s)) s).
Proof.
  unfold in_world, store_call, bind, log, modify, get. simpl.
  by destruct (store_fails env _).
Qed.

(** [fetchRecordsByEntries], run: the three ways it ends. *)
Lemma fetchRecordsByEntries_run env (this : MdxDatabase) (entries : list string)
    (s : Session) :
  fetchRecordsByEntries env this entries s
  = if max_variable_number <? Z.of_nat (length (new_Set entries))
    then (Throw SqliteError, s)
    else if store_fails env (trace (world s) ++ [EvQueryEntries this (new_Set entries)])
    then (Throw SqliteError, queried this entries s)
    else (Normal (select_by_entries (table this (world s)) entries),
          add_warnings (not_found_warnings (table this (world s)) entries)
            (queried this entries s)).
Proof.
  unfold fetchRecordsByEntries. unfold bind at 1.
  destruct (max_variable_number <? _); [done|]. unfold ret at 1.
  unfold bind at 1. rewrite in_world_store_call. fold (queried this entries s).
  destruct (store_fails env _); [done|].
  unfold bind, get. rewrite select_by_entries_new_Set.
  rewrite (forEach_console_warn not_found_warning). unfold ret.
  replace (table this (world (queried this entries s))) with (table this (world s))
    by by destruct this.
  f_equal. f_equal. unfold not_found_warnings. f_equal.
  apply list_filter_iff. intros e. by rewrite elem_of_new_Set.
Qed.

Lemma fetchRecordsByEntries_answered env (this : MdxDatabase) (entries : list string)
    (s : Session) :
  lookup_answered env this entries s ->
  fetchRecordsByEntries env this entries s
  = (Normal (select_by_entries (table this (world s)) entries),
     add_warnings (not_found_warnings (table this (world s)) entries)
       (queried this entries s)).
Proof.
  intros [Hmax Hok]. rewrite fetchRecordsByEntries_run, Hok.
  by destruct (Z.ltb_spec max_variable_number (Z.of_nat (length (new_Set entries))));
    [lia|].
Qed.


Lemma length_new_Set (values : list string) :
  (length (new_Set values) <= length values)%nat.
Proof.
  assert (forall set, (length (foldl Set_add set values)
                       <= length set + length values)%nat) as H; [|apply (H [])].
  induction values as [|v values IH]; intros set; simpl; [lia|].
  etransitivity; [apply IH|]. unfold Set_add. case_bool_decide; [lia|].
  rewrite length_app. simpl. lia.
Qed.



Lemma filter_delete_by_entries_same (t : Table) (entries : list string) :
  filter (fun r => row_entry r ∈ entries) (delete_by_entries t entries) = [].
Proof.
  apply filter_none, Forall_forall. unfold delete_by_entries.
  by intros r [Hr _]%list_elem_of_filter.
Qed.

Lemma filter_delete_by_entries_other (t : Table) (entries others : list string) :
  (forall e, e ∈ others -> e ∉ entries) ->
  filter (fun r => row_entry r ∈ others) (delete_by_entries t entries)
  = filter (fun r => row_entry r ∈ others) t.
Proof.
  intros Hdisj. unfold delete_by_entries.
  rewrite (list_filter_filter (fun r => row_entry r ∈ others)
             (fun r => row_entry r ∉ entries)).
  apply list_filter_iff. intros r. split; [tauto|]. intros Hr. split; [done|].
  by apply Hdisj.
Qed.

Lemma table_set_table (this : MdxDatabase) (t : Table) (w : World) :
  table this (set_table this t w) = t.
Proof. by destruct this. Qed.

Lemma in_world_deleteRecords (this : MdxDatabase) (entries : list string)
    (s : Session) :
  in_world (deleteRecords this entries) s
  = (Normal tt,
     set_world (set_table this (delete_by_entries (table this (world s)) entries)
                  (world s)) s).
Proof. done. Qed.

Lemma lookup_answered_reliable env (this : MdxDatabase) (entries : list string)
    (s : Session) :
  store_reliable env ->
  Z.of_nat (length (new_Set entries)) <= max_variable_number ->
  lookup_answered env this entries s.
Proof. intros Hrel Hmax. split; [done|apply Hrel]. Qed.

(** X9. Delete, then look up, on a store that does not fail and with at
    most 32766 entries (the most one statement takes): after
    [deleteRecords] with some entries, [fetchRecordsByEntries] with the
    same entries returns nothing and warns once for each distinct entry,
    while a look-up of entries that were not deleted returns what it
    returned before the deletion. *)
Theorem deleteRecords_then_fetchRecordsByEntries (env : Env) (this : MdxDatabase)
    (entries others : list string) (s : Session) :
  store_reliable env ->
  Z.of_nat (length entries) <= max_variable_number ->
  let deleted :=
    set_world (set_table this (delete_by_entries (table this (world s)) entries)
                 (world s)) s in
  (let* _ := in_world (deleteRecords this entries) in
   fetchRecordsByEntries env this entries) s
  = (Normal [],
     add_warnings (not_found_warning <$> new_Set entries)
       (queried this entries deleted)) /\
  (Z.of_nat (length (new_Set others)) <= max_variable_number ->
   (forall e, e ∈ others -> e ∉ entries) ->
   ((let* _ := in_world (deleteRecords this entries) in
     fetchRecordsByEntries env this others) s).1
   = (fetchRecordsByEntries env this others s).1).
Proof.
  intros Hrel Hmax deleted.
  assert (Hset : Z.of_nat (length (new_Set entries)) <= max_variable_number).
  { pose proof (length_new_Set entries). lia. }
  split.
  - unfold bind at 1. rewrite in_world_deleteRecords. fold deleted.
    rewrite fetchRecordsByEntries_answered by by apply lookup_answered_reliable.
    replace (table this (world deleted))
      with (delete_by_entries (table this (world s)) entries)
      by (unfold deleted; simpl; by rewrite table_set_table).
    unfold not_found_warnings, select_by_entries.
    rewrite filter_delete_by_entries_same. simpl.
    f_equal. f_equal. f_equal. apply filter_all, Forall_forall.
    intros e _. apply not_elem_of_nil.
  - intros Hothers Hdisj. unfold bind at 1. rewrite in_world_deleteRecords.
    fold deleted.
    rewrite !fetchRecordsByEntries_answered by by apply lookup_answered_reliable.
    replace (table this (world deleted))
      with (delete_by_entries (table this (world s)) entries)
      by (unfold deleted; simpl; by rewrite table_set_table).
    unfold select_by_entries. by rewrite filter_delete_by_entries_other.
Qed.

Lemma deleteRecords_then_fetchRecordsByEntries_witness :
  let s := DebugExamples.session Examples.axbyc in
  let entries := ["a"; "x"; "a"]%string in
  let deleted :=
    set_world (set_table SourceDb (delete_by_entries (table SourceDb (world s)) entries)
                 (world s)) s in
  ((let* _ := in_world (deleteRecords SourceDb entries) in
    fetchRecordsByEntries Examples.env SourceDb entries) s
   = (Normal [],
      add_warnings (not_found_warning <$> new_Set entries)
        (queried SourceDb entries deleted)) /\
   (Z.of_nat (length (new_Set ["b"]%string)) <= max_variable_number ->
    (forall e, e ∈ ["b"]%string -> e ∉ entries) ->
    ((let* _ := in_world (deleteRecords SourceDb entries) in
      fetchRecordsByEntries Examples.env SourceDb ["b"]%string) s).1
    = (fetchRecordsByEntries Examples.env SourceDb ["b"]%string s).1)) /\
  row_entry <$> table SourceDb (world deleted) = ["b"; "y"; "c"]%string.
Proof.
  intros s entries deleted. split.
  - apply (deleteRecords_then_fetchRecordsByEntries Examples.env SourceDb entries
             ["b"]%string s).
    + apply examples_env_reliable.
    + by vm_compute.
  - by vm_compute.
Defined.

Lemma foldr_max_le (x b : Z) (l : list Z) :
  x <= b -> Forall (fun y => y <= b) l -> foldr Z.max x l <= b.
Proof. intros Hx. induction 1; simpl; lia. Qed.

Lemma next_rowid_le (t : Table) (b : Z) :
  0 < b -> Forall (fun r => row_id r < b) t -> next_rowid t <= b.
Proof.
  intros Hb Ht. unfold next_rowid. destruct t as [|r t]; simpl; [lia|].
  apply Forall_cons in Ht as [Hr Ht]. refold_fmap.
  assert (foldr Z.max (row_id r) (row_id <$> t) <= b - 1); [|lia].
  apply foldr_max_le; [lia|]. apply Forall_fmap.
  eapply Forall_impl; [exact Ht|]. intros x Hx. simpl in *. lia.
Qed.

(** X10. A rowid is not retired with its row: when the row with the
    largest rowid is among those [deleteRecords] removes, the row that the
    next [insertRecords] adds gets a rowid no larger than the one that row
    had. *)
Theorem deleteRecords_frees_rowids (env : Env) (this : MdxDatabase)
    (entries : list string) (record : MdxRecord) (w : World) (r : Row) :
  store_reliable env ->
  well_keyed (table this w) ->
  r ∈ table this w ->
  (forall r', r' ∈ table this w -> row_id r' <= row_id r) ->
  row_entry r ∈ entries ->
  exists out w' row,
    (let* _ := deleteRecords this entries in insertRecords env this [record]) w
    = (Normal out, w') /\
    last (table this w') = Some row /\
    stores record row /\
    row_id row <= row_id r.
Proof.
  intros Hrel [Hnodup Hpos] Hr Hmax He.
  eexists _, _, _. split.
  { unfold bind at 1. unfold deleteRecords, modify. by apply insertRecords_ok. }
  simpl. rewrite !table_set_table. unfold insert_row_values.
  split; [apply last_snoc|]. split; [done|]. simpl.
  apply next_rowid_le.
  - rewrite Forall_forall in Hpos. by apply Hpos.
  - apply Forall_forall. intros r' [Hr' Hin]%list_elem_of_filter.
    assert (r' <> r) as Hne by (intros ->; done).
    pose proof (Hmax r' Hin).
    assert (row_id r' <> row_id r); [|lia].
    intros Heq. apply Hne.
    apply list_elem_of_lookup in Hin as [i Hi]. apply list_elem_of_lookup in Hr as [j Hj].
    assert (i = j).
    { apply (NoDup_lookup _ i j (row_id r') Hnodup);
        rewrite list_lookup_fmap; [by rewrite Hi|by rewrite Hj, Heq]. }
    subst j. congruence.
Qed.

Lemma deleteRecords_frees_rowids_witness :
  exists out w' row,
    (let* _ := deleteRecords SourceDb ["c"]%string in
     insertRecords Examples.env SourceDb
       [ {| entry := "d"; paraphrase := "<p>d</p>";
            content_type := None; rowid := None |} ]%string)
      (Examples.world Examples.axbyc)
    = (Normal out, w') /\
    last (table SourceDb w') = Some row /\
    stores {| entry := "d"; paraphrase := "<p>d</p>";
              content_type := None; rowid := None |}%string row /\
    row_id row <= row_id (Examples.html 5 "c" "<p>c</p>").
Proof.
  apply (deleteRecords_frees_rowids Examples.env SourceDb ["c"]%string
           {| entry := "d"; paraphrase := "<p>d</p>";
              content_type := None; rowid := None |}%string
           (Examples.world Examples.axbyc) (Examples.html 5 "c" "<p>c</p>")).
  - apply examples_env_reliable.
  - apply examples_axbyc_well_keyed.
  - do 4 apply list_elem_of_further. apply list_elem_of_here.
  - intros r' Hr'. simpl in Hr'. unfold Examples.axbyc in Hr'.
    repeat (apply elem_of_cons in Hr' as [->|Hr']; [simpl; lia|]).
    by apply elem_of_nil in Hr'.
  - apply (bool_decide_unpack _). vm_compute. exact I.
Defined.



(** * Further properties: database files, the constructor, the registry *)

Lemma new_Database_existing (filename : string) (options : option DatabaseOptions)
    (file : DbFile) (s : Process) :
  disk s !! filename = Some file ->
  new_Database filename options s
  = (Normal (length (connections s)),
     set_connections
       (connections s ++ [opened filename (truthy (options ≫= readonly))]) s).
Proof. intros Hfile. unfold new_Database, bind, get. by rewrite Hfile. Qed.

Lemma new_Database_missing (filename : string) (options : option DatabaseOptions)
    (s : Process) :
  disk s !! filename = None ->
  new_Database filename options s
  = if truthy (options ≫= readonly) || truthy (options ≫= fileMustExist)
    then (Throw SqliteError, s)
    else (Normal (length (connections s)),
          set_connections
            (connections s ++ [opened filename (truthy (options ≫= readonly))])
            (set_disk (<[filename := NoTable]> (disk s)) s)).
Proof.
  intros Hfile. unfold new_Database, bind, get. rewrite Hfile.
  by destruct (truthy (options ≫= readonly) || truthy (options ≫= fileMustExist)).
Qed.

Lemma prepare_open (db : nat) (c : Connection) (s : Process) :
  connections s !! db = Some c -> conn_open c = true ->
  prepare db s = (Normal c, s).
Proof. intros Hc Hopen. unfold prepare, bind, get. by rewrite Hc, Hopen. Qed.

Lemma run_write_ok (c : Connection) (f : DbFile -> option DbFile)
    (file file' : DbFile) (s : Process) :
  conn_readonly c = false ->
  disk s !! conn_name c = Some file -> f file = Some file' ->
  run_write c f s = (Normal tt, set_disk (<[conn_name c := file']> (disk s)) s).
Proof.
  intros Hrw Hfile Hf. unfold run_write, bind, get. rewrite Hrw, Hfile. simpl.
  by rewrite Hf.
Qed.

Lemma run_write_refused (c : Connection) (f : DbFile -> option DbFile)
    (file : DbFile) (s : Process) :
  disk s !! conn_name c = Some file -> f file = None ->
  run_write c f s = (Throw SqliteError, s).
Proof.
  intros Hfile Hf. unfold run_write, bind, get. destruct (conn_readonly c); [done|].
  rewrite Hfile. simpl. by rewrite Hf.
Qed.


(** [optimize] when the table has the column: nothing happens. *)
Lemma optimize_skip (this : nat) (c : Connection) (rows : Table) (s : Process) :
  connections s !! this = Some c -> conn_open c = true ->
  disk s !! conn_name c = Some (MdxTable true rows) ->
  optimize this s = (Normal tt, s).
Proof.
  intros Hc Hopen Hfile. unfold optimize.
  unfold bind at 1. rewrite (prepare_open _ _ _ Hc) by done.
  unfold bind at 1, get. by rewrite Hfile.
Qed.

Lemma lookup_snoc_length {A} (l : list A) (x : A) : (l ++ [x]) !! length l = Some x.
Proof. by rewrite lookup_app_r, Nat.sub_diag. Qed.

Lemma optimized_rows (rows : Table) :
  (fun r => {| row_id := row_id r; row_entry := row_entry r;
               row_paraphrase := row_paraphrase r;
               row_content_type :=
                 Some (if like_prefix "@@@LINK=" (row_paraphrase r)
                       then ContentType.LINK else ContentType.HTML) |}) <$>
    ((fun r => {| row_id := row_id r; row_entry := row_entry r;
                  row_paraphrase := row_paraphrase r;
                  row_content_type := None |}) <$> rows)
  = optimized rows.
Proof. unfold optimized. by rewrite <- list_fmap_compose. Qed.

(** [optimize] when the table has no column [content_type]: a second
    connection adds the column, gives every row its kind, and is closed. *)
Lemma optimize_run (this : nat) (filename : string) (ro : bool) (rows : Table)
    (s : Process) :
  connections s !! this = Some (opened filename ro) ->
  disk s !! filename = Some (MdxTable false rows) ->
  optimize this s
  = (Normal tt,
     {| disk := <[filename := MdxTable true (optimized rows)]> (disk s);
        connections := connections s ++ [closed (opened filename false)];
        instances := instances s |}).
Proof.
  intros Hc Hfile. unfold optimize.
  unfold bind at 1. rewrite (prepare_open _ _ _ Hc) by done.
  unfold bind at 1, get. cbn [conn_name opened]. rewrite Hfile. cbn [has_content_type_column negb].
  unfold bind at 1. rewrite (new_Database_existing _ _ _ _ Hfile).
  cbn [mbind option_bind truthy default].
  set (s1 := set_connections (connections s ++ [opened filename false]) s).
  assert (Hdb : connections s1 !! length (connections s) = Some (opened filename false))
    by apply lookup_snoc_length.
  unfold bind at 1. rewrite (prepare_open _ _ _ Hdb) by done.
  unfold bind at 1.
  erewrite (run_write_ok _ add_content_type_column); [|done|exact Hfile|done].
  set (s2 := set_disk _ s1).
  unfold bind at 1. rewrite (prepare_open (length (connections s)) (opened filename false) s2)
    by done.
  unfold bind at 1.
  erewrite (run_write_ok _ update_content_type);
    [|done|apply lookup_insert_eq|done].
  set (s3 := set_disk _ s2).
  unfold bind at 1. rewrite (prepare_open (length (connections s)) (opened filename false) s3)
    by done.
  unfold bind at 1.
  erewrite (run_write_ok _ create_index);
    [|done|apply lookup_insert_eq|done].
  unfold Database_close, modify, set_connections, set_disk. simpl.
  rewrite !insert_insert_eq, optimized_rows.
  replace (length (connections s)) with (length (connections s) + 0)%nat at 1 by lia.
  by rewrite alter_app_r.
Qed.


Lemma elem_of_registered (this : nat) (ids : list nat) :
  this ∈ (if bool_decide (this ∈ ids) then ids else ids ++ [this]).
Proof.
  case_bool_decide; [done|]. apply elem_of_app. right. apply list_elem_of_here.
Qed.


Lemma known_kinds_optimized (rows : Table) : known_kinds (optimized rows).
Proof.
  apply Forall_fmap, Forall_forall. intros r _. simpl. unfold optimize_kind.
  destruct (like_prefix _ _); [by right|by left].
Qed.

Lemma well_keyed_optimized (rows : Table) :
  well_keyed rows -> well_keyed (optimized rows).
Proof.
  intros [Hnodup Hpos]. unfold optimized. split.
  - by rewrite <- list_fmap_compose.
  - apply Forall_fmap. eapply Forall_impl; [exact Hpos|]. by intros r Hr.
Qed.

(** The constructor as the commands call it for their input, on a table
    without the column. *)
Lemma new_MdxDatabase_optimize_run (filename : string) (rows : Table)
    (s : Process) :
  disk s !! filename = Some (MdxTable false rows) ->
  new_MdxDatabase filename input_options s
  = (Normal (length (connections s)),
     {| disk := <[filename := MdxTable true (optimized rows)]> (disk s);
        connections := connections s ++
                       [opened filename true; closed (opened filename false)];
        instances := if bool_decide (length (connections s) ∈ instances s)
                     then instances s
                     else instances s ++ [length (connections s)] |}).
Proof.
  intros Hfile. unfold new_MdxDatabase, input_options.
  cbn [mbind option_bind MdxDatabaseOptions.options
    MdxDatabaseOptions.initialize MdxDatabaseOptions.optimize truthy default].
  unfold bind at 1. rewrite (new_Database_existing _ _ _ _ Hfile).
  cbn [mbind option_bind readonly truthy default].
  unfold bind at 1, modify. cbn [instances set_instances set_connections].
  unfold bind at 1, ret at 1. unfold bind at 1.
  change (id true) with true. cbv iota.
  match goal with |- context [optimize _ ?st] => set (s1 := st) end.
  rewrite (optimize_run (length (connections s)) filename true rows s1);
    [|apply lookup_snoc_length|done].
  unfold ret. simpl. by rewrite <- app_assoc.
Qed.

(** X13. Opening a file whose table [mdx] has no column [content_type]
    the way the commands open their input (read-only, with [optimize])
    rewrites the table: every row keeps its rowid, headword and content and
    gets the kind LINK when its content starts with [@@@LINK=] in any
    letter case, HTML otherwise; so every row is an HTML or a LINK record
    afterwards, and unique positive rowids stay so.  No other file is
    touched. *)
Theorem new_MdxDatabase_optimize_classifies (filename : string) (rows : Table)
    (s : Process) :
  disk s !! filename = Some (MdxTable false rows) ->
  exists this s' rows',
    new_MdxDatabase filename input_options s = (Normal this, s') /\
    disk s' !! filename = Some (MdxTable true rows') /\
    (forall other, other <> filename -> disk s' !! other = disk s !! other) /\
    row_id <$> rows' = row_id <$> rows /\
    row_entry <$> rows' = row_entry <$> rows /\
    row_paraphrase <$> rows' = row_paraphrase <$> rows /\
    Forall (fun r => row_content_type r
                     = Some (if like_prefix "@@@LINK=" (row_paraphrase r)
                             then ContentType.LINK else ContentType.HTML)) rows' /\
    known_kinds rows' /\
    (well_keyed rows -> well_keyed rows').
Proof.
  intros Hfile. exists (length (connections s)). eexists. exists (optimized rows).
  split; [by apply new_MdxDatabase_optimize_run|]. simpl.
  split; [apply lookup_insert_eq|].
  split; [intros other Hother; by apply lookup_insert_ne|].
  split; [unfold optimized; by rewrite <- list_fmap_compose|].
  split; [unfold optimized; by rewrite <- list_fmap_compose|].
  split; [unfold optimized; by rewrite <- list_fmap_compose|].
  split; [apply Forall_fmap, Forall_forall; by intros r _|].
  split; [apply known_kinds_optimized|apply well_keyed_optimized].
Qed.

Lemma new_MdxDatabase_optimize_classifies_witness :
  let rows := [ {| row_id := 1; row_entry := "a"; row_paraphrase := "<p>a</p>";
                   row_content_type := None |};
                {| row_id := 2; row_entry := "x"; row_paraphrase := "@@@link=a";
                   row_content_type := None |} ]%string in
  let s := {| disk := {[ "in.db"%string := MdxTable false rows ]};
              connections := []; instances := [] |} in
  exists this s' rows',
    new_MdxDatabase "in.db" input_options s = (Normal this, s') /\
    disk s' !! "in.db"%string = Some (MdxTable true rows') /\
    (forall other, other <> "in.db"%string -> disk s' !! other = disk s !! other) /\
    row_id <$> rows' = row_id <$> rows /\
    row_entry <$> rows' = row_entry <$> rows /\
    row_paraphrase <$> rows' = row_paraphrase <$> rows /\
    Forall (fun r => row_content_type r
                     = Some (if like_prefix "@@@LINK=" (row_paraphrase r)
                             then ContentType.LINK else ContentType.HTML)) rows' /\
    known_kinds rows' /\
    (well_keyed rows -> well_keyed rows').
Proof.
  intros rows s. apply (new_MdxDatabase_optimize_classifies "in.db" rows s).
  reflexivity.
Defined.

(** The same call on a table that has the column. *)
Lemma new_MdxDatabase_optimize_skip (filename : string) (rows : Table)
    (s : Process) :
  disk s !! filename = Some (MdxTable true rows) ->
  new_MdxDatabase filename input_options s
  = (Normal (length (connections s)),
     {| disk := disk s;
        connections := connections s ++ [opened filename true];
        instances := if bool_decide (length (connections s) ∈ instances s)
                     then instances s
                     else instances s ++ [length (connections s)] |}).
Proof.
  intros Hfile. unfold new_MdxDatabase, input_options.
  cbn [mbind option_bind MdxDatabaseOptions.options
    MdxDatabaseOptions.initialize MdxDatabaseOptions.optimize truthy default].
  unfold bind at 1. rewrite (new_Database_existing _ _ _ _ Hfile).
  cbn [mbind option_bind readonly truthy default].
  unfold bind at 1, modify. cbn [instances set_instances set_connections].
  unfold bind at 1, ret at 1. unfold bind at 1.
  change (id true) with true. cbv iota.
  match goal with |- context [optimize _ ?st] => set (s1 := st) end.
  rewrite (optimize_skip (length (connections s)) (opened filename true) rows s1);
    [done|apply lookup_snoc_length|done|done].
Qed.

(** The same call on a file without the table: the statement that adds the
    column fails, on the second connection, which stays open. *)
Lemma new_MdxDatabase_no_table (filename : string) (s : Process) :
  disk s !! filename = Some NoTable ->
  new_MdxDatabase filename input_options s
  = (Throw SqliteError,
     {| disk := disk s;
        connections := connections s ++ [opened filename true; opened filename false];
        instances := if bool_decide (length (connections s) ∈ instances s)
                     then instances s
                     else instances s ++ [length (connections s)] |}).
Proof.
  intros Hfile. unfold new_MdxDatabase, input_options.
  cbn [mbind option_bind MdxDatabaseOptions.options
    MdxDatabaseOptions.initialize MdxDatabaseOptions.optimize truthy default].
  unfold bind at 1. rewrite (new_Database_existing _ _ _ _ Hfile).
  cbn [mbind option_bind readonly truthy default].
  unfold bind at 1, modify. cbn [instances set_instances set_connections].
  unfold bind at 1, ret at 1. unfold bind at 1.
  change (id true) with true. cbv iota.
  match goal with |- context [optimize _ ?st] => set (s1 := st) end.
  unfold optimize.
  unfold bind at 1.
  rewrite (prepare_open (length (connections s)) (opened filename true) s1);
    [|apply lookup_snoc_length|done].
  unfold bind at 1, get. cbn [conn_name opened].
  replace (disk s1 !! filename) with (Some NoTable) by done.
  cbn [has_content_type_column negb].
  unfold bind at 1. rewrite (new_Database_existing filename None NoTable s1) by done.
  cbn [mbind option_bind truthy default].
  unfold bind at 1.
  match goal with |- context [prepare _ ?st] => set (s2 := st) end.
  rewrite (prepare_open (length (connections s1)) (opened filename false) s2);
    [|apply lookup_snoc_length|done].
  unfold bind at 1.
  rewrite (run_write_refused (opened filename false) add_content_type_column NoTable s2)
    by done.
  subst s2 s1. unfold set_connections. simpl. by rewrite <- app_assoc.
Qed.

(** The same call on a file that is not there: a read-only connection
    does not make it. *)
Lemma new_MdxDatabase_missing (filename : string) (s : Process) :
  disk s !! filename = None ->
  new_MdxDatabase filename input_options s = (Throw SqliteError, s).
Proof.
  intros Hfile. unfold new_MdxDatabase, input_options.
  cbn [mbind option_bind MdxDatabaseOptions.options
    MdxDatabaseOptions.initialize MdxDatabaseOptions.optimize truthy default].
  unfold bind at 1. by rewrite (new_Database_missing _ _ _ Hfile).
Qed.

(** X14. [optimize] acts once: a table that has the column
    [content_type] is left exactly as it is, whatever its rows hold in that
    column; so opening an input file a second time changes nothing that
    the first opening left on disk. *)
Theorem new_MdxDatabase_optimize_acts_once (filename : string) (s : Process) :
  (forall rows,
     disk s !! filename = Some (MdxTable true rows) ->
     disk (new_MdxDatabase filename input_options s).2 = disk s) /\
  disk ((let* _ := new_MdxDatabase filename input_options in
         new_MdxDatabase filename input_options) s).2
  = disk (new_MdxDatabase filename input_options s).2.
Proof.
  split.
  - intros rows Hfile. by rewrite (new_MdxDatabase_optimize_skip _ _ _ Hfile).
  - unfold bind. destruct (disk s !! filename) as [[|[|] rows]|] eqn:Hfile.
    + by rewrite (new_MdxDatabase_no_table _ _ Hfile).
    + rewrite (new_MdxDatabase_optimize_skip _ _ _ Hfile).
      erewrite new_MdxDatabase_optimize_skip; [done|exact Hfile].
    + rewrite (new_MdxDatabase_optimize_run _ _ _ Hfile).
      erewrite new_MdxDatabase_optimize_skip; [done|]. simpl. apply lookup_insert_eq.
    + by rewrite (new_MdxDatabase_missing _ _ Hfile).
Qed.

Lemma like_fold_refl (pattern text : string) :
  String.prefix pattern text = true -> like_prefix pattern text = true.
Proof.
  revert text. induction pattern as [|p pattern IH]; intros text; [done|].
  destruct text as [|c text]; simpl; [done|].
  destruct (Ascii.ascii_dec p c) as [->|Hne]; [|done].
  intros H%IH. rewrite H. by rewrite bool_decide_true.
Qed.

(** X15. The two rules that give a record its kind agree only up to
    letter case: whenever [insertRecords] stores a record that came without
    a kind as LINK, [optimize] makes a row with the same content LINK too;
    but a content that starts with [@@@link=] in lower case is LINK for
    [optimize] and HTML for [insertRecords]. *)
Theorem optimize_kind_covers_stored_kind :
  (forall r : MdxRecord,
     content_type r = None ->
     stored_kind r = ContentType.LINK ->
     optimize_kind (paraphrase r) = ContentType.LINK) /\
  (forall r : MdxRecord,
     content_type r = None ->
     optimize_kind (paraphrase r) = ContentType.HTML ->
     stored_kind r = ContentType.HTML) /\
  (let r := {| entry := "x"; paraphrase := "@@@link=a";
               content_type := None; rowid := None |}%string in
   stored_kind r = ContentType.HTML /\
   optimize_kind (paraphrase r) = ContentType.LINK /\
   row_content_type <$>
     (insert_transaction [r] []).2 = [Some ContentType.HTML] /\
   row_content_type <$>
     optimized [ {| row_id := 1; row_entry := "x"; row_paraphrase := "@@@link=a";
                    row_content_type := None |}%string ] = [Some ContentType.LINK]).
Proof.
  split; [|split].
  - intros r Hnone. unfold stored_kind, optimize_kind. rewrite Hnone.
    destruct (String.prefix "@@@LINK=" (paraphrase r)) eqn:Hp; [|done].
    by rewrite (like_fold_refl _ _ Hp).
  - intros r Hnone. unfold stored_kind, optimize_kind. rewrite Hnone.
    destruct (String.prefix "@@@LINK=" (paraphrase r)) eqn:Hp; [|done].
    by rewrite (like_fold_refl _ _ Hp).
  - repeat split.
Qed.



Lemma filter_iff_in {A} (P Q : A -> Prop) `{!forall x, Decision (P x)}
    `{!forall x, Decision (Q x)} (l : list A) :
  (forall x, x ∈ l -> P x <-> Q x) -> filter P l = filter Q l.
Proof.
  induction l as [|a l IH]; intros Hl; [done|].
  rewrite !filter_cons, IH by (intros x Hx; apply Hl; by apply list_elem_of_further).
  pose proof (Hl a (list_elem_of_here _ _)).
  destruct (decide (P a)), (decide (Q a)); tauto || done.
Qed.

Lemma close_run (this : nat) (s : Process) :
  close this s
  = (Normal tt,
     {| disk := disk s; connections := alter closed this (connections s);
        instances := filter (fun i => i <> this) (instances s) |}).
Proof. reflexivity. Qed.

(** The loop of [closeAll]: every pending instance that is registered
    when its turn comes is closed and taken off the registry. *)
Lemma closeAll_loop_run (pending : list nat) (s : Process) :
  exists s',
    closeAll_loop pending s = (Normal tt, s') /\
    disk s' = disk s /\
    instances s' = filter (fun i => i ∉ pending) (instances s) /\
    (forall i, connections s' !! i
               = (fun c => if bool_decide (i ∈ pending /\ i ∈ instances s)
                           then closed c else c) <$> connections s !! i).
Proof.
  revert s. induction pending as [|this rest IH]; intros s.
  - exists s. split; [done|]. split; [done|]. split.
    + symmetry. apply filter_all, Forall_forall. intros i _. apply not_elem_of_nil.
    + intros i. by destruct (connections s !! i) as [c|].
  - simpl. unfold bind at 1, get. case_bool_decide as Hreg.
    + unfold bind at 1. rewrite close_run.
      destruct (IH {| disk := disk s; connections := alter closed this (connections s);
                      instances := filter (fun i => i <> this) (instances s) |})
        as (s' & Hrun & Hdisk & Hinst & Hconn).
      exists s'. split; [done|]. split; [done|]. simpl in *. split.
      * rewrite Hinst, (list_filter_filter (fun i => i ∉ rest) (fun i => i <> this)).
        apply list_filter_iff. intros i. rewrite not_elem_of_cons. tauto.
      * intros i. rewrite Hconn, list_lookup_alter.
        destruct (decide (this = i)) as [->|Hne].
        -- destruct (connections s !! i) as [c|]; simpl; [|done].
           rewrite bool_decide_false, bool_decide_true; [done| |].
           ++ split; [apply list_elem_of_here|done].
           ++ intros [_ [? _]%list_elem_of_filter]. done.
        -- destruct (connections s !! i) as [c|]; simpl; [|done].
           assert (Hiff : i ∈ rest /\ i ∈ filter (fun i0 => i0 <> this) (instances s)
                          <-> i ∈ this :: rest /\ i ∈ instances s).
           { rewrite list_elem_of_filter, elem_of_cons. split; [tauto|].
             intros [[?|?] ?]; [congruence|split; [done|]; split; [congruence|done]]. }
           by rewrite (bool_decide_ext _ _ Hiff).
    + unfold bind at 1, ret at 1.
      destruct (IH s) as (s' & Hrun & Hdisk & Hinst & Hconn).
      exists s'. split; [done|]. split; [done|]. split.
      * rewrite Hinst. apply filter_iff_in. intros i Hi. rewrite not_elem_of_cons.
        split; [|tauto]. intros Hrest. split; [|done]. by intros ->.
      * intros i. rewrite Hconn.
        destruct (connections s !! i) as [c|]; simpl; [|done].
        assert (Hiff : i ∈ rest /\ i ∈ instances s
                       <-> i ∈ this :: rest /\ i ∈ instances s).
        { rewrite elem_of_cons. split; [tauto|]. intros [[->|?] ?]; [done|tauto]. }
        by rewrite (bool_decide_ext _ _ Hiff).
Qed.

(** X17. [closeAll] closes every registered instance and leaves the
    registry empty, although [close] takes each instance off the registry
    while the loop walks it; connections that are not registered, and the
    files, are left as they are. *)
Theorem closeAll_closes_every_instance (s : Process) :
  exists s',
    closeAll s = (Normal tt, s') /\
    instances s' = [] /\
    disk s' = disk s /\
    (forall i c, connections s !! i = Some c ->
       connections s' !! i = Some (if bool_decide (i ∈ instances s) then closed c else c)) /\
    length (connections s') = length (connections s).
Proof.
  destruct (closeAll_loop_run (instances s) s) as (s' & Hrun & Hdisk & Hinst & Hconn).
  exists s'. split; [done|]. split; [|split; [done|split]].
  - rewrite Hinst. apply filter_none, Forall_forall. by intros i Hi Hno.
  - intros i c Hc. rewrite Hconn, Hc. simpl.
    assert (Hiff : i ∈ instances s /\ i ∈ instances s <-> i ∈ instances s) by tauto.
    by rewrite (bool_decide_ext _ _ Hiff).
  - apply Nat.le_antisymm.
    + destruct (decide (length (connections s') <= length (connections s))%nat)
        as [|Hgt]; [done|].
      destruct (lookup_lt_is_Some_2 (connections s') (length (connections s)))
        as [c Hc]; [lia|].
      rewrite Hconn in Hc. rewrite (proj2 (lookup_ge_None _ _)) in Hc by lia. done.
    + destruct (decide (length (connections s) <= length (connections s'))%nat)
        as [|Hgt]; [done|].
      destruct (lookup_lt_is_Some_2 (connections s) (length (connections s')))
        as [c Hc]; [lia|].
      specialize (Hconn (length (connections s'))). rewrite Hc in Hconn. simpl in Hconn.
      rewrite (proj2 (lookup_ge_None _ _)) in Hconn by lia. done.
Qed.

(** X18. An input that cannot be opened: a file that is not there is not
    made, and nothing is registered; a file without the table [mdx] makes
    [optimize] throw after the instance is registered, on a second
    connection that is not closed, and [closeAll] closes the instance but
    not that connection. *)
Theorem input_database_errors (db : string) (s : Process) :
  (disk s !! db = None ->
   new_MdxDatabase db input_options s = (Throw SqliteError, s)) /\
  (disk s !! db = Some NoTable ->
   exists s',
     new_MdxDatabase db input_options s = (Throw SqliteError, s') /\
     disk s' = disk s /\
     (length (connections s) ∈ instances s') /\
     (S (length (connections s)) ∉ instances s ->
      connections (closeAll s').2 !! length (connections s)
      = Some (closed (opened db true)) /\
      connections (closeAll s').2 !! S (length (connections s))
      = Some (opened db false))).
Proof.
  split; [apply new_MdxDatabase_missing|].
  intros Hfile. rewrite (new_MdxDatabase_no_table _ _ Hfile).
  eexists. split; [done|]. split; [done|]. split; [apply elem_of_registered|].
  intros Hfresh.
  match goal with |- context [closeAll ?st] => set (s1 := st) end.
  destruct (closeAll_loop_run (instances s1) s1) as (s' & Hrun & _ & _ & Hconn).
  unfold closeAll, bind, get. rewrite Hrun. simpl. rewrite !Hconn. subst s1. simpl.
  split.
  - rewrite lookup_app_r, Nat.sub_diag by done. simpl.
    rewrite bool_decide_true; [done|]. split; apply elem_of_registered.
  - rewrite lookup_app_r by lia.
    replace (S (length (connections s)) - length (connections s))%nat with 1%nat by lia.
    simpl. rewrite bool_decide_false; [done|]. intros [Hin _].
    case_bool_decide; [done|].
    apply elem_of_app in Hin as [?|Hin%list_elem_of_singleton]; [done|lia].
Qed.

(** * Further properties: what every run of the transform workflow keeps *)

Section Preserved.
Context (env : Env) (I : World -> Prop) (transformModulePath : string).
Context (Hlog : forall w evs, I w -> I (add_trace evs w))
        (Htarget : forall w t, I w -> I (set_table TargetDb t w))
        (Hpool : forall w, I w -> I (set_pools (pools w ++ [fresh_pool]) w))
        (Htask : forall w pool chunk,
                   I w -> I (run_task env pool (chunk, resolve env transformModulePath) w).2).

Lemma preserves_ret {A} (a : A) : preserves I (ret a).
Proof. by intros w. Qed.

Lemma preserves_throw {A} e : preserves I (@throw World A e).
Proof. by intros w. Qed.

Lemma preserves_out_of_fuel {A} : preserves I (@out_of_fuel World A).
Proof. by intros w. Qed.

Lemma preserves_get : preserves I get.
Proof. by intros w. Qed.

Lemma preserves_bind {A B} (m : M World A) (k : A -> M World B) :
  preserves I m -> (forall a, preserves I (k a)) -> preserves I (bind m k).
Proof.
  intros Hm Hk w Hw. unfold bind. specialize (Hm w Hw).
  destruct (m w) as [[a|e| |] w1]; simpl in *; try done. by apply Hk.
Qed.

Lemma preserves_log ev : preserves I (log ev).
Proof. intros w Hw. rewrite log_run. by apply Hlog. Qed.

Lemma preserves_store_call ev : preserves I (store_call env ev).
Proof.
  unfold store_call.
  apply preserves_bind; [apply preserves_log|]. intros _.
  apply preserves_bind; [apply preserves_get|]. intros w.
  destruct (store_fails env (trace w)); [apply preserves_throw|apply preserves_ret].
Qed.

Lemma preserves_query {A} ev (f : World -> A) :
  preserves I (let* _ := store_call env ev in let* w := get in ret (f w)).
Proof.
  apply preserves_bind; [apply preserves_store_call|]. intros _.
  apply preserves_bind; [apply preserves_get|]. intros w. apply preserves_ret.
Qed.

Lemma preserves_insertRecords records : preserves I (insertRecords env TargetDb records).
Proof.
  unfold insertRecords.
  apply preserves_bind; [apply preserves_store_call|]. intros _.
  apply preserves_bind; [apply preserves_get|]. intros w.
  destruct (insert_transaction records (table TargetDb w)) as [records' t'].
  apply preserves_bind; [|intros _; apply preserves_ret].
  intros w0 Hw0. by apply Htarget.
Qed.

Lemma preserves_assign_paraphrases htmlRecords i transformedRecords records :
  preserves I (assign_paraphrases htmlRecords i transformedRecords records).
Proof.
  revert i records. induction htmlRecords as [|ref rest IH]; intros i records; simpl;
    [apply preserves_ret|].
  destruct (transformedRecords !! i); [apply IH|apply preserves_throw].
Qed.

Lemma preserves_Promise_all pool (chunks : list (list MdxRecord)) :
  preserves I
    (Promise_all env pool
       ((fun c => (c, resolve env transformModulePath)) <$> chunks)).
Proof.
  unfold Promise_all. induction chunks as [|c rest IH]; simpl;
    [apply preserves_ret|].
  apply preserves_bind; [intros w Hw; by apply Htask|]. intros b.
  apply preserves_bind; [apply IH|]. intros bs. apply preserves_ret.
Qed.

Lemma preserves_static fuel htmlRecords pool chunkSize :
  preserves I
    (static_transformHtmlRecordsInParallel env fuel htmlRecords pool
       transformModulePath chunkSize).
Proof.
  unfold static_transformHtmlRecordsInParallel.
  destruct (chunk_loop _ _ _ _ _) as [chunks|]; [|apply preserves_out_of_fuel].
  intros w Hw. unfold bind at 1. rewrite map_M_pool_exec.
  apply (preserves_bind (Promise_all env pool _) (fun t => ret (concat t)));
    [apply preserves_Promise_all|intros t; apply preserves_ret|].
  by apply Hlog.
Qed.

Lemma preserves_fetchRecordsPaginated_loop fuel this contentType pageSize
    lastRowId yield_ :
  (forall records, preserves I (yield_ records)) ->
  preserves I
    (fetchRecordsPaginated_loop env fuel this contentType pageSize lastRowId yield_).
Proof.
  intros Hyield. revert lastRowId.
  induction fuel as [|fuel IH]; intros lastRowId; simpl;
    [apply preserves_out_of_fuel|].
  apply preserves_bind; [apply preserves_store_call|]. intros _.
  apply preserves_bind; [apply preserves_get|]. intros w.
  destruct (length _ =? 0)%nat; [apply preserves_ret|].
  apply preserves_bind; [apply Hyield|]. intros records.
  destruct (last records) as [record|]; [|apply preserves_throw].
  destruct (rowid record); [apply IH|apply preserves_throw].
Qed.

Lemma preserves_try_finally {A} (m : M World A) (fin : M World unit) :
  preserves I m -> preserves I fin -> preserves I (try_finally m fin).
Proof.
  intros Hm Hfin w Hw. unfold try_finally. specialize (Hm w Hw).
  destruct (m w) as [[a|e| |] w1]; simpl in *; try done;
    specialize (Hfin w1 Hm); by destruct (fin w1) as [[[]|e'| |] w2].
Qed.

Lemma preserves_for_await generator body :
  preserves I (generator body) -> preserves I (for_await generator body).
Proof.
  intros Hgen w Hw. unfold for_await. specialize (Hgen w Hw).
  by destruct (generator body w) as [[[]|e| |] w1].
Qed.

Lemma preserves_pool_scope (body : nat -> M World unit) :
  (forall pool, preserves I (body pool)) ->
  preserves I
    (let* pool := workerpool_pool in try_finally (body pool) (pool_terminate pool)).
Proof.
  intros Hbody w Hw. unfold bind. rewrite workerpool_pool_run.
  apply preserves_try_finally; [apply Hbody|apply preserves_log|].
  by apply Hlog, Hpool.
Qed.

(** The whole workflow, with any source, into the destination. *)
Lemma preserves_runTransformWorkflow fuel sourceDatabase options pageSize chunkSize :
  preserves I
    (runTransformWorkflow_sized env fuel sourceDatabase TargetDb
       transformModulePath options pageSize chunkSize).
Proof.
  unfold runTransformWorkflow_sized.
  apply preserves_bind.
  { intros w Hw. unfold validateModuleExists. by destruct (existsSync _ _). }
  intros _. destruct (truthy_htmlBeforeLink options).
  - apply preserves_bind; [apply preserves_query|].
    intros _. apply preserves_bind.
    + apply preserves_try_finally; [|apply preserves_ret].
      apply preserves_for_await.
      unfold transformHtmlRecordsInParallel. cbv zeta.
      apply (preserves_pool_scope
               (fun pool => fetchHtmlRecordsPaginated env fuel sourceDatabase _ _)).
      intros pool. apply preserves_fetchRecordsPaginated_loop. intros records.
      apply preserves_bind; [apply preserves_static|]. intros transformed.
      apply preserves_bind; [apply preserves_insertRecords|]. intros _.
      apply preserves_ret.
    + intros _. apply preserves_bind; [apply preserves_query|].
      intros linkRecords.
      apply preserves_bind; [apply preserves_insertRecords|]. intros _.
      apply preserves_ret.
  - apply preserves_bind; [apply preserves_query|].
    intros _.
    apply preserves_try_finally; [|apply preserves_ret].
    apply preserves_for_await.
    unfold processRecordsInParallel. cbv zeta.
    apply (preserves_pool_scope
             (fun pool => fetchRecordsPaginated env fuel sourceDatabase None _ _)).
    intros pool. apply preserves_fetchRecordsPaginated_loop. intros records.
    apply preserves_bind; [apply preserves_static|]. intros transformed.
    apply preserves_bind; [apply preserves_assign_paraphrases|].
    intros records'. apply preserves_insertRecords.
Qed.
End Preserved.

Lemma run_task_source env pool task w : source (run_task env pool task w).2 = source w.
Proof.
  unfold run_task. destruct (pools w !! pool) as [p|]; [|done].
  simpl. by destruct (transformHtmlRecords env task.1 task.2 _).
Qed.

(** X19. The transform workflow never writes to its source: whatever the
    module, the sizes, the schedule and the failures of the store are, and
    however the run ends (also when it is cut short), the source table is
    what it was. *)
Theorem transform_workflow_never_writes_the_source (env : Env) (fuel : nat)
    (transformModulePath : string) (options : option TransformOptions)
    (pageSize chunkSize : option Z) (w : World) :
  source (runTransformWorkflow_sized env fuel SourceDb TargetDb transformModulePath
            options pageSize chunkSize w).2 = source w /\
  source (runTransformWorkflow env fuel SourceDb TargetDb transformModulePath
            options w).2 = source w.
Proof.
  assert (forall pageSize chunkSize,
             source (runTransformWorkflow_sized env fuel SourceDb TargetDb
                       transformModulePath options pageSize chunkSize w).2 = source w)
    as Hkept.
  { intros ps cs.
    apply (preserves_runTransformWorkflow env (fun w' => source w' = source w)
             transformModulePath); try done.
    intros w' pool chunk Hw'. by rewrite run_task_source. }
  split; [apply Hkept|apply Hkept].
Qed.

(** A task with the module of the run, on a pool whose contexts have
    loaded that module once: the context that takes it has loaded the module
    once when the task is over, whether the task fails or not. *)
Lemma run_task_loaded_once env modulePath tf pool chunk w :
  modules env modulePath = Some (Importable (ExportFunction tf)) ->
  loaded_once modulePath tf w ->
  loaded_once modulePath tf (run_task env pool (chunk, modulePath) w).2.
Proof.
  intros Hmod Hw. unfold run_task. destruct (pools w !! pool) as [p|] eqn:Hp; [|done].
  set (k := sched env pool (dispatched p)).
  assert (Hctx : let g' := (transformHtmlRecords env chunk modulePath
                              (default fresh_context (workers p !! k))).2 in
                 imports g' = [modulePath] /\ transformHtml g' = Some tf /\
                 transformModulePath g' = Some modulePath).
  { destruct (workers p !! k) as [g|] eqn:Hk; simpl.
    - destruct (Hw pool p k g Hp Hk) as (Hi & Hf & Hpath).
      rewrite transformHtmlRecords_cached; [done|].
      unfold must_load. rewrite Hf, Hpath. by rewrite bool_decide_true.
    - by rewrite (transformHtmlRecords_loads env chunk modulePath fresh_context tf). }
  simpl. fold k.
  destruct (transformHtmlRecords env chunk modulePath
              (default fresh_context (workers p !! k))) as [c g'].
  simpl in *. intros pool' p' k' g Hp' Hk'. cbn [snd pools set_pools] in Hp'.
  destruct (decide (pool = pool')) as [<-|Hne].
  - rewrite list_lookup_insert_eq in Hp' by by eapply lookup_lt_Some.
    injection Hp' as <-. simpl in Hk'.
    destruct (decide (k = k')) as [<-|Hnek].
    + rewrite lookup_insert_eq in Hk'. by injection Hk' as <-.
    + rewrite lookup_insert_ne in Hk' by done. by eapply Hw.
  - rewrite list_lookup_insert_ne in Hp' by done. by eapply Hw.
Qed.

(** X20. One import per worker: when the module of the run can be loaded,
    every worker context that exists when the transform workflow ends has
    imported that module exactly once and nothing else, however many pages
    and chunks it took, and however the run ends. *)
Theorem module_imported_once_per_worker (env : Env) (fuel : nat)
    (transformModulePath : string) (options : option TransformOptions)
    (pageSize chunkSize : option Z) (tf : TransformFn) (w : World) :
  modules env (resolve env transformModulePath) = Some (Importable (ExportFunction tf)) ->
  loaded_once (resolve env transformModulePath) tf w ->
  loaded_once (resolve env transformModulePath) tf
    (runTransformWorkflow_sized env fuel SourceDb TargetDb transformModulePath
       options pageSize chunkSize w).2.
Proof.
  intros Hmod Hw.
  apply (preserves_runTransformWorkflow env
           (loaded_once (resolve env transformModulePath) tf) transformModulePath);
    try done.
  - intros w' Hw' pool p k g Hp Hk. simpl in Hp.
    apply lookup_app_Some in Hp as [Hp|[_ Hp]]; [by eapply Hw'|].
    apply list_lookup_singleton_Some in Hp as [_ <-]. simpl in Hk.
    by rewrite lookup_empty in Hk.
  - intros w' pool chunk Hw'. by apply run_task_loaded_once.
Qed.

Lemma module_imported_once_per_worker_witness :
  let w' := (runTransformWorkflow_sized Examples.env 6 SourceDb TargetDb "/upper.js"
               None (Some 5) (Some 1) (Examples.world Examples.axbyc)).2 in
  loaded_once (resolve Examples.env "/upper.js") (fun s => Some (Examples.uppercase s)) w' /\
  fmap (M:=list)
    (fun p : Pool => (imports <$> workers p !! 0%nat, imports <$> workers p !! 1%nat,
                      dispatched p)) (pools w')
  = [(Some ["/upper.js"%string], Some ["/upper.js"%string], 3%nat)].
Proof.
  split.
  - apply (module_imported_once_per_worker Examples.env 6 "/upper.js" None (Some 5) (Some 1)
             (fun s => Some (Examples.uppercase s)) (Examples.world Examples.axbyc)).
    + reflexivity.
    + intros pool p k g Hp. simpl in Hp. by rewrite lookup_nil in Hp.
  - vm_compute. reflexivity.
Defined.

(** * Further properties: chunks and dispatches *)

(** The chunks the loop makes: chunk [j] is the [chunkSize] records from
    index [i + j * chunkSize], for every such index inside the array. *)
Lemma chunk_loop_exact (htmlRecords : list MdxRecord) (chunkSize : Z) :
  0 < chunkSize ->
  forall fuel i chunks,
    0 <= i ->
    (length (drop (Z.to_nat i) htmlRecords) <= fuel)%nat ->
    exists cs,
      chunk_loop fuel htmlRecords chunkSize i chunks = Some (chunks ++ cs) /\
      forall j : nat,
        cs !! j =
        if decide (i + Z.of_nat j * chunkSize < Z.of_nat (length htmlRecords))
        then Some (take (Z.to_nat chunkSize)
                     (drop (Z.to_nat (i + Z.of_nat j * chunkSize)) htmlRecords))
        else None.
Proof.
  intros Hc. induction fuel as [|fuel IH]; intros i chunks Hi Hfuel.
  - exists []. rewrite length_drop in Hfuel. simpl.
    destruct (Z.ltb_spec i (Z.of_nat (length htmlRecords))); [lia|].
    rewrite app_nil_r. split; [done|]. intros j. rewrite lookup_nil.
    destruct (decide _); [nia|done].
  - simpl. destruct (Z.ltb_spec i (Z.of_nat (length htmlRecords))) as [Hlt|Hge].
    + destruct (IH (i + chunkSize) (chunks ++ [slice htmlRecords i (i + chunkSize)]))
        as [cs [Hrun Hcs]]; [lia| |].
      { rewrite length_drop in *. lia. }
      exists (slice htmlRecords i (i + chunkSize) :: cs).
      rewrite Hrun, <- app_assoc. split; [done|].
      intros [|j].
      * simpl. rewrite decide_True by lia. rewrite slice_in_range by lia.
        do 3 f_equal. lia.
      * simpl. rewrite Hcs.
        replace (i + chunkSize + Z.of_nat j * chunkSize)
          with (i + Z.of_nat (S j) * chunkSize) by lia.
        done.
    + exists []. rewrite app_nil_r. split; [done|]. intros j. rewrite lookup_nil.
      destruct (decide _); [nia|done].
Qed.

Lemma chunk_count (n chunkSize : Z) (cs : list (list MdxRecord)) :
  0 < chunkSize -> 0 <= n ->
  (forall j : nat, is_Some (cs !! j) <-> Z.of_nat j * chunkSize < n) ->
  Z.of_nat (length cs) = (n + chunkSize - 1) / chunkSize.
Proof.
  intros Hc Hn Hcs.
  assert (Hlast : n <= Z.of_nat (length cs) * chunkSize).
  { destruct (Z.le_gt_cases n (Z.of_nat (length cs) * chunkSize)) as [|Hgt]; [done|].
    assert (is_Some (cs !! length cs)) as [c Hx] by (apply Hcs; lia).
    apply lookup_lt_Some in Hx. lia. }
  assert (Hprev : (0 < length cs)%nat -> (Z.of_nat (length cs) - 1) * chunkSize < n).
  { intros Hpos. replace (Z.of_nat (length cs) - 1) with (Z.of_nat (length cs - 1)) by lia.
    apply Hcs. apply lookup_lt_is_Some. lia. }
  apply (Z.div_unique _ _ _ (n + chunkSize - 1 - chunkSize * Z.of_nat (length cs)));
    [|lia].
  left. destruct (length cs) as [|k] eqn:Hk.
  - simpl in *. lia.
  - specialize (Hprev ltac:(lia)). lia.
Qed.

(** X21. The shape of the dispatches of one call of the chunk scheduler:
    chunk [j] is exactly the [chunkSize] records from index [j * chunkSize]
    (fewer only at the end of the array), so every chunk but the last is
    full, and the number of tasks dispatched is the number of records
    divided by the chunk size, rounded up. *)
Theorem chunk_scheduler_dispatches_full_chunks (env : Env) (fuel : nat)
    (htmlRecords : list MdxRecord) (pool : nat) (transformModulePath : string)
    (chunkSize : Z) (tf : TransformFn) (f : string -> string) (w : World) (p : Pool) :
  0 < chunkSize ->
  (length htmlRecords <= fuel)%nat ->
  pools w !! pool = Some p -> pool_ok env p ->
  modules env (resolve env transformModulePath) = Some (Importable (ExportFunction tf)) ->
  Forall (fun r => tf (paraphrase r) = Some (f (paraphrase r))) htmlRecords ->
  exists (chunks : list (list MdxRecord)) (w' : World),
    static_transformHtmlRecordsInParallel env fuel htmlRecords pool
      transformModulePath (Some chunkSize) w
    = (Normal (apply_transform f <$> htmlRecords), w') /\
    trace w' = trace w ++
               ((fun c => EvDispatch pool c (resolve env transformModulePath)) <$> chunks) /\
    Z.of_nat (length chunks)
    = (Z.of_nat (length htmlRecords) + chunkSize - 1) / chunkSize /\
    (forall (j : nat) chunk,
       chunks !! j = Some chunk ->
       chunk = take (Z.to_nat chunkSize) (drop (j * Z.to_nat chunkSize) htmlRecords)).
Proof.
  intros Hc Hfuel Hp Hok Hmod Hall.
  destruct (chunk_loop_exact htmlRecords chunkSize Hc fuel 0 []) as [cs [Hrun Hcs]];
    [lia|by rewrite drop_0|].
  simpl in Hrun.
  assert (Hcat : concat cs = htmlRecords).
  { destruct (chunk_loop_spec htmlRecords chunkSize Hc fuel 0 []) as [cs' [Hrun' [Hcat _]]];
      [lia|by rewrite drop_0|].
    simpl in Hrun'. rewrite Hrun in Hrun'. injection Hrun' as <-.
    by rewrite drop_0 in Hcat. }
  set (modulePath := resolve env transformModulePath) in *.
  set (w1 := add_trace ((fun c => EvDispatch pool c modulePath) <$> cs) w).
  destruct (Promise_all_total env pool modulePath tf f cs Hmod
              ltac:(by rewrite Hcat) w1 p Hp Hok) as [p' [Hawait _]].
  exists cs. eexists. split; [|split; [|split]].
  - unfold static_transformHtmlRecordsInParallel. simpl. rewrite Hrun.
    unfold bind at 1. fold modulePath. rewrite map_M_pool_exec. fold w1.
    unfold bind at 1. rewrite Hawait. unfold ret. f_equal.
    f_equal. rewrite <- Hcat. clear. induction cs as [|c cs IH]; simpl; [done|].
    rewrite fmap_app. f_equal. apply IH.
  - done.
  - apply chunk_count; [done|lia|]. intros j. rewrite Hcs.
    destruct (decide _) as [Hlt|Hge]; split; intros H; try lia; try done.
  - intros j chunk Hj. rewrite Hcs in Hj. destruct (decide _); [|done].
    injection Hj as <-. do 2 f_equal. lia.
Qed.

Lemma chunk_scheduler_dispatches_full_chunks_witness :
  let w := {| source := []; target := []; pools := [fresh_pool]; trace := [] |} in
  let input := Examples.chunk ["ab"; "cd"; "ef"]%string in
  exists (chunks : list (list MdxRecord)) (w' : World),
    static_transformHtmlRecordsInParallel Examples.env 3 input 0 "/upper.js" (Some 2) w
    = (Normal (apply_transform Examples.uppercase <$> input), w') /\
    trace w' = trace w ++
               ((fun c => EvDispatch 0 c (resolve Examples.env "/upper.js")) <$> chunks) /\
    Z.of_nat (length chunks) = (Z.of_nat (length input) + 2 - 1) / 2 /\
    (forall (j : nat) chunk,
       chunks !! j = Some chunk ->
       chunk = take (Z.to_nat 2) (drop (j * Z.to_nat 2) input)).
Proof.
  intros w input.
  apply (chunk_scheduler_dispatches_full_chunks Examples.env 3 input 0 "/upper.js" 2
           (fun s => Some (Examples.uppercase s)) Examples.uppercase w fresh_pool).
  - lia.
  - simpl. lia.
  - reflexivity.
  - apply pool_ok_fresh.
  - reflexivity.
  - repeat constructor.
Defined.

(** X22. The chunk scheduler at its bounds: with no record it dispatches
    nothing and returns the empty array, whatever the chunk size; with a
    record and a chunk size of 0 or less the loop that makes the chunks
    never ends, so the call never returns and dispatches nothing. *)
Theorem chunk_scheduler_bounds (env : Env) (pool : nat) (transformModulePath : string)
    (w : World) :
  (forall fuel chunkSize,
     static_transformHtmlRecordsInParallel env fuel [] pool transformModulePath
       chunkSize w = (Normal [], w)) /\
  (forall fuel htmlRecords chunkSize,
     htmlRecords <> [] -> chunkSize <= 0 ->
     static_transformHtmlRecordsInParallel env fuel htmlRecords pool
       transformModulePath (Some chunkSize) w = (OutOfFuel, w)).
Proof.
  split.
  - intros fuel chunkSize. unfold static_transformHtmlRecordsInParallel.
    by destruct fuel.
  - intros fuel htmlRecords chunkSize Hne Hc.
    unfold static_transformHtmlRecordsInParallel. simpl.
    rewrite chunk_loop_diverges; [done|done|].
    destruct htmlRecords; [done|]. simpl. lia.
Qed.

Lemma map_M_transform_record_throws (records : list MdxRecord) g f :
  transformHtml g = Some f ->
  Exists (fun r => f (paraphrase r) = None) records ->
  map_M transform_record records g = (Throw TransformError, g).
Proof.
  intros Hf. induction records as [|r rest IH]; intros Hex; [by apply Exists_nil in Hex|].
  simpl. unfold bind at 1. unfold transform_record at 1. unfold bind at 1, get.
  rewrite Hf. destruct (f (paraphrase r)) as [p|] eqn:Hr; [|done].
  simpl. unfold bind at 1. apply Exists_cons in Hex as [Hex|Hex]; [congruence|].
  by rewrite IH.
Qed.

(** X23. How a dispatch fails.  When the context has to load the module
    and the module cannot give a function, the dispatch throws and the two
    cache slots are left as they were (only the import is on record), so
    a function cached for another path is still there.  When the function
    the dispatch calls throws on one record of the chunk, the dispatch
    throws and returns no record at all, and the function stays cached for
    the path. *)
Theorem transformHtmlRecords_failures (env : Env) (records : list MdxRecord)
    (modulePath : string) (g : WorkerContext) :
  (must_load g modulePath = true ->
   (forall f, modules env modulePath <> Some (Importable (ExportFunction f))) ->
   exists e,
     transformHtmlRecords env records modulePath g
     = (Throw e, {| transformHtml := transformHtml g;
                    transformModulePath := transformModulePath g;
                    imports := imports g ++ [modulePath] |}) /\
     (e = ImportError modulePath \/ e = ExportShapeError)) /\
  (forall f,
     dispatch_calls env g modulePath f ->
     Exists (fun r => f (paraphrase r) = None) records ->
     exists g',
       transformHtmlRecords env records modulePath g = (Throw TransformError, g') /\
       transformHtml g' = Some f /\ transformModulePath g' = Some modulePath).
Proof.
  split.
  - intros Hload Hbad. unfold transformHtmlRecords, bind, get, import_, bind, modify.
    rewrite Hload. simpl.
    destruct (modules env modulePath) as [[|[f|]]|] eqn:Hmod; simpl.
    + exists (ImportError modulePath). split; [done|by left].
    + by destruct (Hbad f).
    + exists ExportShapeError. split; [done|by right].
    + exists (ImportError modulePath). split; [done|by left].
  - intros f [[Hload Hf]|[Hload Hmod]] Hex.
    + exists g. unfold transformHtmlRecords, bind, get. rewrite Hload. simpl.
      rewrite (map_M_transform_record_throws records g f Hf Hex).
      split; [done|]. split; [done|].
      unfold must_load in Hload. rewrite Hf in Hload.
      by apply negb_false_iff, bool_decide_eq_true in Hload.
    + exists {| transformHtml := Some f; transformModulePath := Some modulePath;
                imports := imports g ++ [modulePath] |}.
      unfold transformHtmlRecords, bind, get, import_, bind, modify.
      rewrite Hload. simpl. rewrite Hmod. simpl.
      by rewrite (map_M_transform_record_throws records
                    {| transformHtml := Some f; transformModulePath := Some modulePath;
                       imports := imports g ++ [modulePath] |} f eq_refl Hex).
Qed.

(** * Further properties: the debug command *)

Lemma first_refused_app (refuses : string -> bool) (a b : list (string * string)) :
  first_refused refuses (a ++ b)
  = match first_refused refuses a with
    | Some path => Some path
    | None => first_refused refuses b
    end.
Proof. induction a as [|x a IH]; simpl; [done|]. by destruct (refuses x.1). Qed.

Lemma written_before_app (refuses : string -> bool) (a b : list (string * string)) :
  written_before refuses (a ++ b)
  = match first_refused refuses a with
    | Some _ => written_before refuses a
    | None => a ++ written_before refuses b
    end.
Proof.
  induction a as [|x a IH]; simpl; [done|]. destruct (refuses x.1); [done|].
  rewrite IH. by destruct (first_refused refuses a).
Qed.

Lemma written_before_all (refuses : string -> bool)
    (outputs : list (string * string)) :
  first_refused refuses outputs = None -> written_before refuses outputs = outputs.
Proof.
  induction outputs as [|x l IH]; simpl; [done|]. destruct (refuses x.1); [done|].
  intros H. by rewrite IH.
Qed.

Lemma nothing_refused (refuses : string -> bool) (outputs : list (string * string)) :
  Forall (fun file => refuses file.1 = false) outputs ->
  first_refused refuses outputs = None /\ written_before refuses outputs = outputs.
Proof.
  induction 1 as [|x l Hx _ [IH1 IH2]]; simpl; [done|]. rewrite Hx. by rewrite IH2.
Qed.

Lemma written_before_prefix (refuses : string -> bool)
    (outputs : list (string * string)) :
  written_before refuses outputs `prefix_of` outputs.
Proof.
  induction outputs as [|x l IH]; simpl; [done|].
  destruct (refuses x.1); [apply prefix_nil|by apply prefix_cons].
Qed.

Section Debug.
Context (env : Env) (path_join : string -> string -> string).

Lemma forEach_writeFileSync (outputDir extension : string) (l : list MdxRecord)
    (s : Session) :
  forEach (fun record =>
             writeFileSync (path_join outputDir (file_name record extension))
                           (paraphrase record)) l s
  = (write_completion (refuses s) (record_file path_join outputDir extension <$> l),
     {| world := world s; globals := globals s; warnings := warnings s;
        directories := directories s;
        files := files s ++ written_before (refuses s)
                              (record_file path_join outputDir extension <$> l);
        refuses := refuses s |}).
Proof.
  revert s. induction l as [|r l IH]; intros s.
  - simpl. unfold ret. rewrite app_nil_r. by destruct s.
  - rewrite fmap_cons. unfold write_completion. cbn [forEach first_refused written_before].
    unfold bind at 1. unfold writeFileSync at 1. unfold bind at 1, get.
    cbn [record_file fst].
    destruct (refuses s (path_join outputDir (file_name r extension))) eqn:Hr.
    + unfold throw. rewrite app_nil_r. by destruct s.
    + unfold modify. rewrite IH. cbn. unfold write_completion.
      by rewrite <- app_assoc.
Qed.

(** [writeRecordsToFiles] from the point where the HTML records are
    ready. *)
Lemma write_files_run (outputDir : string) (html link : list MdxRecord) (s : Session) :
  (let* _ :=
     forEach (fun record =>
                writeFileSync (path_join outputDir (file_name record ".html"))
                              (paraphrase record)) html in
   forEach (fun record =>
              writeFileSync (path_join outputDir (file_name record ".txt"))
                            (paraphrase record)) link) s
  = (write_completion (refuses s)
       ((record_file path_join outputDir ".html" <$> html) ++
        (record_file path_join outputDir ".txt" <$> link)),
     {| world := world s; globals := globals s; warnings := warnings s;
        directories := directories s;
        files := files s ++ written_before (refuses s)
                              ((record_file path_join outputDir ".html" <$> html) ++
                               (record_file path_join outputDir ".txt" <$> link));
        refuses := refuses s |}).
Proof.
  unfold bind. rewrite forEach_writeFileSync.
  unfold write_completion. rewrite first_refused_app, written_before_app.
  destruct (first_refused (refuses s)
              (record_file path_join outputDir ".html" <$> html)) as [path|] eqn:Hhtml;
    [done|].
  rewrite forEach_writeFileSync.
  cbn [world globals warnings directories files refuses].
  unfold write_completion. rewrite (written_before_all _ _ Hhtml).
  by rewrite <- app_assoc.
Qed.

Lemma splitRecordsByContentType_filter (records : list MdxRecord) :
  splitRecordsByContentType records
  = (filter (fun r => has_type ContentType.HTML r) records,
     filter (fun r => has_type ContentType.LINK r) records).
Proof.
  unfold splitRecordsByContentType. by rewrite splitRecordsByContentType_loop_filter.
Qed.

Lemma mkdirSync_run (dir : string) (s : Session) :
  mkdirSync dir s
  = if refuses s dir then (Throw (FsError dir), s)
    else (Normal tt, add_output dir [] s).
Proof.
  unfold mkdirSync, bind, get. destruct (refuses s dir); [done|].
  unfold modify, add_output. by rewrite app_nil_r.
Qed.

(** [writeRecordsToFiles] without a module. *)
Lemma writeRecordsToFiles_plain (records : list MdxRecord) (outputDir : string)
    (transformModulePath : option string) (s : Session) :
  truthy_string transformModulePath = false ->
  let outputs :=
    (record_file path_join outputDir ".html"
       <$> filter (fun r => has_type ContentType.HTML r) records) ++
    (record_file path_join outputDir ".txt"
       <$> filter (fun r => has_type ContentType.LINK r) records) in
  writeRecordsToFiles env path_join records outputDir transformModulePath s
  = if refuses s outputDir then (Throw (FsError outputDir), s)
    else (write_completion (refuses s) outputs,
          add_output outputDir (written_before (refuses s) outputs) s).
Proof.
  intros Hno outputs. unfold writeRecordsToFiles.
  rewrite splitRecordsByContentType_filter, Hno.
  unfold bind at 1. rewrite mkdirSync_run.
  destruct (refuses s outputDir) eqn:Hdir; [done|].
  unfold bind at 1, ret at 1.
  rewrite write_files_run. unfold add_output. simpl. by rewrite app_nil_r.
Qed.

(** [writeRecordsToFiles] with a module, from the point where the
    dispatch on the main thread has ended. *)
Lemma writeRecordsToFiles_module (records : list MdxRecord) (outputDir : string)
    (transformModulePath : option string) (s : Session) :
  truthy_string transformModulePath = true ->
  writeRecordsToFiles env path_join records outputDir transformModulePath s
  = if refuses s outputDir then (Throw (FsError outputDir), s)
    else
      match transformHtmlRecords env
              (filter (fun r => has_type ContentType.HTML r) records)
              (resolve env (default ""%string transformModulePath)) (globals s) with
      | (Normal processedHtmlRecords, g') =>
          let outputs :=
            (record_file path_join outputDir ".html" <$> processedHtmlRecords) ++
            (record_file path_join outputDir ".txt"
               <$> filter (fun r => has_type ContentType.LINK r) records) in
          (write_completion (refuses s) outputs,
           set_globals g'
             (add_output outputDir (written_before (refuses s) outputs) s))
      | (Throw e, g') => (Throw e, set_globals g' (add_output outputDir [] s))
      | (Break, g') => (Break, set_globals g' (add_output outputDir [] s))
      | (OutOfFuel, g') => (OutOfFuel, set_globals g' (add_output outputDir [] s))
      end.
Proof.
  intros Hyes. unfold writeRecordsToFiles.
  rewrite splitRecordsByContentType_filter, Hyes.
  unfold bind at 1. rewrite mkdirSync_run.
  destruct (refuses s outputDir) eqn:Hdir; [done|].
  unfold bind at 1, on_main_thread. simpl.
  destruct (transformHtmlRecords env _ _ (globals s)) as [[html|e| |] g'];
    unfold set_globals, add_output; cbn [world globals warnings directories files refuses];
    rewrite ?app_nil_r; try done.
  by rewrite write_files_run.
Qed.

Lemma in_world_validateModuleExists (modulePath : string) (s : Session) :
  in_world (validateModuleExists env modulePath) s
  = (if existsSync env modulePath then Normal tt
     else Throw (ModuleNotFound modulePath), s).
Proof.
  unfold in_world, validateModuleExists.
  destruct (existsSync env modulePath); unfold ret, throw; by destruct s.
Qed.

Lemma existsSync_true (modulePath : string) (file : ModuleFile) :
  modules env (resolve env modulePath) = Some file -> existsSync env modulePath = true.
Proof. intros H. unfold existsSync. rewrite H. by apply bool_decide_eq_true. Qed.

Lemma existsSync_false (modulePath : string) :
  modules env (resolve env modulePath) = None -> existsSync env modulePath = false.
Proof.
  intros H. unfold existsSync. rewrite H. apply bool_decide_eq_false. by intros [? ?].
Qed.

Lemma truthy_string_default (transformModulePath : option string) :
  truthy_string transformModulePath = true ->
  transformModulePath = Some (default ""%string transformModulePath).
Proof. by destruct transformModulePath as [[|]|]. Qed.

(** The debug command, up to the writing of the files. *)
Lemma runDebugWorkflow_run (database : MdxDatabase) (entries : list string)
    (outputDir : string) (transformModulePath : option string) (s : Session) :
  runDebugWorkflow env path_join database entries outputDir transformModulePath s
  = if truthy_string transformModulePath
       && negb (existsSync env (default ""%string transformModulePath))
    then (Throw (ModuleNotFound (default ""%string transformModulePath)), s)
    else if max_variable_number <? Z.of_nat (length (new_Set entries))
    then (Throw SqliteError, s)
    else if store_fails env
              (trace (world s) ++ [EvQueryEntries database (new_Set entries)])
    then (Throw SqliteError, queried database entries s)
    else if (length (select_by_entries (table database (world s)) entries) =? 0)%nat
    then (Normal tt,
          add_warnings (not_found_warnings (table database (world s)) entries)
            (queried database entries s))
    else writeRecordsToFiles env path_join
           (select_by_entries (table database (world s)) entries)
           outputDir transformModulePath
           (add_warnings (not_found_warnings (table database (world s)) entries)
              (queried database entries s)).
Proof.
  unfold runDebugWorkflow.
  assert (Hlookup :
    forall s0, s0 = s ->
    (let* records := fetchRecordsByEntries env database entries in
     if (length records =? 0)%nat then ret tt
     else writeRecordsToFiles env path_join records outputDir transformModulePath) s0
    = if max_variable_number <? Z.of_nat (length (new_Set entries))
      then (Throw SqliteError, s)
      else if store_fails env
                (trace (world s) ++ [EvQueryEntries database (new_Set entries)])
      then (Throw SqliteError, queried database entries s)
      else if (length (select_by_entries (table database (world s)) entries) =? 0)%nat
      then (Normal tt,
            add_warnings (not_found_warnings (table database (world s)) entries)
              (queried database entries s))
      else writeRecordsToFiles env path_join
             (select_by_entries (table database (world s)) entries)
             outputDir transformModulePath
             (add_warnings (not_found_warnings (table database (world s)) entries)
                (queried database entries s))).
  { intros s0 ->. unfold bind. rewrite fetchRecordsByEntries_run.
    destruct (max_variable_number <? _); [done|].
    destruct (store_fails env _); [done|].
    by destruct (length _ =? 0)%nat. }
  destruct (truthy_string transformModulePath) eqn:Hyes.
  - unfold bind at 1. rewrite in_world_validateModuleExists.
    destruct (existsSync env _); simpl; [by apply Hlookup|done].
  - unfold bind at 1, ret at 1. simpl. by apply Hlookup.
Qed.

Lemma runDebugWorkflow_answered (database : MdxDatabase) (entries : list string)
    (outputDir : string) (transformModulePath : option string) (s : Session) :
  truthy_string transformModulePath = false \/
    existsSync env (default ""%string transformModulePath) = true ->
  lookup_answered env database entries s ->
  runDebugWorkflow env path_join database entries outputDir transformModulePath s
  = if (length (select_by_entries (table database (world s)) entries) =? 0)%nat
    then (Normal tt,
          add_warnings (not_found_warnings (table database (world s)) entries)
            (queried database entries s))
    else writeRecordsToFiles env path_join
           (select_by_entries (table database (world s)) entries)
           outputDir transformModulePath
           (add_warnings (not_found_warnings (table database (world s)) entries)
              (queried database entries s)).
Proof.
  intros Hmod [Hmax Hok]. rewrite runDebugWorkflow_run, Hok.
  assert (truthy_string transformModulePath
          && negb (existsSync env (default ""%string transformModulePath)) = false)
    as -> by (destruct Hmod as [-> | ->]; [done|by rewrite andb_false_r]).
  by destruct (Z.ltb_spec max_variable_number (Z.of_nat (length (new_Set entries))));
    [lia|].
Qed.

(** X24. The debug command without a module (none given, or the empty
    string), on a table with rowids within 2^53, when the store takes the
    look-up and the file system refuses neither the output directory nor
    a file: when no row has one of the entries, nothing is made and
    nothing is written; otherwise the output directory is made and one
    file is written for each HTML record found ([.html]) and then one for
    each LINK record found ([.txt]), each holding the stored content; a
    record of another kind gets no file.  The tables are not changed, and
    an entry without a row costs a warning only. *)
Theorem runDebugWorkflow_without_module (database : MdxDatabase)
    (entries : list string) (outputDir : string)
    (transformModulePath : option string) (s : Session) :
  truthy_string transformModulePath = false ->
  lookup_answered env database entries s ->
  exact_rowids (table database (world s)) ->
  let records := select_by_entries (table database (world s)) entries in
  let warned :=
    add_warnings (not_found_warnings (table database (world s)) entries)
      (queried database entries s) in
  let outputs :=
    (record_file path_join outputDir ".html"
       <$> filter (fun r => has_type ContentType.HTML r) records) ++
    (record_file path_join outputDir ".txt"
       <$> filter (fun r => has_type ContentType.LINK r) records) in
  refuses s outputDir = false ->
  Forall (fun file => refuses s file.1 = false) outputs ->
  runDebugWorkflow env path_join database entries outputDir transformModulePath s
  = (Normal tt,
     if (length records =? 0)%nat then warned
     else add_output outputDir outputs warned) /\
  source (world warned) = source (world s) /\
  target (world warned) = target (world s).
Proof.
  intros Hno Hok _ records warned outputs Hdir Hfiles. split; [|done].
  rewrite (runDebugWorkflow_answered _ _ _ _ _ (or_introl Hno) Hok).
  fold records. fold warned.
  destruct (length records =? 0)%nat; [done|].
  rewrite (writeRecordsToFiles_plain _ _ _ _ Hno). fold outputs.
  change (refuses warned) with (refuses s). rewrite Hdir.
  destruct (nothing_refused _ _ Hfiles) as [Hnone Hall].
  unfold write_completion. by rewrite Hnone, Hall.
Qed.

(** X25. The debug command with a module that loads, on a table with
    rowids within 2^53, when the store takes the look-up and the file
    system refuses nothing: the files are as without a module, except
    that every [.html] file holds the content its record has in the store
    passed through the function of the module; file names and [.txt]
    files are those of the stored records.  With no record found the
    module is not even loaded. *)
Theorem runDebugWorkflow_with_module (database : MdxDatabase)
    (entries : list string) (outputDir : string)
    (transformModulePath : option string) (tf : TransformFn)
    (f : string -> string) (s : Session) :
  truthy_string transformModulePath = true ->
  modules env (resolve env (default ""%string transformModulePath))
    = Some (Importable (ExportFunction tf)) ->
  cache_ok env (globals s) ->
  lookup_answered env database entries s ->
  exact_rowids (table database (world s)) ->
  let records := select_by_entries (table database (world s)) entries in
  let warned :=
    add_warnings (not_found_warnings (table database (world s)) entries)
      (queried database entries s) in
  let outputs :=
    ((fun r => (path_join outputDir (file_name r ".html"), f (paraphrase r)))
       <$> filter (fun r => has_type ContentType.HTML r) records) ++
    (record_file path_join outputDir ".txt"
       <$> filter (fun r => has_type ContentType.LINK r) records) in
  Forall (fun r => tf (paraphrase r) = Some (f (paraphrase r)))
         (filter (fun r => has_type ContentType.HTML r) records) ->
  refuses s outputDir = false ->
  Forall (fun file => refuses s file.1 = false) outputs ->
  exists g',
    runDebugWorkflow env path_join database entries outputDir transformModulePath s
    = (Normal tt,
       if (length records =? 0)%nat then warned
       else set_globals g' (add_output outputDir outputs warned)).
Proof.
  intros Hyes Hmod Hcache Hok _ records warned outputs Htf Hdir Hfiles.
  rewrite (runDebugWorkflow_answered _ _ _ _ _
             (or_intror (existsSync_true _ _ Hmod)) Hok).
  fold records. fold warned.
  destruct (length records =? 0)%nat; [by exists (globals s)|].
  rewrite (writeRecordsToFiles_module _ _ _ _ Hyes).
  change (refuses warned) with (refuses s). rewrite Hdir.
  destruct (transformHtmlRecords_total env
              (filter (fun r => has_type ContentType.HTML r) records)
              (resolve env (default ""%string transformModulePath))
              (globals warned) tf f Hcache Hmod Htf) as (g' & Hrun & _).
  rewrite Hrun. exists g'. cbv zeta.
  rewrite <- list_fmap_compose.
  change (record_file path_join outputDir ".html" ∘ apply_transform f)
    with (fun r : MdxRecord =>
            (path_join outputDir (file_name r ".html"), f (paraphrase r))).
  fold outputs.
  destruct (nothing_refused _ _ Hfiles) as [Hnone Hall].
  unfold write_completion. by rewrite Hnone, Hall.
Qed.

Lemma transformHtmlRecords_throws (records : list MdxRecord) (modulePath : string)
    (g : WorkerContext) (tf : TransformFn) :
  cache_ok env g ->
  modules env modulePath = Some (Importable (ExportFunction tf)) ->
  Exists (fun r => tf (paraphrase r) = None) records ->
  exists g', transformHtmlRecords env records modulePath g = (Throw TransformError, g').
Proof.
  intros Hok Hmod Hex. unfold transformHtmlRecords.
  destruct (must_load g modulePath) eqn:Hload.
  - eexists. unfold bind, get, import_, bind, modify. rewrite Hload. simpl.
    rewrite Hmod. simpl.
    by rewrite (map_M_transform_record_throws records
                  {| transformHtml := Some tf; transformModulePath := Some modulePath;
                     imports := imports g ++ [modulePath] |} tf eq_refl Hex).
  - exists g. unfold bind, get. rewrite Hload. simpl.
    unfold must_load in Hload. destruct (transformHtml g) as [tf'|] eqn:Hg; [|done].
    apply negb_false_iff, bool_decide_eq_true in Hload.
    pose proof (Hok tf' modulePath Hg Hload) as Hmod'.
    assert (tf' = tf) as -> by congruence.
    by rewrite (map_M_transform_record_throws records g tf Hg Hex).
Qed.

(** X26. What a failure of the debug command leaves behind, on a table
    with rowids within 2^53, when the store has taken the look-up and
    records were found.  A file the file system refuses (as it does a
    name with a slash in the entry, whose directory is not there) stops
    the command at that file: the files before it are written and stay,
    the files after it are not written.  An output directory it refuses
    stops the command before any file.  A module that is there but cannot
    give a function, or whose function throws on the content of one HTML
    record found, stops the command after the output directory was made
    and before any file is written, also those of the LINK records. *)
Theorem runDebugWorkflow_failures (database : MdxDatabase)
    (entries : list string) (outputDir : string)
    (transformModulePath : option string) (s : Session) :
  lookup_answered env database entries s ->
  exact_rowids (table database (world s)) ->
  let records := select_by_entries (table database (world s)) entries in
  let warned :=
    add_warnings (not_found_warnings (table database (world s)) entries)
      (queried database entries s) in
  let outputs :=
    (record_file path_join outputDir ".html"
       <$> filter (fun r => has_type ContentType.HTML r) records) ++
    (record_file path_join outputDir ".txt"
       <$> filter (fun r => has_type ContentType.LINK r) records) in
  let run := runDebugWorkflow env path_join database entries outputDir
               transformModulePath s in
  records <> [] ->
  (truthy_string transformModulePath = false ->
   (refuses s outputDir = true -> run = (Throw (FsError outputDir), warned)) /\
   (refuses s outputDir = false ->
    forall path, first_refused (refuses s) outputs = Some path ->
    run = (Throw (FsError path),
           add_output outputDir (written_before (refuses s) outputs) warned) /\
    written_before (refuses s) outputs `prefix_of` outputs /\
    written_before (refuses s) outputs <> outputs)) /\
  (truthy_string transformModulePath = true ->
   refuses s outputDir = false ->
   cache_ok env (globals s) ->
   forall file,
     modules env (resolve env (default ""%string transformModulePath)) = Some file ->
     (malformed file ->
      exists e g',
        run = (Throw e, set_globals g' (add_output outputDir [] warned)) /\
        (e = ImportError (resolve env (default ""%string transformModulePath)) \/
         e = ExportShapeError)) /\
     (forall tf,
        file = Importable (ExportFunction tf) ->
        Exists (fun r => tf (paraphrase r) = None)
               (filter (fun r => has_type ContentType.HTML r) records) ->
        exists g',
          run = (Throw TransformError,
                 set_globals g' (add_output outputDir [] warned)))).
Proof.
  intros Hok _ records warned outputs run Hne.
  assert (Hlen : (length records =? 0)%nat = false).
  { destruct records; [done|]. done. }
  split.
  - intros Hno. unfold run.
    rewrite (runDebugWorkflow_answered _ _ _ _ _ (or_introl Hno) Hok).
    fold records. fold warned. rewrite Hlen.
    rewrite (writeRecordsToFiles_plain _ _ _ _ Hno). fold outputs.
    change (refuses warned) with (refuses s). split.
    + by intros ->.
    + intros -> path Hpath. unfold write_completion. rewrite Hpath.
      split; [done|]. split; [apply written_before_prefix|].
      intros Hall. clear -Hpath Hall.
      induction outputs as [|x l IH]; [done|]. simpl in *.
      destruct (refuses s x.1); [done|]. injection Hall as Hall. by apply IH.
  - intros Hyes Hdir Hcache file Hmod. unfold run.
    rewrite (runDebugWorkflow_answered _ _ _ _ _
               (or_intror (existsSync_true _ _ Hmod)) Hok).
    fold records. fold warned. rewrite Hlen.
    rewrite (writeRecordsToFiles_module _ _ _ _ Hyes).
    change (refuses warned) with (refuses s). rewrite Hdir. split.
    + intros Hbad.
      destruct (transformHtmlRecords_malformed env
                  (default ""%string transformModulePath) file Hmod Hbad
                  (filter (fun r => has_type ContentType.HTML r) records)
                  (globals warned) Hcache) as (e & g' & Hrun & _ & He).
      rewrite Hrun. by exists e, g'.
    + intros tf -> Hex.
      destruct (transformHtmlRecords_throws
                  (filter (fun r => has_type ContentType.HTML r) records)
                  (resolve env (default ""%string transformModulePath))
                  (globals warned) tf Hcache Hmod Hex) as (g' & Hrun).
      rewrite Hrun. by exists g'.
Qed.

(** X27. A module that is not there stops the [debug] and the [stats]
    command before they do anything: the error names the path as it was
    given, the store is not read and no warning is printed.  With the
    module there, the [stats] command does nothing at all. *)
Theorem commands_stop_at_a_missing_module (database : MdxDatabase)
    (entries : list string) (outputDir modulePath : string) (s : Session) :
  modulePath <> ""%string ->
  (modules env (resolve env modulePath) = None ->
   runDebugWorkflow env path_join database entries outputDir (Some modulePath) s
   = (Throw (ModuleNotFound modulePath), s) /\
   runStatsWorkflow env database modulePath s
   = (Throw (ModuleNotFound modulePath), s)) /\
  (forall file,
     modules env (resolve env modulePath) = Some file ->
     runStatsWorkflow env database modulePath s = (Normal tt, s)).
Proof.
  intros Hne. split.
  - intros Hmissing. unfold runDebugWorkflow, runStatsWorkflow.
    assert (truthy_string (Some modulePath) = true) as -> by by destruct modulePath.
    unfold bind at 1. simpl. rewrite !in_world_validateModuleExists.
    by rewrite (existsSync_false _ Hmissing).
  - intros file Hfile. unfold runStatsWorkflow.
    rewrite in_world_validateModuleExists. by rewrite (existsSync_true _ _ Hfile).
Qed.
End Debug.

Lemma runDebugWorkflow_without_module_witness :
  let s := DebugExamples.session Examples.axbyc in
  let entries := ["a"; "x"; "nope"; "a"]%string in
  (let records := select_by_entries (table SourceDb (world s)) entries in
   let warned :=
     add_warnings (not_found_warnings (table SourceDb (world s)) entries)
       (queried SourceDb entries s) in
   let outputs :=
     (record_file DebugExamples.join "out" ".html"
        <$> filter (fun r => has_type ContentType.HTML r) records) ++
     (record_file DebugExamples.join "out" ".txt"
        <$> filter (fun r => has_type ContentType.LINK r) records) in
   runDebugWorkflow Examples.env DebugExamples.join SourceDb entries "out" None s
   = (Normal tt,
      if (length records =? 0)%nat then warned
      else add_output "out" outputs warned) /\
   source (world warned) = source (world s) /\
   target (world warned) = target (world s)) /\
  (let s' := (runDebugWorkflow Examples.env DebugExamples.join SourceDb entries
                "out" None s).2 in
   files s' = [("out/a_1.html", "<p>a</p>"); ("out/x_2.txt", "@@@LINK=a")]%string /\
   warnings s' = ["warning: no record found for entry: nope"]%string /\
   directories s' = ["out"]%string).
Proof.
  intros s entries. split.
  - apply (runDebugWorkflow_without_module Examples.env DebugExamples.join SourceDb
             entries "out" None s).
    + reflexivity.
    + split; [by vm_compute|reflexivity].
    + apply examples_axbyc_exact.
    + reflexivity.
    + apply Forall_forall. intros file _. reflexivity.
  - vm_compute. repeat split.
Defined.

Lemma runDebugWorkflow_with_module_witness :
  let s := DebugExamples.session Examples.axbyc in
  let entries := ["a"; "x"]%string in
  (let records := select_by_entries (table SourceDb (world s)) entries in
   let warned :=
     add_warnings (not_found_warnings (table SourceDb (world s)) entries)
       (queried SourceDb entries s) in
   let outputs :=
     ((fun r => (DebugExamples.join "out" (file_name r ".html"),
                 Examples.uppercase (paraphrase r)))
        <$> filter (fun r => has_type ContentType.HTML r) records) ++
     (record_file DebugExamples.join "out" ".txt"
        <$> filter (fun r => has_type ContentType.LINK r) records) in
   exists g',
     runDebugWorkflow Examples.env DebugExamples.join SourceDb entries "out"
       (Some "/upper.js"%string) s
     = (Normal tt,
        if (length records =? 0)%nat then warned
        else set_globals g' (add_output "out" outputs warned))) /\
  files (runDebugWorkflow Examples.env DebugExamples.join SourceDb entries "out"
           (Some "/upper.js"%string) s).2
  = [("out/a_1.html", "<P>A</P>"); ("out/x_2.txt", "@@@LINK=a")]%string.
Proof.
  intros s entries. split.
  - apply (runDebugWorkflow_with_module Examples.env DebugExamples.join SourceDb
             entries "out" (Some "/upper.js"%string)
             (fun s => Some (Examples.uppercase s)) Examples.uppercase s).
    + reflexivity.
    + reflexivity.
    + intros f p Hf. discriminate Hf.
    + split; [by vm_compute|reflexivity].
    + apply examples_axbyc_exact.
    + vm_compute. repeat constructor.
    + reflexivity.
    + apply Forall_forall. intros file _. reflexivity.
  - vm_compute. reflexivity.
Defined.

Lemma runDebugWorkflow_failures_witness :
  let s := DebugExamples.session_refusing "out/b/c_2.html" DebugExamples.slash in
  let entries := ["a"; "b/c"; "x"]%string in
  let records := select_by_entries (table SourceDb (world s)) entries in
  let warned :=
    add_warnings (not_found_warnings (table SourceDb (world s)) entries)
      (queried SourceDb entries s) in
  let outputs :=
    (record_file DebugExamples.join "out" ".html"
       <$> filter (fun r => has_type ContentType.HTML r) records) ++
    (record_file DebugExamples.join "out" ".txt"
       <$> filter (fun r => has_type ContentType.LINK r) records) in
  let run := runDebugWorkflow Examples.env DebugExamples.join SourceDb entries "out"
               None s in
  ((truthy_string None = false ->
    (refuses s "out" = true -> run = (Throw (FsError "out"), warned)) /\
    (refuses s "out" = false ->
     forall path, first_refused (refuses s) outputs = Some path ->
     run = (Throw (FsError path),
            add_output "out" (written_before (refuses s) outputs) warned) /\
     written_before (refuses s) outputs `prefix_of` outputs /\
     written_before (refuses s) outputs <> outputs)) /\
   (truthy_string None = true ->
    refuses s "out" = false ->
    cache_ok Examples.env (globals s) ->
    forall file,
      modules Examples.env (resolve Examples.env (default ""%string None)) = Some file ->
      (malformed file ->
       exists e g',
         run = (Throw e, set_globals g' (add_output "out" [] warned)) /\
         (e = ImportError (resolve Examples.env (default ""%string None)) \/
          e = ExportShapeError)) /\
      (forall tf,
         file = Importable (ExportFunction tf) ->
         Exists (fun r => tf (paraphrase r) = None)
                (filter (fun r => has_type ContentType.HTML r) records) ->
         exists g',
           run = (Throw TransformError,
                  set_globals g' (add_output "out" [] warned))))) /\
  run.1 = Throw (FsError "out/b/c_2.html") /\
  files run.2 = [("out/a_1.html", "<p>a</p>")]%string /\
  outputs = [("out/a_1.html", "<p>a</p>"); ("out/b/c_2.html", "<p>bc</p>");
             ("out/x_3.txt", "@@@LINK=a")]%string.
Proof.
  intros s entries records warned outputs run. split.
  - apply (runDebugWorkflow_failures Examples.env DebugExamples.join SourceDb entries
             "out" None s).
    + split; [by vm_compute|reflexivity].
    + repeat (constructor; [by vm_compute|]). constructor.
    + by vm_compute.
  - by vm_compute.
Defined.

Lemma commands_stop_at_a_missing_module_witness :
  let s := DebugExamples.session Examples.axbyc in
  (modules Examples.env (resolve Examples.env "/nowhere.js") = None ->
   runDebugWorkflow Examples.env DebugExamples.join SourceDb ["a"]%string "out"
     (Some "/nowhere.js"%string) s
   = (Throw (ModuleNotFound "/nowhere.js"), s) /\
   runStatsWorkflow Examples.env SourceDb "/nowhere.js" s
   = (Throw (ModuleNotFound "/nowhere.js"), s)) /\
  (forall file,
     modules Examples.env (resolve Examples.env "/nowhere.js") = Some file ->
     runStatsWorkflow Examples.env SourceDb "/nowhere.js" s = (Normal tt, s)).
Proof.
  intros s.
  apply (commands_stop_at_a_missing_module Examples.env DebugExamples.join SourceDb
           ["a"]%string "out" "/nowhere.js" s).
  discriminate.
Defined.

(** * Further properties: the destination after a run that fails *)

Lemma map_M_transform_record_any (records : list MdxRecord) g tf :
  transformHtml g = Some tf ->
  forall out,
    (map_M transform_record records g).1 = Normal out ->
    out = apply_transform (fun s => default s (tf s)) <$> records.
Proof.
  intros Hf. induction records as [|r rest IH]; intros out; simpl.
  - by intros [= <-].
  - unfold bind at 1. unfold transform_record at 1. unfold bind at 1, get.
    rewrite Hf. destruct (tf (paraphrase r)) as [p|] eqn:Hr; [|done].
    cbn [ret]. unfold bind at 1.
    destruct (map_M transform_record rest g) as [[outs|e| |] g'] eqn:Hrest; try done.
    intros [= <-]. f_equal; [|exact (IH outs eq_refl)].
    unfold apply_transform. by rewrite Hr.
Qed.

(** A dispatch in a sound context: the context stays sound, and when
    the dispatch returns, it returns the records with their content passed
    through the function of the module. *)
Lemma transformHtmlRecords_any env (records : list MdxRecord) modulePath g :
  cache_ok env g ->
  cache_ok env (transformHtmlRecords env records modulePath g).2 /\
  forall out,
    (transformHtmlRecords env records modulePath g).1 = Normal out ->
    out = apply_transform (module_function env modulePath) <$> records.
Proof.
  intros Hok. unfold transformHtmlRecords, module_function.
  destruct (must_load g modulePath) eqn:Hload.
  - unfold bind, get, import_, bind, modify. rewrite Hload. simpl.
    destruct (modules env modulePath) as [[|[tf|]]|] eqn:Hmod; simpl; try done.
    set (g' := {| transformHtml := Some tf; transformModulePath := Some modulePath;
                  imports := imports g ++ [modulePath] |}).
    pose proof (map_M_transform_record_context records g') as Hctx.
    pose proof (map_M_transform_record_any records g' tf eq_refl) as Hout.
    destruct (map_M transform_record records g') as [c g'']. simpl in *. subst g''.
    split; [|done]. intros f' p' Hf' Hp'. simpl in *. congruence.
  - unfold bind, get. rewrite Hload. simpl.
    unfold must_load in Hload. destruct (transformHtml g) as [tf|] eqn:Hg; [|done].
    apply negb_false_iff, bool_decide_eq_true in Hload.
    rewrite (Hok tf modulePath Hg Hload).
    pose proof (map_M_transform_record_context records g) as Hctx.
    pose proof (map_M_transform_record_any records g tf Hg) as Hout.
    destruct (map_M transform_record records g) as [c g'']. simpl in *. by subst g''.
Qed.

Lemma map_M_transform_record_no_break (records : list MdxRecord) g :
  (map_M transform_record records g).1 <> Break.
Proof.
  induction records as [|r rest IH]; simpl; [done|].
  unfold bind at 1. unfold transform_record at 1. unfold bind at 1, get.
  destruct (transformHtml g) as [tf|]; [|done].
  destruct (tf (paraphrase r)); [|done]. simpl. unfold bind at 1.
  pose proof (map_M_transform_record_context rest g) as Hctx.
  by destruct (map_M transform_record rest g) as [[outs|e| |] g'].
Qed.

Lemma transformHtmlRecords_no_break env (records : list MdxRecord) modulePath g :
  (transformHtmlRecords env records modulePath g).1 <> Break.
Proof.
  unfold transformHtmlRecords. unfold bind at 1, get.
  destruct (must_load g modulePath).
  - unfold bind at 1, import_. unfold bind at 1, modify.
    destruct (modules env modulePath) as [[|[tf|]]|]; simpl; try done.
    apply map_M_transform_record_no_break.
  - unfold bind at 1, ret at 1. apply map_M_transform_record_no_break.
Qed.

(** The loop that makes the chunks, when it ends: the chunks make up the
    array, whatever the chunk size is. *)
Lemma chunk_loop_partial (htmlRecords : list MdxRecord) (chunkSize : Z) :
  forall fuel i chunks r,
    0 <= i ->
    chunk_loop fuel htmlRecords chunkSize i chunks = Some r ->
    exists cs, r = chunks ++ cs /\ concat cs = drop (Z.to_nat i) htmlRecords.
Proof.
  induction fuel as [|fuel IH]; intros i chunks r Hi; simpl;
    destruct (Z.ltb_spec i (Z.of_nat (length htmlRecords))) as [Hlt|Hge]; try done.
  - intros [= <-]. exists []. rewrite app_nil_r, drop_ge by lia. done.
  - destruct (Z.le_gt_cases chunkSize 0) as [Hc|Hc].
    + rewrite chunk_loop_diverges by lia. done.
    + intros Hrun. destruct (IH (i + chunkSize) _ _ ltac:(lia) Hrun) as (cs & -> & Hcat).
      exists (slice htmlRecords i (i + chunkSize) :: cs).
      rewrite <- app_assoc. split; [done|]. simpl. rewrite Hcat.
      rewrite slice_in_range by lia.
      replace (Z.to_nat (i + chunkSize)) with (Z.to_nat i + Z.to_nat chunkSize)%nat by lia.
      rewrite <- drop_drop. apply take_drop.
  - intros [= <-]. exists []. rewrite app_nil_r, drop_ge by lia. done.
Qed.

Lemma store_call_run env ev w :
  store_call env ev w
  = (if store_fails env (trace w ++ [ev]) then Throw SqliteError else Normal tt,
     add_trace [ev] w).
Proof.
  unfold store_call, bind, get. rewrite log_run. simpl.
  by destruct (store_fails env (trace w ++ [ev])).
Qed.

Lemma insertRecords_run env this records w :
  insertRecords env this records w
  = if store_fails env (trace w ++ [EvInsert this records])
    then (Throw SqliteError, add_trace [EvInsert this records] w)
    else (Normal ((fun r => with_content_type r (Some (stored_kind r))) <$> records),
          set_table this (insert_transaction records (table this w)).2
            (add_trace [EvInsert this records] w)).
Proof.
  unfold insertRecords. unfold bind at 1. rewrite store_call_run.
  destruct (store_fails env (trace w ++ [EvInsert this records])); [done|].
  unfold bind at 1, get.
  replace (table this (add_trace [EvInsert this records] w)) with (table this w)
    by by destruct this.
  rewrite <- (insert_transaction_records records (table this w)).
  by destruct (insert_transaction records (table this w)).
Qed.

Section Crash.
Context (env : Env) (n : nat) (transformModulePath : string).

Local Abbreviation f := (module_function env (resolve env transformModulePath)).

Lemma page_quiet_ret {A} (a : A) : page_quiet env n (ret a).
Proof. by intros w. Qed.

Lemma page_quiet_log ev : page_quiet env n (log ev).
Proof. by intros w. Qed.

Lemma page_quiet_run_task pool chunk :
  (n <= pool)%nat ->
  page_quiet env n (run_task env pool (chunk, resolve env transformModulePath)).
Proof.
  intros Hpool w Hok. unfold run_task.
  destruct (pools w !! pool) as [p|] eqn:Hp; [|done].
  set (k := sched env pool (dispatched p)).
  assert (pool_ok env p) as Hpok.
  { rewrite Forall_forall in Hok. apply Hok.
    apply list_elem_of_lookup. exists (pool - n)%nat. rewrite lookup_drop.
    by replace (n + (pool - n))%nat with pool by lia. }
  assert (cache_ok env (default fresh_context (workers p !! k))) as Hg.
  { destruct (workers p !! k) as [g'|] eqn:Hk; simpl.
    - by eapply Hpok.
    - intros ? ? ?. done. }
  destruct (transformHtmlRecords_any env chunk (resolve env transformModulePath) _ Hg)
    as [Hg1 _].
  pose proof (transformHtmlRecords_no_break env chunk (resolve env transformModulePath)
                (default fresh_context (workers p !! k))) as Hnb.
  simpl. fold k.
  destruct (transformHtmlRecords env chunk (resolve env transformModulePath)
              (default fresh_context (workers p !! k))) as [c g1].
  simpl in *. split; [done|]. split; [done|]. split; [|done].
  replace pool with (n + (pool - n))%nat by lia.
  rewrite <- (take_drop n (pools w)) at 1.
  rewrite insert_app_r_alt by (rewrite length_take; lia).
  rewrite drop_app_ge by (rewrite length_take; lia).
  rewrite length_take.
  assert (n <= length (pools w))%nat
    by (apply lookup_lt_Some in Hp; lia).
  replace (n `min` length (pools w))%nat with n by lia.
  replace (n - n)%nat with 0%nat by lia. rewrite drop_0.
  apply Forall_insert; [done|].
  intros k' g' Hk'. simpl in Hk'.
  destruct (decide (k = k')) as [<-|Hne].
  - rewrite lookup_insert_eq in Hk'. by injection Hk' as <-.
  - rewrite lookup_insert_ne in Hk' by done. by eapply Hpok.
Qed.

(** What a task returns, when it returns. *)
Lemma run_task_result pool chunk w out :
  (n <= pool)%nat ->
  Forall (pool_ok env) (drop n (pools w)) ->
  (run_task env pool (chunk, resolve env transformModulePath) w).1 = Normal out ->
  out = apply_transform f <$> chunk.
Proof.
  intros Hpool Hok. unfold run_task.
  destruct (pools w !! pool) as [p|] eqn:Hp; [|done].
  set (k := sched env pool (dispatched p)).
  assert (pool_ok env p) as Hpok.
  { rewrite Forall_forall in Hok. apply Hok.
    apply list_elem_of_lookup. exists (pool - n)%nat. rewrite lookup_drop.
    by replace (n + (pool - n))%nat with pool by lia. }
  assert (cache_ok env (default fresh_context (workers p !! k))) as Hg.
  { destruct (workers p !! k) as [g'|] eqn:Hk; simpl.
    - by eapply Hpok.
    - intros ? ? ?. done. }
  destruct (transformHtmlRecords_any env chunk (resolve env transformModulePath) _ Hg)
    as [_ Hout].
  simpl. fold k.
  destruct (transformHtmlRecords env chunk (resolve env transformModulePath)
              (default fresh_context (workers p !! k))) as [c g1].
  simpl in *. apply Hout.
Qed.

Lemma page_quiet_bind {A B} (m : M World A) (k : A -> M World B) :
  page_quiet env n m -> (forall a, page_quiet env n (k a)) ->
  page_quiet env n (bind m k).
Proof.
  intros Hm Hk w Hok. unfold bind. destruct (Hm w Hok) as (Hs & Ht & Hok1 & Hnb).
  destruct (m w) as [[a|e| |] w1]; simpl in *; try done.
  destruct (Hk a w1 Hok1) as (Hs2 & Ht2 & Hok2 & Hnb2).
  split; [congruence|]. split; [congruence|done].
Qed.

Lemma page_quiet_Promise_all pool (chunks : list (list MdxRecord)) :
  (n <= pool)%nat ->
  page_quiet env n
    (Promise_all env pool ((fun c => (c, resolve env transformModulePath)) <$> chunks)).
Proof.
  intros Hpool. unfold Promise_all.
  induction chunks as [|c rest IH]; simpl; [apply page_quiet_ret|].
  apply page_quiet_bind; [by apply page_quiet_run_task|]. intros b.
  apply page_quiet_bind; [apply IH|]. intros bs. apply page_quiet_ret.
Qed.

(** What the tasks of a page return, when they all return. *)
Lemma Promise_all_result pool (chunks : list (list MdxRecord)) w outs :
  (n <= pool)%nat ->
  Forall (pool_ok env) (drop n (pools w)) ->
  (Promise_all env pool
     ((fun c => (c, resolve env transformModulePath)) <$> chunks) w).1 = Normal outs ->
  concat outs = apply_transform f <$> concat chunks.
Proof.
  intros Hpool. unfold Promise_all. revert w outs.
  induction chunks as [|c rest IH]; intros w outs Hok; simpl.
  - by intros [= <-].
  - unfold bind at 1.
    destruct (page_quiet_run_task pool c Hpool w Hok) as (_ & _ & Hok1 & _).
    pose proof (run_task_result pool c w) as Hb.
    destruct (run_task env pool (c, resolve env transformModulePath) w)
      as [[b|e| |] w1]; simpl in *; try done.
    unfold bind at 1. specialize (IH w1).
    destruct (map_M (run_task env pool) _ w1) as [[bs|e| |] w2]; simpl in *;
      try done.
    intros [= <-]. simpl. rewrite fmap_app, (Hb b Hpool Hok eq_refl).
    f_equal. by apply IH.
Qed.

Lemma page_quiet_static fuel htmlRecords pool chunkSize :
  (n <= pool)%nat ->
  page_quiet env n
    (static_transformHtmlRecordsInParallel env fuel htmlRecords pool
       transformModulePath chunkSize).
Proof.
  intros Hpool. unfold static_transformHtmlRecordsInParallel.
  destruct (chunk_loop _ _ _ _ _) as [chunks|]; [|by intros w].
  intros w Hok.
  set (w1 := add_trace ((fun c => EvDispatch pool c (resolve env transformModulePath))
                          <$> chunks) w).
  assert (Heq : (let* tasks :=
                   map_M (fun chunk => pool_exec pool chunk
                                         (resolve env transformModulePath)) chunks in
                 let* transformedChunks := Promise_all env pool tasks in
                 ret (concat transformedChunks)) w
                = (let* t := Promise_all env pool
                               ((fun c => (c, resolve env transformModulePath)) <$> chunks) in
                   ret (concat t)) w1).
  { unfold bind at 1. by rewrite map_M_pool_exec. }
  rewrite Heq.
  assert (Hq : page_quiet env n
                 (let* t := Promise_all env pool
                              ((fun c => (c, resolve env transformModulePath)) <$> chunks) in
                  ret (concat t))).
  { apply page_quiet_bind; [by apply page_quiet_Promise_all|].
    intros t. apply page_quiet_ret. }
  exact (Hq w1 Hok).
Qed.

(** What the chunk scheduler returns, when it returns. *)
Lemma static_result fuel htmlRecords pool chunkSize w out :
  (n <= pool)%nat ->
  Forall (pool_ok env) (drop n (pools w)) ->
  (static_transformHtmlRecordsInParallel env fuel htmlRecords pool
     transformModulePath chunkSize w).1 = Normal out ->
  out = apply_transform f <$> htmlRecords.
Proof.
  intros Hpool Hok. unfold static_transformHtmlRecordsInParallel.
  destruct (chunk_loop _ _ _ _ _) as [chunks|] eqn:Hchunks; [|done].
  destruct (chunk_loop_partial _ _ _ 0 _ _ ltac:(lia) Hchunks) as (cs & -> & Hcat).
  simpl in Hcat. rewrite drop_0 in Hcat.
  unfold bind at 1. rewrite map_M_pool_exec. unfold bind at 1.
  pose proof (Promise_all_result pool cs
                (add_trace ((fun c => EvDispatch pool c (resolve env transformModulePath))
                              <$> cs) w)) as Hres.
  simpl in *.
  destruct (Promise_all env pool _ _) as [[outs|e| |] w2]; simpl in *; try done.
  intros [= <-]. rewrite (Hres outs Hpool Hok eq_refl). by rewrite Hcat.
Qed.

(** A page of the default mode, however it ends: the source and the
    soundness of the pools are kept; either the page is in the
    destination, processed, or the destination is as it was. *)
Lemma processRecordsInParallel_page_any fuel pool chunkSize (rows : list Row) w :
  (n <= pool)%nat ->
  Forall (pool_ok env) (drop n (pools w)) ->
  let r := (let records := to_record <$> rows in
            let htmlRecords := html_positions 0 records in
            let* transformedRecords :=
              static_transformHtmlRecordsInParallel env fuel
                (deref records htmlRecords) pool transformModulePath chunkSize in
            let* records :=
              assign_paraphrases htmlRecords 0 transformedRecords records in
            insertRecords env TargetDb records) w in
  source r.2 = source w /\
  Forall (pool_ok env) (drop n (pools r.2)) /\
  ((exists records',
      r.1 = Normal records' /\
      last records' ≫= rowid = last (to_record <$> rows) ≫= rowid /\
      target r.2 = (insert_transaction (process_record f <$> (to_record <$> rows))
                      (target w)).2) \/
   ((forall a, r.1 <> Normal a) /\ r.1 <> Break /\ target r.2 = target w)).
Proof.
  intros Hpool Hok r.
  pose proof (deref_html_positions [] (to_record <$> rows)) as Hderef.
  simpl in Hderef.
  set (html := filter (fun r => has_type ContentType.HTML r) (to_record <$> rows)) in *.
  destruct (page_quiet_static fuel html pool chunkSize Hpool w Hok)
    as (Hs & Ht & Hok1 & Hnb).
  pose proof (static_result fuel html pool chunkSize w) as Hres.
  destruct (static_transformHtmlRecordsInParallel env fuel html pool
              transformModulePath chunkSize w) as [c w1] eqn:Hst.
  simpl in Hs, Ht, Hok1, Hres, Hnb.
  assert (Hr : r = match c with
                   | Normal out =>
                       (let* records :=
                          assign_paraphrases (html_positions 0 (to_record <$> rows)) 0
                            out (to_record <$> rows) in
                        insertRecords env TargetDb records) w1
                   | Throw e => (Throw e, w1)
                   | Break => (Break, w1)
                   | OutOfFuel => (OutOfFuel, w1)
                   end).
  { unfold r. cbv zeta. rewrite Hderef. unfold bind at 1. rewrite Hst. by destruct c. }
  clearbody r. subst r.
  destruct c as [out|e| |]; simpl;
    try (split; [done|]; split; [done|]; right; by repeat split).
  rewrite (Hres out Hpool Hok eq_refl).
  unfold bind.
  pose proof (assign_paraphrases_html f [] (to_record <$> rows) 0
                (apply_transform f <$> html) w1) as Hassign.
  simpl in Hassign. rewrite Hassign by done.
  rewrite insertRecords_run.
  destruct (store_fails env _); simpl.
  - split; [done|]. split; [done|]. right. by repeat split.
  - split; [done|]. split; [done|]. left. eexists. split; [done|]. split.
    + rewrite last_rowid_stored by done.
      apply last_rowid_stored. intros r. unfold process_record.
      by destruct (has_type ContentType.HTML r).
    + by rewrite Ht.
Qed.

(** A page of the HTML-first mode, however it ends. *)
Lemma transformHtmlRecordsInParallel_page_any fuel pool chunkSize (rows : list Row) w :
  (n <= pool)%nat ->
  Forall (pool_ok env) (drop n (pools w)) ->
  let r := (let htmlRecords := to_record <$> rows in
            let* transformedRecords :=
              static_transformHtmlRecordsInParallel env fuel htmlRecords
                pool transformModulePath chunkSize in
            let* _ := insertRecords env TargetDb transformedRecords in
            ret htmlRecords) w in
  source r.2 = source w /\
  Forall (pool_ok env) (drop n (pools r.2)) /\
  ((r.1 = Normal (to_record <$> rows) /\
    target r.2 = (insert_transaction (apply_transform f <$> (to_record <$> rows))
                    (target w)).2) \/
   ((forall a, r.1 <> Normal a) /\ r.1 <> Break /\ target r.2 = target w)).
Proof.
  intros Hpool Hok r.
  destruct (page_quiet_static fuel (to_record <$> rows) pool chunkSize Hpool w Hok)
    as (Hs & Ht & Hok1 & Hnb).
  pose proof (static_result fuel (to_record <$> rows) pool chunkSize w) as Hres.
  destruct (static_transformHtmlRecordsInParallel env fuel (to_record <$> rows) pool
              transformModulePath chunkSize w) as [c w1] eqn:Hst.
  simpl in Hs, Ht, Hok1, Hres, Hnb.
  assert (Hr : r = match c with
                   | Normal out =>
                       (let* _ := insertRecords env TargetDb out in
                        ret (to_record <$> rows)) w1
                   | Throw e => (Throw e, w1)
                   | Break => (Break, w1)
                   | OutOfFuel => (OutOfFuel, w1)
                   end).
  { unfold r. cbv zeta. unfold bind at 1. rewrite Hst. by destruct c. }
  clearbody r. subst r.
  destruct c as [out|e| |]; simpl;
    try (split; [done|]; split; [done|]; right; by repeat split).
  rewrite (Hres out Hpool Hok eq_refl).
  unfold bind. rewrite insertRecords_run.
  destruct (store_fails env _); simpl.
  - split; [done|]. split; [done|]. right. by repeat split.
  - split; [done|]. split; [done|]. left. split; [done|]. by rewrite Ht.
Qed.
End Crash.

Section CursorAny.
Context (env : Env) (this : MdxDatabase) (contentType : option Z)
        (pageSize : Z) (t : Table).
Context (Hnodup : NoDup (row_id <$> t)) (Hexact : exact_rowids t).
Context (Inv : list Row -> World -> Prop)
        (yield_ : list MdxRecord -> M World (list MdxRecord)).
Context (Hlog : forall R w ev, Inv R w -> Inv R (add_trace [ev] w))
        (Htable : forall R w, Inv R w -> table this w = t)
        (Hpage : forall R w, R <> [] -> Inv R w ->
           let r := yield_ (to_record <$> limit pageSize R) w in
           (exists records',
              r.1 = Normal records' /\
              last records' ≫= rowid
              = last (to_record <$> limit pageSize R) ≫= rowid /\
              Inv (drop (length (limit pageSize R)) R) r.2) \/
           ((forall a, r.1 <> Normal a) /\ r.1 <> Break /\ Inv R r.2)).

(** The cursor, however it ends: what holds between two pages holds,
    for the rows that are left, when the loop is over; the loop is not
    left by [break]; and with a page size other than 0 it ends normally
    only when no row is left. *)
Lemma fetchRecordsPaginated_loop_any fuel lastRowId w :
  Inv (rows_after t contentType lastRowId) w ->
  let r := fetchRecordsPaginated_loop env fuel this contentType pageSize lastRowId
             yield_ w in
  r.1 <> Break /\
  exists R, Inv R r.2 /\ (pageSize <> 0 -> r.1 = Normal tt -> R = []).
Proof.
  revert lastRowId w. induction fuel as [|fuel IH]; intros lastRowId w HInv r.
  - split; [done|]. by exists (rows_after t contentType lastRowId).
  - set (w1 := add_trace [EvQueryPage this contentType lastRowId pageSize] w).
    assert (HInv1 : Inv (rows_after t contentType lastRowId) w1) by by apply Hlog.
    set (R := rows_after t contentType lastRowId) in *.
    assert (Hstep : r =
              if store_fails env (trace w ++ [EvQueryPage this contentType lastRowId pageSize])
              then (Throw SqliteError, w1)
              else if (length (limit pageSize R) =? 0)%nat then (Normal tt, w1)
              else
                (let* records := yield_ (to_record <$> limit pageSize R) in
                 match last records with
                 | None => throw TypeError
                 | Some record =>
                     match rowid record with
                     | None => throw TypeError
                     | Some lastRowId =>
                         fetchRecordsPaginated_loop env fuel this contentType pageSize
                           lastRowId yield_
                     end
                 end) w1).
    { unfold r. simpl. unfold bind at 1. rewrite store_call_run. fold w1.
      destruct (store_fails env _); [done|].
      unfold bind at 1, get. cbv beta iota zeta.
      rewrite (Htable _ _ HInv1), select_page_of_sorted.
      fold (rows_after t contentType lastRowId). fold R.
      rewrite length_fmap. by destruct (length (limit pageSize R) =? 0)%nat. }
    clearbody r. subst r.
    destruct (store_fails env _); [split; [done|]; by exists R|].
    destruct (limit pageSize R) as [|x0 page0] eqn:Hlimit.
    { simpl. split; [done|]. exists R. split; [done|]. intros Hsize _.
      destruct R as [|x R']; [done|]. exfalso.
      destruct (limit_take pageSize (x :: R') Hsize ltac:(done)) as (k & Hk & Htake).
      rewrite Htake in Hlimit. destruct k; [lia|done]. }
    assert (HR : R <> []).
    { intros HR. rewrite HR in Hlimit. by rewrite limit_nil in Hlimit. }
    assert (Hsize : pageSize <> 0).
    { intros ->. unfold limit in Hlimit. simpl in Hlimit. by rewrite take_0 in Hlimit. }
    cbn [length Nat.eqb]. rewrite <- Hlimit. unfold bind.
    destruct (Hpage R w1 HR HInv1)
      as [(records' & Hn & Hlast & HInv')|(Hnot & Hnb & HInv')].
    + destruct (yield_ (to_record <$> limit pageSize R) w1) as [c w2].
      simpl in Hn, HInv'. subst c.
      assert (exists x, last (limit pageSize R) = Some x) as [x Hx].
      { rewrite Hlimit. destruct (last (x0 :: page0)) eqn:Hl; [by eexists|].
        by apply last_None in Hl. }
      rewrite fmap_last, Hx in Hlast. cbn [fmap option_fmap option_map] in Hlast.
      cbn [mbind option_bind] in Hlast. unfold R in Hx.
      rewrite (last_page_rowid t contentType lastRowId pageSize x Hexact Hx) in Hlast.
      destruct (last records') as [record|]; [|done]. simpl in Hlast.
      rewrite Hlast.
      apply IH.
      rewrite (remaining_after_page contentType pageSize t Hsize Hnodup lastRowId x Hx).
      exact HInv'.
    + destruct (yield_ (to_record <$> limit pageSize R) w1) as [[a|e| |] w2];
        simpl in *; [by destruct (Hnot a)| | |]; (split; [done|]); by exists R.
Qed.
End CursorAny.

Lemma pass_invariant_log env w X g R w' ev :
  pass_invariant env w X g R w' -> pass_invariant env w X g R (add_trace [ev] w').
Proof. done. Qed.

Lemma pass_invariant_prefix env w X g R w' :
  pass_invariant env w X g R w' ->
  exists k, target w'
            = (insert_transaction (take k (g <$> (to_record <$> X))) (target w)).2.
Proof.
  intros (_ & _ & done & -> & Ht). exists (length done).
  rewrite Ht, !fmap_app. rewrite take_app_length'; [done|by rewrite !length_fmap].
Qed.

(** The pass of the default mode, however it ends. *)
Lemma processRecordsInParallel_pass_any env fuel transformModulePath pageSize chunkSize w :
  well_keyed (source w) ->
  exact_rowids (source w) ->
  exists R,
    pass_invariant env w (matching_rows (source w) None)
      (process_record (module_function env (resolve env transformModulePath))) R
      (for_await
         (processRecordsInParallel env fuel SourceDb transformModulePath
            pageSize chunkSize)
         (insertRecords env TargetDb) w).2.
Proof.
  intros [Hnodup Hpos] Hexact.
  set (X := matching_rows (source w) None).
  set (g := process_record (module_function env (resolve env transformModulePath))).
  change (processRecordsInParallel env fuel SourceDb transformModulePath
            pageSize chunkSize)
    with (processRecordsInParallel env fuel SourceDb transformModulePath
            (Some (default 10000 pageSize)) (Some (default 1000 chunkSize))).
  unfold for_await. rewrite processRecordsInParallel_start.
  set (w1 := add_trace [EvPoolCreate (length (pools w))]
               (set_pools (pools w ++ [fresh_pool]) w)).
  destruct (fetchRecordsPaginated_loop_any env SourceDb None (default 10000 pageSize)
              (source w) Hnodup Hexact (pass_invariant env w X g)
              (fun records =>
                 let htmlRecords := html_positions 0 records in
                 let* transformedRecords :=
                   static_transformHtmlRecordsInParallel env fuel
                     (deref records htmlRecords) (length (pools w))
                     transformModulePath (Some (default 1000 chunkSize)) in
                 let* records :=
                   assign_paraphrases htmlRecords 0 transformedRecords records in
                 insertRecords env TargetDb records)
              (pass_invariant_log env w X g)) with (fuel := fuel) (lastRowId := 0) (w := w1)
    as (_ & R & HInv & _).
  - by intros R w' (Hs & _).
  - intros R w' HR (Hs & Hok & done & Hsplit & Htgt).
    destruct (processRecordsInParallel_page_any env (length (pools w))
                transformModulePath fuel (length (pools w))
                (Some (default 1000 chunkSize)) (limit (default 10000 pageSize) R) w'
                ltac:(lia) Hok) as (Hs' & Hok' & Hcases).
    cbv zeta in Hcases |- *.
    destruct Hcases as [(records' & Hn & Hlast & Htgt')|(Hnot & Hnb & Htgt')].
    + left. exists records'. split; [done|]. split; [done|].
      split; [congruence|]. split; [done|].
      exists (done ++ limit (default 10000 pageSize) R). split.
      * by rewrite <- app_assoc, limit_drop.
      * rewrite Htgt', Htgt, !fmap_app, insert_transaction_app. done.
    + right. split; [done|]. split; [done|]. split; [congruence|]. split; [done|].
      exists done. split; [done|congruence].
  - rewrite rows_after_zero by done. split; [done|]. split.
    + simpl. rewrite drop_app_length. constructor; [apply pool_ok_fresh|constructor].
    + by exists [].
  - unfold try_finally. cbv zeta in HInv.
    destruct (fetchRecordsPaginated_loop env fuel SourceDb None (default 10000 pageSize) 0
                _ w1) as [[[]|e| |] w2]; simpl in *; by exists R.
Qed.

(** The pass of the HTML-first mode, however it ends; with a page size
    other than 0 it ends normally only when every HTML row is done. *)
Lemma transformHtmlRecordsInParallel_pass_any env fuel transformModulePath pageSize
    chunkSize w :
  well_keyed (source w) ->
  exact_rowids (source w) ->
  let r := for_await
             (transformHtmlRecordsInParallel env fuel SourceDb transformModulePath
                pageSize chunkSize)
             (insertRecords env TargetDb) w in
  exists R,
    pass_invariant env w (matching_rows (source w) (Some ContentType.HTML))
      (apply_transform (module_function env (resolve env transformModulePath))) R r.2 /\
    (default 10000 pageSize <> 0 -> r.1 = Normal tt -> R = []).
Proof.
  intros [Hnodup Hpos] Hexact r.
  set (X := matching_rows (source w) (Some ContentType.HTML)).
  set (g := apply_transform (module_function env (resolve env transformModulePath))).
  assert (Hr : r = for_await
                     (transformHtmlRecordsInParallel env fuel SourceDb transformModulePath
                        (Some (default 10000 pageSize)) (Some (default 1000 chunkSize)))
                     (insertRecords env TargetDb) w) by done.
  clearbody r. subst r.
  unfold for_await. rewrite transformHtmlRecordsInParallel_start.
  set (w1 := add_trace [EvPoolCreate (length (pools w))]
               (set_pools (pools w ++ [fresh_pool]) w)).
  destruct (fetchRecordsPaginated_loop_any env SourceDb (Some ContentType.HTML)
              (default 10000 pageSize)
              (source w) Hnodup Hexact (pass_invariant env w X g)
              (fun htmlRecords =>
                 let* transformedRecords :=
                   static_transformHtmlRecordsInParallel env fuel
                     htmlRecords (length (pools w))
                     transformModulePath (Some (default 1000 chunkSize)) in
                 let* _ := insertRecords env TargetDb transformedRecords in
                 ret htmlRecords)
              (pass_invariant_log env w X g)) with (fuel := fuel) (lastRowId := 0) (w := w1)
    as (Hnb & R & HInv & Hend).
  - by intros R w' (Hs & _).
  - intros R w' HR (Hs & Hok & done & Hsplit & Htgt).
    destruct (transformHtmlRecordsInParallel_page_any env (length (pools w))
                transformModulePath fuel (length (pools w))
                (Some (default 1000 chunkSize)) (limit (default 10000 pageSize) R) w'
                ltac:(lia) Hok) as (Hs' & Hok' & Hcases).
    cbv zeta in Hcases |- *.
    destruct Hcases as [(Hn & Htgt')|(Hnot & Hnb & Htgt')].
    + left. exists (to_record <$> limit (default 10000 pageSize) R).
      split; [done|]. split; [done|].
      split; [congruence|]. split; [done|].
      exists (done ++ limit (default 10000 pageSize) R). split.
      * by rewrite <- app_assoc, limit_drop.
      * rewrite Htgt', Htgt, !fmap_app, insert_transaction_app. done.
    + right. split; [done|]. split; [done|]. split; [congruence|]. split; [done|].
      exists done. split; [done|congruence].
  - rewrite rows_after_zero by done. split; [done|]. split.
    + simpl. rewrite drop_app_length. constructor; [apply pool_ok_fresh|constructor].
    + by exists [].
  - unfold try_finally. cbv zeta in HInv, Hend, Hnb.
    destruct (fetchRecordsPaginated_loop env fuel SourceDb (Some ContentType.HTML)
                (default 10000 pageSize) 0 _ w1) as [[[]|e| |] w2]; simpl in *;
      try done; exists R; (split; [done|]); done.
Qed.

Lemma take_fmap_app_length {A B} (h : A -> B) (l : list A) (l' : list B) :
  take (length l) ((h <$> l) ++ l') = h <$> l.
Proof. rewrite take_app_length'; [done|by rewrite length_fmap]. Qed.

(** The run of the workflow in the HTML-first mode, however it ends. *)
Lemma runTransformWorkflow_html_first_any env fuel transformModulePath options
    pageSize chunkSize w :
  well_keyed (source w) ->
  exact_rowids (source w) ->
  truthy_htmlBeforeLink options = true ->
  default 10000 pageSize <> 0 ->
  exists k,
    target (runTransformWorkflow_sized env fuel SourceDb TargetDb transformModulePath
              options pageSize chunkSize w).2
    = (insert_transaction
         (take k (copied_records options
                    (module_function env (resolve env transformModulePath)) (source w)))
         (target w)).2.
Proof.
  intros Hkeys Hexact Hmode Hsize. unfold runTransformWorkflow_sized, copied_records.
  rewrite Hmode.
  set (g := apply_transform (module_function env (resolve env transformModulePath))).
  unfold bind at 1. unfold validateModuleExists.
  destruct (existsSync env transformModulePath); [|by exists 0%nat].
  unfold ret at 1. unfold bind at 1, getTotalRecordCount. unfold bind at 1.
  rewrite store_call_run.
  destruct (store_fails env _); [by exists 0%nat|].
  unfold bind at 1, get, ret at 1.
  set (w1 := add_trace [EvCount SourceDb (Some ContentType.HTML)] w).
  unfold bind at 1. rewrite try_finally_ret.
  change (fun r => insertRecords env TargetDb r) with (insertRecords env TargetDb).
  destruct (transformHtmlRecordsInParallel_pass_any env fuel transformModulePath
              pageSize chunkSize w1 Hkeys Hexact) as (R & HInv & Hend).
  cbv zeta in HInv, Hend. fold g in HInv.
  destruct (for_await _ _ w1) as [c w2]. simpl in HInv, Hend.
  assert (Hpre : exists k, target w2
            = (insert_transaction
                 (take k ((g <$> select_all (source w) (Some ContentType.HTML))
                          ++ select_all (source w) (Some ContentType.LINK)))
                 (target w)).2).
  { destruct HInv as (_ & _ & done & Hsplit & Ht). exists (length done).
    change (source w1) with (source w) in Hsplit. change (target w1) with (target w) in Ht.
    unfold select_all. fold (matching_rows (source w) (Some ContentType.HTML)).
    rewrite Hsplit, !fmap_app, <- app_assoc.
    rewrite take_app_length' by (by rewrite !length_fmap). done. }
  destruct c as [[]|e| |]; try exact Hpre.
  specialize (Hend Hsize eq_refl). subst R.
  destruct HInv as (Hs & _ & done & Hsplit & Ht).
  rewrite app_nil_r in Hsplit. subst done.
  change (source w1) with (source w) in Hs, Ht.
  change (target w1) with (target w) in Ht.
  fold (select_all (source w) (Some ContentType.HTML)) in Ht.
  unfold fetchLinkRecords, fetchRecords. unfold bind at 1. unfold bind at 1.
  rewrite store_call_run.
  destruct (store_fails env _); simpl.
  { exists (length (select_all (source w) (Some ContentType.HTML))).
    by rewrite take_fmap_app_length. }
  unfold bind at 1. rewrite insertRecords_run. rewrite Hs.
  fold (select_all (source w) (Some ContentType.HTML)) in Ht.
  destruct (store_fails env _); simpl.
  { exists (length (select_all (source w) (Some ContentType.HTML))).
    by rewrite take_fmap_app_length. }
  exists (length ((g <$> select_all (source w) (Some ContentType.HTML))
                  ++ select_all (source w) (Some ContentType.LINK))).
  by rewrite firstn_all, insert_transaction_app, Ht.
Qed.

(** The run of the workflow in the default mode, however it ends. *)
Lemma runTransformWorkflow_default_any env fuel transformModulePath options
    pageSize chunkSize w :
  well_keyed (source w) ->
  exact_rowids (source w) ->
  truthy_htmlBeforeLink options = false ->
  exists k,
    target (runTransformWorkflow_sized env fuel SourceDb TargetDb transformModulePath
              options pageSize chunkSize w).2
    = (insert_transaction
         (take k (copied_records options
                    (module_function env (resolve env transformModulePath)) (source w)))
         (target w)).2.
Proof.
  intros Hkeys Hexact Hmode. unfold runTransformWorkflow_sized, copied_records. rewrite Hmode.
  unfold bind at 1. unfold validateModuleExists.
  destruct (existsSync env transformModulePath); [|by exists 0%nat].
  unfold ret at 1. unfold bind at 1, getTotalRecordCount. unfold bind at 1.
  rewrite store_call_run.
  destruct (store_fails env _); [by exists 0%nat|].
  unfold bind at 1, get, ret at 1.
  set (w1 := add_trace [EvCount SourceDb None] w).
  rewrite try_finally_ret.
  change (fun r => insertRecords env TargetDb r) with (insertRecords env TargetDb).
  destruct (processRecordsInParallel_pass_any env fuel transformModulePath
              pageSize chunkSize w1 Hkeys Hexact) as (R & HInv).
  destruct (pass_invariant_prefix _ _ _ _ _ _ HInv) as (k & Hk).
  exists k. rewrite Hk. done.
Qed.

(** X28. The destination after any run of the transform workflow, in
    either mode, on a source with unique positive rowids of at most 2^53,
    which JavaScript numbers hold exactly, and a destination with room for
    the rows: however the run ends (a store statement fails, the module
    cannot be loaded, its function throws, the chunk loop does not end, the
    run is cut short), the rows added to the destination are the first [k],
    for some [k], of the records a complete run copies, in the order of a
    complete run: in the default mode every record in ascending rowid,
    processed; in the HTML-first mode the transformed HTML records and then
    the LINK records.  No record is skipped, out of order or written twice.
    This holds for every page and chunk size, given, in the HTML-first
    mode, a page size other than 0; [runTransformWorkflow] itself runs with
    the default sizes. *)
Theorem destination_is_a_prefix_however_the_run_ends (env : Env) (fuel : nat)
    (transformModulePath : string) (options : option TransformOptions) (w : World) :
  well_keyed (source w) ->
  exact_rowids (source w) ->
  has_room (target w) (length (source w)) ->
  let copied := copied_records options
                  (module_function env (resolve env transformModulePath)) (source w) in
  (exists k,
     target (runTransformWorkflow env fuel SourceDb TargetDb transformModulePath
               options w).2
     = (insert_transaction (take k copied) (target w)).2) /\
  (forall pageSize chunkSize,
     (truthy_htmlBeforeLink options = true -> default 10000 pageSize <> 0) ->
     exists k,
       target (runTransformWorkflow_sized env fuel SourceDb TargetDb transformModulePath
                 options pageSize chunkSize w).2
       = (insert_transaction (take k copied) (target w)).2).
Proof.
  intros Hkeys Hexact _ copied.
  assert (Hsized : forall pageSize chunkSize,
     (truthy_htmlBeforeLink options = true -> default 10000 pageSize <> 0) ->
     exists k,
       target (runTransformWorkflow_sized env fuel SourceDb TargetDb transformModulePath
                 options pageSize chunkSize w).2
       = (insert_transaction (take k copied) (target w)).2).
  { intros pageSize chunkSize Hsize.
    destruct (truthy_htmlBeforeLink options) eqn:Hmode.
    - by apply runTransformWorkflow_html_first_any; [| | |apply Hsize].
    - by apply runTransformWorkflow_default_any. }
  split; [|exact Hsized].
  unfold runTransformWorkflow. by apply Hsized.
Qed.

Lemma destination_is_a_prefix_however_the_run_ends_witness :
  let env := CrashExamples.env_second_insert_fails in
  let w := Examples.world Examples.axbyc in
  let copied options :=
    copied_records options (module_function env (resolve env "/upper.js")) (source w) in
  let r := runTransformWorkflow_sized env 6 SourceDb TargetDb "/upper.js"
             None (Some 2) (Some 1) w in
  let r' := runTransformWorkflow_sized env 6 SourceDb TargetDb "/upper.js"
              (Some {| htmlBeforeLink := Some true |}) (Some 2) (Some 1) w in
  ((exists k,
      target (runTransformWorkflow env 6 SourceDb TargetDb "/upper.js" None w).2
      = (insert_transaction (take k (copied None)) (target w)).2) /\
   (forall pageSize chunkSize,
      (truthy_htmlBeforeLink None = true -> default 10000 pageSize <> 0) ->
      exists k,
        target (runTransformWorkflow_sized env 6 SourceDb TargetDb "/upper.js"
                  None pageSize chunkSize w).2
        = (insert_transaction (take k (copied None)) (target w)).2)) /\
  r.1 = Throw SqliteError /\
  row_content <$> target r.2
  = [("a", "<P>A</P>", Some ContentType.HTML); ("x", "@@@LINK=a", Some ContentType.LINK)]%string /\
  r'.1 = Throw SqliteError /\
  row_content <$> target r'.2
  = [("a", "<P>A</P>", Some ContentType.HTML); ("b", "<P>B</P>", Some ContentType.HTML)]%string.
Proof.
  intros env w copied r r'. split.
  - apply (destination_is_a_prefix_however_the_run_ends env 6 "/upper.js" None w).
    + apply examples_axbyc_well_keyed.
    + apply examples_axbyc_exact.
    + by vm_compute.
  - vm_compute. by repeat split.
Defined.

(** * Further properties: the names of the files of the debug command *)
















Section DebugNames.
Context (env : Env) (path_join : string -> string -> string).




End DebugNames.


(** * Runs on rowids that JavaScript numbers do not hold *)

Section CursorStuck.
Context (env : Env) (this : MdxDatabase) (contentType : option Z)
        (pageSize : Z) (t : Table).
Context (stuck : Z -> Prop) (Inv : World -> Prop)
        (yield_ : list MdxRecord -> M World (list MdxRecord)).
Context (Hlog : forall w ev, Inv w -> Inv (add_trace [ev] w))
        (Htable : forall w, Inv w -> table this w = t)
        (Hstuck : forall l, stuck l ->
           exists x l',
             last (select_page t contentType l pageSize) = Some x /\
             rowid x = Some l' /\ stuck l')
        (Hpage : forall l w, stuck l -> Inv w ->
           let r := yield_ (select_page t contentType l pageSize) w in
           Inv r.2 /\ r.1 <> Break /\
           forall records', r.1 = Normal records' ->
             last records' ≫= rowid
             = last (select_page t contentType l pageSize) ≫= rowid).

(** A cursor that cannot leave a set of watermarks at which the page is
    not empty never reaches the end of the table: whatever the fuel, the
    loop does not end normally. *)
Lemma fetchRecordsPaginated_loop_stuck fuel lastRowId w :
  stuck lastRowId -> Inv w ->
  let r := fetchRecordsPaginated_loop env fuel this contentType pageSize lastRowId
             yield_ w in
  (forall a, r.1 <> Normal a) /\ r.1 <> Break /\ Inv r.2.
Proof.
  revert lastRowId w. induction fuel as [|fuel IH]; intros lastRowId w Hl HInv r.
  - by repeat split.
  - set (w1 := add_trace [EvQueryPage this contentType lastRowId pageSize] w).
    assert (HInv1 : Inv w1) by by apply Hlog.
    destruct (Hstuck lastRowId Hl) as (x & l' & Hlast & Hx & Hl').
    assert (Hstep : r =
              if store_fails env (trace w ++ [EvQueryPage this contentType lastRowId pageSize])
              then (Throw SqliteError, w1)
              else
                (let* records := yield_ (select_page t contentType lastRowId pageSize) in
                 match last records with
                 | None => throw TypeError
                 | Some record =>
                     match rowid record with
                     | None => throw TypeError
                     | Some lastRowId =>
                         fetchRecordsPaginated_loop env fuel this contentType pageSize
                           lastRowId yield_
                     end
                 end) w1).
    { unfold r. simpl. unfold bind at 1. rewrite store_call_run. fold w1.
      destruct (store_fails env _); [done|].
      unfold bind at 1, get. cbv beta iota zeta.
      rewrite (Htable _ HInv1).
      destruct (select_page t contentType lastRowId pageSize) as [|r0 page]; [done|].
      done. }
    clearbody r. subst r.
    destruct (store_fails env _); [by repeat split|].
    unfold bind.
    destruct (Hpage lastRowId w1 Hl HInv1) as (HInv2 & Hnb & Hsame).
    destruct (yield_ (select_page t contentType lastRowId pageSize) w1)
      as [[records'|e| |] w2]; simpl in *; try (by repeat split).
    specialize (Hsame records' eq_refl). rewrite Hlast in Hsame. simpl in Hsame.
    destruct (last records') as [record|]; [|done]. simpl in Hsame.
    rewrite Hsame, Hx. by apply IH.
Qed.
End CursorStuck.

(** The workflow on a source whose cursor cannot leave a set of watermarks:
    whatever the fuel, the run does not complete. *)
Lemma runTransformWorkflow_stuck env fuel transformModulePath options pageSize
    chunkSize (stuck : Z -> Prop) w :
  let kind := if truthy_htmlBeforeLink options then Some ContentType.HTML else None in
  stuck 0 ->
  (forall l, stuck l ->
     exists x l',
       last (select_page (source w) kind l (default 10000 pageSize)) = Some x /\
       rowid x = Some l' /\ stuck l') ->
  (runTransformWorkflow_sized env fuel SourceDb TargetDb transformModulePath
     options pageSize chunkSize w).1 <> Normal tt.
Proof.
  intros kind H0 Hstuck. unfold runTransformWorkflow_sized.
  unfold bind at 1. unfold validateModuleExists.
  destruct (existsSync env transformModulePath); [|done].
  unfold ret at 1.
  set (Inv := fun n (w' : World) =>
                source w' = source w /\ Forall (pool_ok env) (drop n (pools w'))).
  assert (Hlog : forall n w' ev, Inv n w' -> Inv n (add_trace [ev] w')) by done.
  destruct (truthy_htmlBeforeLink options) eqn:Hmode; subst kind.
  - unfold bind at 1, getTotalRecordCount. unfold bind at 1.
    rewrite store_call_run.
    destruct (store_fails env _); [done|].
    unfold bind at 1, get, ret at 1.
    set (w1 := add_trace [EvCount SourceDb (Some ContentType.HTML)] w).
    unfold bind at 1. rewrite try_finally_ret.
    change (fun r => insertRecords env TargetDb r) with (insertRecords env TargetDb).
    change (transformHtmlRecordsInParallel env fuel SourceDb transformModulePath
              pageSize chunkSize)
      with (transformHtmlRecordsInParallel env fuel SourceDb transformModulePath
              (Some (default 10000 pageSize)) (Some (default 1000 chunkSize))).
    unfold for_await. rewrite transformHtmlRecordsInParallel_start.
    set (w2 := add_trace [EvPoolCreate (length (pools w1))]
                 (set_pools (pools w1 ++ [fresh_pool]) w1)).
    destruct (fetchRecordsPaginated_loop_stuck env SourceDb (Some ContentType.HTML)
                (default 10000 pageSize) (source w) stuck (Inv (length (pools w1)))
                (fun htmlRecords =>
                   let* transformedRecords :=
                     static_transformHtmlRecordsInParallel env fuel
                       htmlRecords (length (pools w1))
                       transformModulePath (Some (default 1000 chunkSize)) in
                   let* _ := insertRecords env TargetDb transformedRecords in
                   ret htmlRecords)
                (Hlog _)) with (fuel := fuel) (lastRowId := 0) (w := w2)
      as (Hnn & Hnb & _).
    + by intros w' [Hs _].
    + exact Hstuck.
    + intros l w' Hl [Hs Hok].
      destruct (transformHtmlRecordsInParallel_page_any env (length (pools w1))
                  transformModulePath fuel (length (pools w1))
                  (Some (default 1000 chunkSize))
                  (limit (default 10000 pageSize)
                     (order_by_rowid
                        (filter (fun r => where_content_type (Some ContentType.HTML) r
                                          && (l <? row_id r)) (source w))))
                  w' ltac:(lia) Hok) as (Hs' & Hok' & Hcases).
      cbv zeta in Hcases |- *. unfold select_page.
      split; [split; [congruence|done]|].
      destruct Hcases as [(Hn & _)|(Hnot & Hnb' & _)].
      * split; [by rewrite Hn|]. intros records' Hr. rewrite Hn in Hr. by injection Hr as <-.
      * split; [done|]. intros records' Hr. by destruct (Hnot records').
    + exact H0.
    + split; [done|]. simpl. rewrite drop_app_length.
      constructor; [apply pool_ok_fresh|constructor].
    + cbv zeta in Hnn, Hnb. unfold try_finally.
      destruct (fetchRecordsPaginated_loop env fuel SourceDb (Some ContentType.HTML)
                  (default 10000 pageSize) 0 _ w2) as [[[]|e| |] w3]; simpl in *; try done.
      by destruct (Hnn tt).
  - unfold bind at 1, getTotalRecordCount. unfold bind at 1.
    rewrite store_call_run.
    destruct (store_fails env _); [done|].
    unfold bind at 1, get, ret at 1.
    set (w1 := add_trace [EvCount SourceDb None] w).
    rewrite try_finally_ret.
    change (fun r => insertRecords env TargetDb r) with (insertRecords env TargetDb).
    change (processRecordsInParallel env fuel SourceDb transformModulePath
              pageSize chunkSize)
      with (processRecordsInParallel env fuel SourceDb transformModulePath
              (Some (default 10000 pageSize)) (Some (default 1000 chunkSize))).
    unfold for_await. rewrite processRecordsInParallel_start.
    set (w2 := add_trace [EvPoolCreate (length (pools w1))]
                 (set_pools (pools w1 ++ [fresh_pool]) w1)).
    destruct (fetchRecordsPaginated_loop_stuck env SourceDb None
                (default 10000 pageSize) (source w) stuck (Inv (length (pools w1)))
                (fun records =>
                   let htmlRecords := html_positions 0 records in
                   let* transformedRecords :=
                     static_transformHtmlRecordsInParallel env fuel
                       (deref records htmlRecords) (length (pools w1))
                       transformModulePath (Some (default 1000 chunkSize)) in
                   let* records :=
                     assign_paraphrases htmlRecords 0 transformedRecords records in
                   insertRecords env TargetDb records)
                (Hlog _)) with (fuel := fuel) (lastRowId := 0) (w := w2)
      as (Hnn & Hnb & _).
    + by intros w' [Hs _].
    + exact Hstuck.
    + intros l w' Hl [Hs Hok].
      destruct (processRecordsInParallel_page_any env (length (pools w1))
                  transformModulePath fuel (length (pools w1))
                  (Some (default 1000 chunkSize))
                  (limit (default 10000 pageSize)
                     (order_by_rowid
                        (filter (fun r => where_content_type None r
                                          && (l <? row_id r)) (source w))))
                  w' ltac:(lia) Hok) as (Hs' & Hok' & Hcases).
      cbv zeta in Hcases |- *. unfold select_page.
      split; [split; [congruence|done]|].
      destruct Hcases as [(records0 & Hn & Hlast & _)|(Hnot & Hnb' & _)].
      * split; [by rewrite Hn|]. intros records' Hr. rewrite Hn in Hr.
        by injection Hr as <-.
      * split; [done|]. intros records' Hr. by destruct (Hnot records').
    + exact H0.
    + split; [done|]. simpl. rewrite drop_app_length.
      constructor; [apply pool_ok_fresh|constructor].
    + cbv zeta in Hnn, Hnb. unfold try_finally.
      destruct (fetchRecordsPaginated_loop env fuel SourceDb None
                  (default 10000 pageSize) 0 _ w2) as [[[]|e| |] w3]; simpl in *; try done.
Qed.

Lemma rounding_examples_stuck (t : Table) (contentType : option Z) :
  select_page t contentType 0 10000 = to_record <$> RoundingExamples.ab ->
  select_page t contentType (2 ^ 54) 10000 = to_record <$> RoundingExamples.ab ->
  forall l, RoundingExamples.stuck l ->
    exists x l',
      last (select_page t contentType l (default 10000 None)) = Some x /\
      rowid x = Some l' /\ RoundingExamples.stuck l'.
Proof.
  intros H0 H1 l [->| ->]; simpl; [rewrite H0|rewrite H1];
    (eexists _, (2 ^ 54); split; [reflexivity|]; split; [by vm_compute|by right]).
Qed.

(** C2, as stated, fails.  The cursor starts above rowid 0, so a row with
    rowid 0 is never written, although it is before the row with rowid 1.
    A record carries its rowid as a JavaScript number: when the last rowid
    of a page is read as a number below it, the next page starts before
    the end of this one.  On [ab] every page is the whole table, the run
    does not complete whatever the fuel, and b is written before a is
    written again; on [abcd] with page size 3 the run completes having
    written c before the second b. *)
Lemma interleaved_mode_loses_source_order :
  (let r := runTransformWorkflow Examples.env 6 SourceDb TargetDb "/identity.js" None
              (Examples.world RoundingExamples.za) in
   r.1 = Normal tt /\ row_entry <$> target r.2 = ["a"]%string) /\
  (forall fuel,
     (runTransformWorkflow Examples.env fuel SourceDb TargetDb "/identity.js" None
        (Examples.world RoundingExamples.ab)).1 <> Normal tt) /\
  row_entry <$>
    target (runTransformWorkflow Examples.env 3 SourceDb TargetDb "/identity.js" None
              (Examples.world RoundingExamples.ab)).2
  = ["a"; "b"; "a"; "b"; "a"; "b"]%string /\
  (let r := runTransformWorkflow_sized Examples.env 6 SourceDb TargetDb "/identity.js"
              None (Some 3) None (Examples.world RoundingExamples.abcd) in
   r.1 = Normal tt /\
   row_entry <$> target r.2 = ["a"; "b"; "c"; "b"; "c"; "d"]%string).
Proof.
  split; [by vm_compute|]. split; [|split; by vm_compute].
  intros fuel.
  apply (runTransformWorkflow_stuck Examples.env fuel "/identity.js" None None None
           RoundingExamples.stuck (Examples.world RoundingExamples.ab)).
  - by left.
  - apply rounding_examples_stuck; by vm_compute.
Qed.

(** C3, as stated, fails.  The HTML pass is paged and starts above rowid
    0, the LINK records are read at once: an HTML row with rowid 0 is not
    written, a LINK row with rowid -1 is.  On [abx] every page of the HTML
    pass is a and b, the run does not complete whatever the fuel, b is
    written before a is written again, and the LINK record is never
    written; on [abcd] and a LINK row with page size 3 the run completes
    with the HTML records written as a, b, c, b, c, d. *)
Lemma html_first_mode_loses_group_order :
  (let r := runTransformWorkflow Examples.env 6 SourceDb TargetDb "/identity.js"
              (Some {| htmlBeforeLink := Some true |})
              (Examples.world
                 [ Examples.html 0 "z" "<p>z</p>"; Examples.link (-1) "x" "@@@LINK=z";
                   Examples.html 1 "a" "<p>a</p>" ]%string) in
   r.1 = Normal tt /\ row_entry <$> target r.2 = ["a"; "x"]%string) /\
  (forall fuel,
     (runTransformWorkflow Examples.env fuel SourceDb TargetDb "/identity.js"
        (Some {| htmlBeforeLink := Some true |})
        (Examples.world RoundingExamples.abx)).1 <> Normal tt) /\
  row_entry <$>
    target (runTransformWorkflow Examples.env 3 SourceDb TargetDb "/identity.js"
              (Some {| htmlBeforeLink := Some true |})
              (Examples.world RoundingExamples.abx)).2
  = ["a"; "b"; "a"; "b"; "a"; "b"]%string /\
  (let r := runTransformWorkflow_sized Examples.env 6 SourceDb TargetDb "/identity.js"
              (Some {| htmlBeforeLink := Some true |}) (Some 3) None
              (Examples.world
                 (RoundingExamples.abcd ++ [Examples.link 2 "x" "@@@LINK=a"%string])) in
   r.1 = Normal tt /\
   row_entry <$> target r.2 = ["a"; "b"; "c"; "b"; "c"; "d"; "x"]%string).
Proof.
  split; [by vm_compute|]. split; [|split; by vm_compute].
  intros fuel.
  apply (runTransformWorkflow_stuck Examples.env fuel "/identity.js"
           (Some {| htmlBeforeLink := Some true |}) None None
           RoundingExamples.stuck (Examples.world RoundingExamples.abx)).
  - by left.
  - apply rounding_examples_stuck; by vm_compute.
Qed.
